(** * maven-pom-editor: tiered cache manager and dependency text parsers

    A shallow embedding of the class [CacheManager] (module cacheManager,
    src/extension.ts lines 126-431) and of the text parsers of the class
    [MavenUtils] (module mavenUtils, src/extension.ts lines 815-1066), with
    the properties that the specification states about them.

    Around them the embedding covers [invalidate], [clearAll] and [getStats]
    of the cache manager (lines 235-290 and 534-556) and its two instances,
    the retry loop [executeWithRetry] (lines 705-745), the tree searches of
    the webview script (lines 1700-1718 and 1926-1980), and the handler
    [executeWithProgress] and the function [escapeHtml] of the editor
    provider (lines 2636-2785). The warm-up of the cache (lines 437-529),
    which runs its lookups concurrently, and [analyzeError] (lines 754-808),
    whose texts are outside the alphabet of the model, are not embedded.

    Conventions of the embedding.
    - Text is a Stdlib [string], one [ascii] per UTF-16 code unit; code units
      above 255 are outside the model (Maven prints ASCII coordinates).
    - A JavaScript exception is the [Throw] constructor of [completion]; a
      function that can run into a [TypeError] returns a [completion].
    - Objects that the source mutates through references (the nodes of the
      dependency tree) live in an explicit heap and are named by address.
    - The cache tiers, the console and the file system are fields of an
      explicit [Host] state threaded through the operations. *)

From Stdlib Require Import ZArith Ascii String List Bool Lia.
From stdpp Require Import gmap strings list.



(** ** JavaScript string primitives used by the source *)

Module Js.

(** Outcome of evaluating a JavaScript expression or statement. *)
Inductive completion (A : Type) : Type :=
| Normal (a : A)
| Throw (error : string).
Global Arguments Normal {A} a.
Global Arguments Throw {A} error.

Definition bindC {A B} (c : completion A) (k : A -> completion B) : completion B :=
  match c with
  | Normal a => k a
  | Throw e => Throw e
  end.

(** [x.trim()] where [x] may be [undefined]: a [TypeError] in that case. *)
Definition orTypeError {A} (x : option A) : completion A :=
  match x with
  | Some a => Normal a
  | None => Throw "TypeError"
  end.

(** White space in the sense of [String.prototype.trim]: WhiteSpace and
    LineTerminator code units below 256. *)
Definition isWhiteSpace (c : ascii) : bool :=
  let n := nat_of_ascii c in
  (n =? 9)%nat || (n =? 10)%nat || (n =? 11)%nat || (n =? 12)%nat ||
  (n =? 13)%nat || (n =? 32)%nat || (n =? 160)%nat.

(** Line terminators, which the regular-expression atom [.] refuses. *)
Definition isLineTerminator (c : ascii) : bool :=
  let n := nat_of_ascii c in (n =? 10)%nat || (n =? 13)%nat.

Fixpoint forallChars (p : ascii -> bool) (s : string) : bool :=
  match s with
  | EmptyString => true
  | String c s' => p c && forallChars p s'
  end.

Definition isEmpty (s : string) : bool :=
  match s with EmptyString => true | _ => false end.

Fixpoint dropWhile (p : ascii -> bool) (s : string) : string :=
  match s with
  | EmptyString => EmptyString
  | String c s' => if p c then dropWhile p s' else s
  end.

Definition trimStart (s : string) : string := dropWhile isWhiteSpace s.

Fixpoint trimEnd (s : string) : string :=
  match s with
  | EmptyString => EmptyString
  | String c s' =>
      let t := trimEnd s' in
      if isWhiteSpace c && isEmpty t then EmptyString else String c t
  end.

Definition trim (s : string) : string := trimEnd (trimStart s).

Definition startsWith (s prefix : string) : bool := String.prefix prefix s.

(** [s.includes(sub)] *)
Fixpoint includes (s sub : string) : bool :=
  String.prefix sub s ||
  match s with
  | EmptyString => false
  | String _ s' => includes s' sub
  end.

(** [s.indexOf(sub)], with JavaScript's [-1] for "not found". *)
Fixpoint indexOf (s sub : string) : Z :=
  if String.prefix sub s then 0%Z
  else match s with
       | EmptyString => (-1)%Z
       | String _ s' =>
           let i := indexOf s' sub in
           if (i <? 0)%Z then (-1)%Z else (i + 1)%Z
       end.

Fixpoint drop (n : nat) (s : string) : string :=
  match n, s with
  | O, _ => s
  | S n', String _ s' => drop n' s'
  | S _, EmptyString => EmptyString
  end.

(** [s.substring(start)]: a negative start is clamped to 0, a start past
    the end gives the empty string. *)
Definition substring (s : string) (start : Z) : string :=
  drop (Z.to_nat start) s.

(** [s.split(sep)] for a one-character separator. *)
Fixpoint splitGo (sep : ascii) (s : string) : string * list string :=
  match s with
  | EmptyString => (EmptyString, [])
  | String c s' =>
      let '(cur, rest) := splitGo sep s' in
      if Ascii.eqb c sep then (EmptyString, cur :: rest)
      else (String c cur, rest)
  end.

Definition split (sep : ascii) (s : string) : list string :=
  let '(cur, rest) := splitGo sep s in cur :: rest.

(** Search of a regular expression of the shape [/pattern$/]: [here t]
    says that the pattern matches exactly the text [t]; the engine tries
    the start positions from left to right and the result is the text in
    front of the first match, which is also what
    [s.replace(/pattern$/, '')] leaves. *)
Fixpoint searchToEnd (here : string -> bool) (s : string) : option string :=
  if here s then Some EmptyString
  else match s with
       | EmptyString => None
       | String c s' => option_map (String c) (searchToEnd here s')
       end.

(** [s] without its last character, and that character. *)
Fixpoint unsnoc (s : string) : option (string * ascii) :=
  match s with
  | EmptyString => None
  | String c s' =>
      match unsnoc s' with
      | None => Some (EmptyString, c)
      | Some (init, last) => Some (String c init, last)
      end
  end.

(** [s] without the literal [lit] at its front, if it starts with it. *)
Fixpoint stripPrefix (lit s : string) : option string :=
  match lit, s with
  | EmptyString, _ => Some s
  | String a lit', String b s' =>
      if Ascii.eqb a b then stripPrefix lit' s' else None
  | String _ _, EmptyString => None
  end.

Definition firstChar (s : string) : option ascii :=
  match s with EmptyString => None | String c _ => Some c end.

Definition lastChar (s : string) : option ascii :=
  option_map snd (unsnoc s).

(** No white space at either end. *)
Definition isTrimmed (s : string) : bool :=
  match firstChar s with Some c => negb (isWhiteSpace c) | None => true end &&
  match lastChar s with Some c => negb (isWhiteSpace c) | None => true end.

End Js.

(** ** MavenUtils: the dependency text parsers *)

Module DependencyNode.
(** [interface DependencyNode]. The [children] array holds references to
    node objects: addresses into the heap of the parse. *)
Record t : Type := mk {
  groupId : string;
  artifactId : string;
  type : string;
  version : string;
  scope : option string;
  classifier : option string;
  children : list nat;
  omittedReason : option string
}.

Definition pushChild (child : nat) (parent : t) : t :=
  mk (groupId parent) (artifactId parent) (type parent) (version parent)
     (scope parent) (classifier parent) (children parent ++ [child])
     (omittedReason parent).
End DependencyNode.

Module ResolvedDependency.
(** [interface ResolvedDependency] *)
Record t : Type := mk {
  groupId : string;
  artifactId : string;
  type : string;
  version : string;
  scope : option string;
  classifier : option string
}.
End ResolvedDependency.

Module MavenUtils.
Import Js.

(** *** calculateIndent (lines 930-946) *)

Definition isTreeGlyph (char : ascii) : bool :=
  Ascii.eqb char "|" || Ascii.eqb char "+" ||
  Ascii.eqb char "092" (* backslash *) ||
  Ascii.eqb char "-".

(** The [for] loop of [calculateIndent]: [indent] is the running counter. *)
Fixpoint indentLoop (line : string) (indent : nat) : nat :=
  match line with
  | EmptyString => indent
  | String char rest =>
      if Ascii.eqb char " " then indentLoop rest (S indent)
      else if isTreeGlyph char then indentLoop rest indent
      else indent
  end.

Definition calculateIndent (line : string) : nat :=
  indentLoop line 0 / 3.

(** *** The coordinate decoder shared by both node parsers *)

(** The variables that the destructuring assignments fill; a missing
    array element leaves [undefined], here [None]. *)
Record Fields : Type := mkFields {
  f_groupId : option string;
  f_artifactId : option string;
  f_type : option string;
  f_version : option string;
  f_scope : option string;
  f_classifier : option string
}.

(** The [if (parts.length === 4) ... else if (parts.length === 5) ... else]
    block, which the two node parsers repeat word for word. *)
Definition destructure (parts : list string) : Fields :=
  if (List.length parts =? 4)%nat then
    mkFields (parts !! 0%nat) (parts !! 1%nat) (parts !! 2%nat)
             (parts !! 3%nat) None None
  else if (List.length parts =? 5)%nat then
    mkFields (parts !! 0%nat) (parts !! 1%nat) (parts !! 2%nat)
             (parts !! 3%nat) (parts !! 4%nat) None
  else
    mkFields (parts !! 0%nat) (parts !! 1%nat) (parts !! 2%nat)
             (parts !! 4%nat) (parts !! 5%nat) (parts !! 3%nat).

(** *** parseResolvedDependencyNode (lines 1032-1066) *)

Definition parseResolvedDependencyNode (content : string)
  : completion (option ResolvedDependency.t) :=
  let parts := split ":" content in
  if (List.length parts <? 4)%nat then Normal None
  else
    let f := destructure parts in
    bindC (orTypeError (f_groupId f)) (fun groupId =>
    bindC (orTypeError (f_artifactId f)) (fun artifactId =>
    bindC (orTypeError (f_type f)) (fun type =>
    bindC (orTypeError (f_version f)) (fun version =>
    Normal (Some (ResolvedDependency.mk
      (trim groupId) (trim artifactId) (trim type) (trim version)
      (option_map trim (f_scope f))
      (option_map trim (f_classifier f)))))))).

(** *** parseDependencyNode (lines 953-1025) *)

(** [content.match(/^\((.+)\)$/)]: the capture group, if the text is an
    opening parenthesis, one or more characters that are not line
    terminators, and a closing parenthesis. *)
Definition matchWrapped (content : string) : option string :=
  match content with
  | String c rest =>
      if Ascii.eqb c "(" then
        match unsnoc rest with
        | Some (inner, last) =>
            if Ascii.eqb last ")" && negb (isEmpty inner) &&
               forallChars (fun c => negb (isLineTerminator c)) inner
            then Some inner else None
        | None => None
        end
      else None
  | EmptyString => None
  end.

(** [lit([^)]+)$] at the start of [t] *)
Definition literalThenVersion (lit t : string) : bool :=
  match stripPrefix lit t with
  | Some x => negb (isEmpty x) &&
              forallChars (fun c => negb (Ascii.eqb c ")")) x
  | None => false
  end.

(** [lit$] at the start of [t] *)
Definition literalOnly (lit t : string) : bool := String.eqb t lit.

Definition omittedPatterns : list ((string -> bool) * string) :=
  [ (literalThenVersion " - omitted for conflict with ", "conflict");
    (literalOnly " - omitted for duplicate", "duplicate");
    (literalOnly " - omitted for cycle", "cycle");
    (literalThenVersion " - version managed from ", "managed") ].

(** The [for (const { pattern, reason } of omittedPatterns)] loop with its
    [break]: the reason and the clean content of the first pattern that
    matches. *)
Fixpoint matchOmitted (patterns : list ((string -> bool) * string))
    (content : string) : option (string * string) :=
  match patterns with
  | [] => None
  | (pattern, reason) :: rest =>
      match searchToEnd pattern content with
      | Some before => Some (reason, trim before)
      | None => matchOmitted rest content
      end
  end.

Definition parseDependencyNode (content : string)
  : completion (option DependencyNode.t) :=
  let content :=
    match matchWrapped content with
    | Some inner => inner
    | None => content
    end in
  let '(omittedReason, cleanContent) :=
    match matchOmitted omittedPatterns content with
    | Some (reason, clean) => (Some reason, clean)
    | None => (None, content)
    end in
  let parts := split ":" cleanContent in
  if (List.length parts <? 4)%nat then Normal None
  else
    let f := destructure parts in
    bindC (orTypeError (f_groupId f)) (fun groupId =>
    bindC (orTypeError (f_artifactId f)) (fun artifactId =>
    bindC (orTypeError (f_type f)) (fun type =>
    bindC (orTypeError (f_version f)) (fun version =>
    Normal (Some (DependencyNode.mk
      (trim groupId) (trim artifactId) (trim type) (trim version)
      (option_map trim (f_scope f))
      (option_map trim (f_classifier f))
      [] omittedReason)))))).

(** *** parseDependencyTree (lines 815-876) *)

(** [for (const x of items) body], where the body may throw. *)
Fixpoint forOf {S A : Type} (body : S -> A -> completion S)
    (items : list A) (st : S) : completion S :=
  match items with
  | [] => Normal st
  | x :: rest => bindC (body st x) (forOf body rest)
  end.

(** The variables of [parseDependencyTree] and the node objects allocated
    so far. [stack] has its top at the head; an element is the pair
    [{ node, indent }] with the node given by address. *)
Record TreeState : Type := mkTreeState {
  heap : list DependencyNode.t;
  rootNodes : list nat;
  stack : list (nat * nat)
}.

(** [while (stack.length > 0 && stack[stack.length - 1].indent >= indent)
    stack.pop()] *)
Fixpoint popWhile (indent : nat) (stack : list (nat * nat)) : list (nat * nat) :=
  match stack with
  | [] => []
  | (node, top) :: below =>
      if (indent <=? top)%nat then popWhile indent below else stack
  end.

Definition isNoise (content : string) : bool :=
  includes content "---" || includes content "maven-dependency-plugin" ||
  startsWith content "Downloading" || startsWith content "Downloaded".

Definition isTreeChar (c : ascii) : bool :=
  isTreeGlyph c || Ascii.eqb c " ".

(** The first half of the loop body: every [continue], and otherwise the
    indentation level of the line and the node decoded from it. *)
Definition decodeTreeLine (line : string)
  : completion (option (nat * DependencyNode.t)) :=
  if negb (includes line "[INFO]") || (String.length (trim line) =? 0)%nat
  then Normal None
  else
    let content := trimStart (substring line (indexOf line "[INFO]" + 6)) in
    if isNoise content then Normal None
    else
      let indent := calculateIndent content in
      (* content.replace(/^[+\-\\| ]+/, '').trim() *)
      let content := trim (dropWhile isTreeChar content) in
      if isEmpty content then Normal None
      else
        bindC (parseDependencyNode content) (fun parsed =>
        match parsed with
        | None => Normal None
        | Some node => Normal (Some (indent, node))
        end).

(** The second half: the new node object is allocated and linked in. *)
Definition place (st : TreeState) (indent : nat) (node : DependencyNode.t)
  : TreeState :=
  let addr := List.length (heap st) in
  let heap1 := heap st ++ [node] in
  if (indent =? 0)%nat then
    mkTreeState heap1 (rootNodes st ++ [addr]) [(addr, indent)]
  else
    let stack1 := popWhile indent (stack st) in
    let heap2 :=
      match stack1 with
      | (parent, _) :: _ => alter (DependencyNode.pushChild addr) parent heap1
      | [] => heap1
      end in
    mkTreeState heap2 (rootNodes st) ((addr, indent) :: stack1).

Definition treeLine (st : TreeState) (line : string) : completion TreeState :=
  bindC (decodeTreeLine line) (fun decoded =>
  match decoded with
  | None => Normal st
  | Some (indent, node) => Normal (place st indent node)
  end).

(** What the caller receives: the array of root references together with
    the objects they reach. *)
Record Forest : Type := mkForest {
  nodes : list DependencyNode.t;
  roots : list nat
}.

Definition parseDependencyTree (treeText : string) : completion Forest :=
  let lines := split "010" treeText in
  bindC (forOf treeLine lines (mkTreeState [] [] []))
        (fun st => Normal (mkForest (heap st) (rootNodes st))).

(** The forest as a value: every reference replaced by the object it
    names. [fuel] bounds the depth of the unfolding. *)
#[local] Unset Elimination Schemes.
Inductive Tree : Type :=
| TreeNode (node : DependencyNode.t) (subtrees : list Tree).
#[local] Set Elimination Schemes.

Fixpoint unfoldNode (fuel : nat) (objects : list DependencyNode.t)
    (addr : nat) : option Tree :=
  match fuel with
  | O => None
  | S fuel' =>
      match objects !! addr with
      | None => None
      | Some node =>
          option_map (TreeNode node)
            (mapM (unfoldNode fuel' objects) (DependencyNode.children node))
      end
  end.

Definition unfoldForest (f : Forest) : option (list Tree) :=
  mapM (unfoldNode (S (List.length (nodes f))) (nodes f)) (roots f).

(** *** parseResolvedDependencies (lines 883-923) *)

Record ListState : Type := mkListState {
  dependencies : list ResolvedDependency.t;
  seenDependencies : gset string
}.

Definition dependencyKey (d : ResolvedDependency.t) : string :=
  ResolvedDependency.groupId d +:+ ":" +:+ ResolvedDependency.artifactId d.

Definition isNotDependencyLine (content : string) : bool :=
  isEmpty content ||
  includes content "---" ||
  includes content "maven-dependency-plugin" ||
  startsWith content "The following" ||
  startsWith content "Downloading" ||
  startsWith content "Downloaded" ||
  negb (includes content ":").

(** The first half of the loop body: every [continue] in front of the
    duplicate check, and the decoded dependency otherwise. *)
Definition decodeListLine (line : string)
  : completion (option ResolvedDependency.t) :=
  if negb (includes line "[INFO]") then Normal None
  else
    let content := trim (substring line (indexOf line "[INFO]" + 6)) in
    if isNotDependencyLine content then Normal None
    else parseResolvedDependencyNode content.

(** The second half: the duplicate check on [groupId:artifactId]. *)
Definition remember (st : ListState) (dependency : ResolvedDependency.t)
  : ListState :=
  let key := dependencyKey dependency in
  if decide (key ∈ seenDependencies st) then st
  else mkListState (dependencies st ++ [dependency])
                   ({[key]} ∪ seenDependencies st).

Definition listLine (st : ListState) (line : string) : completion ListState :=
  bindC (decodeListLine line) (fun parsed =>
  match parsed with
  | None => Normal st
  | Some dependency => Normal (remember st dependency)
  end).

Definition parseResolvedDependencies (listText : string)
  : completion (list ResolvedDependency.t) :=
  let lines := split "010" listText in
  bindC (forOf listLine lines (mkListState [] ∅))
        (fun st => Normal (dependencies st)).

(** *** executeWithRetry (lines 705-745) *)

(** What [execAsync] resolves to. *)
Record ExecResult : Type := mkExecResult {
  stdout : string;
  stderr : string
}.

(** What [execAsync] rejects with: the [message] of the error, empty when it
    has none, and what [toString()] gives for it. *)
Record ExecError : Type := mkExecError {
  message : string;
  rendering : string
}.

(** What the caller can observe of a run: the invocations of [execAsync],
    each with the number of its attempt, and the waits in milliseconds. *)
Inductive Event : Type :=
| Exec (attempt : Z)
| Sleep (delay : Z).

(** How a run ends: it returns the result, or it throws the error that it
    kept last; [Thrown None] is [throw undefined]. *)
Inductive Outcome : Type :=
| Returned (result : ExecResult)
| Thrown (lastError : option ExecError).

Section Retry.

(** The literal of line 730, whose code units are above 255. *)
Variable networkConnection : string.

(** What [execAsync(command, options)] settles to in each attempt. *)
Variable execAsync : Z -> ExecResult + ExecError.

(** [error.message || error.toString()] *)
Definition errorMessage (error : ExecError) : string :=
  if isEmpty (message error) then rendering error else message error.

Definition isNetworkError (errorMessage : string) : bool :=
  includes errorMessage "Remote host closed connection" ||
  includes errorMessage "Connection refused" ||
  includes errorMessage "timeout" ||
  includes errorMessage "Connection timed out" ||
  includes errorMessage "Could not transfer artifact" ||
  includes errorMessage networkConnection.

(** The loop of lines 712-742 from the test of its condition on, and the
    statement that follows it. Each turn needs one unit of [fuel]. *)
Fixpoint retryLoop (maxRetries : Z) (fuel : nat) (attempt : Z)
    (lastError : option ExecError) : option (list Event * Outcome) :=
  match fuel with
  | O => None
  | S fuel' =>
      if (attempt <=? maxRetries)%Z then
        match execAsync attempt with
        | inl result =>
            Some ([Exec attempt],
                  Returned (mkExecResult (stdout result) (stderr result)))
        | inr error =>
            if isNetworkError (errorMessage error)
               && (attempt <? maxRetries)%Z
            then
              let delay := Z.min (1000 * 2 ^ (attempt - 1)) 5000 in
              match retryLoop maxRetries fuel' (attempt + 1) (Some error) with
              | Some (events, outcome) =>
                  Some (Exec attempt :: Sleep delay :: events, outcome)
              | None => None
              end
            else Some ([Exec attempt], Thrown (Some error))
        end
      else Some ([], Thrown lastError)
  end.

Definition executeWithRetry (maxRetries : Z)
  : option (list Event * Outcome) :=
  retryLoop maxRetries (S (Z.to_nat maxRetries)) 1 None.

End Retry.

End MavenUtils.


(** ** CacheManager: the three-tier cache *)

Module CacheManager.
Import Js.

Definition CACHE_VERSION : string := "1.0.0".
Definition MAX_CACHE_AGE_MS : Z := 60 * 60 * 1000.
Definition SMALL_DATA_THRESHOLD : Z := 50 * 1024.

(** [interface CacheData]; the payload type [any] is a parameter. *)
Record CacheData (Data : Type) : Type := mkCacheData {
  data : Data;
  timestamp : Z;
  pomMtime : Z;
  version : string
}.
Global Arguments mkCacheData {Data} _ _ _ _.
Global Arguments data {Data} _.
Global Arguments timestamp {Data} _.
Global Arguments pomMtime {Data} _.
Global Arguments version {Data} _.

(** What the surroundings answer while one operation runs. *)
Record World : Type := mkWorld {
  (** [Date.now()] *)
  now : Z;
  (** [(await vscode.workspace.fs.stat(Uri.file(path))).mtime]; [None]
      when [stat] rejects (file missing or unreadable) *)
  mtime : string -> option Z;
  (** whether [context.storageUri] is defined *)
  storageUri : bool;
  (** whether [workspaceState.update(key, value)] rejects *)
  updateRejects : string -> bool;
  (** whether [fs.createDirectory(storageUri)] rejects *)
  createDirectoryRejects : bool;
  (** whether [fs.writeFile(storageUri/fileName, content)] rejects *)
  writeFileRejects : string -> bool
}.

(** Lines written with [console.error]; [console.log] and [console.warn]
    traces are not modelled. *)
Inductive ErrorLine : Type :=
| CacheWriteFailed (cacheKey error : string)
| FileCacheWriteFailed (error : string).

(** The mutable state: the three tiers and the error console. A file of
    the storage directory is identified with the entry that
    [JSON.parse] reads back from it; [storageDirectory = None] means the
    directory does not exist. *)
Record Host (Data : Type) : Type := mkHost {
  memoryCache : gmap string (CacheData Data);
  workspaceState : gmap string (CacheData Data);
  storageDirectory : option (gmap string (CacheData Data));
  consoleErrors : list ErrorLine
}.
Global Arguments mkHost {Data} _ _ _ _.
Global Arguments memoryCache {Data} _.
Global Arguments workspaceState {Data} _.
Global Arguments storageDirectory {Data} _.
Global Arguments consoleErrors {Data} _.

(** An [async] method: it reads and updates the host and either returns
    or throws; what it has written before a throw stays written. *)
Definition Op (Data A : Type) : Type :=
  Host Data -> completion A * Host Data.

Definition ret {Data A} (a : A) : Op Data A := fun h => (Normal a, h).

Definition throw {Data A} (error : string) : Op Data A :=
  fun h => (Throw error, h).

Definition bind {Data A B} (m : Op Data A) (k : A -> Op Data B) : Op Data B :=
  fun h =>
    match m h with
    | (Normal a, h') => k a h'
    | (Throw e, h') => (Throw e, h')
    end.

(** [try { body } catch (error) { handler }] *)
Definition tryCatch {Data A} (body : Op Data A) (handler : string -> Op Data A)
  : Op Data A :=
  fun h =>
    match body h with
    | (Normal a, h') => (Normal a, h')
    | (Throw e, h') => handler e h'
    end.

Declare Scope op_scope.
Delimit Scope op_scope with op.
Notation "'let*' x := m 'in' k" := (bind m (fun x => k))
  (at level 10, x name, m at level 100, k at level 200) : op_scope.
Notation "m >> k" := (bind m (fun _ => k))
  (at level 100, k at level 200, right associativity) : op_scope.

Section Operations.
Context {Data : Type}.

(** [JSON.stringify(data).length]; [None] when evaluating it throws. *)
Variable jsonLength : Data -> option Z.

(** [crypto.createHash('md5').update(path).digest('hex')] *)
Variable md5 : string -> string.

Variable w : World.

Local Open Scope op_scope.

(** *** Host primitives *)

Definition stat (path : string) : Op Data Z :=
  match mtime w path with
  | Some m => ret m
  | None => throw "FileNotFound"
  end.

Definition memoryGet (key : string) : Op Data (option (CacheData Data)) :=
  fun h => (Normal (memoryCache h !! key), h).

Definition memorySet (key : string) (entry : CacheData Data) : Op Data unit :=
  fun h => (Normal tt,
            mkHost (<[key := entry]> (memoryCache h)) (workspaceState h)
                   (storageDirectory h) (consoleErrors h)).

Definition workspaceStateGet (key : string)
  : Op Data (option (CacheData Data)) :=
  fun h => (Normal (workspaceState h !! key), h).

Definition workspaceStateUpdate (key : string) (entry : CacheData Data)
  : Op Data unit :=
  if updateRejects w key then throw "UpdateRejected"
  else fun h =>
    (Normal tt,
     mkHost (memoryCache h) (<[key := entry]> (workspaceState h))
            (storageDirectory h) (consoleErrors h)).

Definition readFile (fileName : string) : Op Data (CacheData Data) :=
  fun h =>
    match storageDirectory h with
    | Some files =>
        match files !! fileName with
        | Some entry => (Normal entry, h)
        | None => (Throw "FileNotFound", h)
        end
    | None => (Throw "FileNotFound", h)
    end.

Definition writeFile (fileName : string) (entry : CacheData Data)
  : Op Data unit :=
  if writeFileRejects w fileName then throw "WriteRejected"
  else fun h =>
    match storageDirectory h with
    | Some files =>
        (Normal tt,
         mkHost (memoryCache h) (workspaceState h)
                (Some (<[fileName := entry]> files)) (consoleErrors h))
    | None => (Throw "FileNotFound", h)
    end.

Definition consoleError (line : ErrorLine) : Op Data unit :=
  fun h => (Normal tt,
            mkHost (memoryCache h) (workspaceState h) (storageDirectory h)
                   (consoleErrors h ++ [line])).

(** *** Methods of the class (lines 148-229 and 295-431) *)

Definition isCacheValid (cached : CacheData Data) (pomPath : string) : bool :=
  if negb (String.eqb (version cached) CACHE_VERSION) then false
  else if (now w - timestamp cached >? MAX_CACHE_AGE_MS)%Z then false
  else
    match mtime w pomPath with
    | Some current => if (current >? pomMtime cached)%Z then false else true
    | None => false
    end.

Definition generateCacheKey (pomPath cacheKey : string) : string :=
  pomPath +:+ ":" +:+ cacheKey.

Definition getWorkspaceStateKey (pomPath cacheKey : string) : string :=
  "maven-cache-" +:+ cacheKey +:+ "-" +:+ md5 pomPath.

(** The file name that [getCacheFilePath] joins to [storageUri]. *)
Definition getCacheFilePath (pomPath cacheKey : string) : string :=
  "cache-" +:+ cacheKey +:+ "-" +:+ md5 pomPath +:+ ".json".

Definition getFromFileCache (pomPath cacheKey : string)
  : Op Data (option (CacheData Data)) :=
  if negb (storageUri w) then ret None
  else
    tryCatch
      (let* cached := readFile (getCacheFilePath pomPath cacheKey) in
       ret (Some cached))
      (fun _ => ret None).

Definition ensureStorageDirectory : Op Data unit :=
  if negb (storageUri w) then ret tt
  else fun h =>
    match storageDirectory h with
    | Some _ => (Normal tt, h)
    | None =>
        if createDirectoryRejects w then (Throw "CreateDirectoryRejected", h)
        else (Normal tt,
              mkHost (memoryCache h) (workspaceState h) (Some ∅)
                     (consoleErrors h))
    end.

Definition setToFileCache (pomPath cacheKey : string)
    (cacheData : CacheData Data) : Op Data unit :=
  if negb (storageUri w) then ret tt
  else
    tryCatch
      (ensureStorageDirectory >>
       writeFile (getCacheFilePath pomPath cacheKey) cacheData)
      (fun error =>
         consoleError (FileCacheWriteFailed error) >> throw error).

Definition estimateDataSize (d : Data) : Z :=
  match jsonLength d with
  | Some n => n
  | None => 0%Z
  end.

(** [cached && await this.isCacheValid(cached, pomPath)] *)
Definition fresh (pomPath : string) (cached : option (CacheData Data))
  : option (CacheData Data) :=
  match cached with
  | Some entry => if isCacheValid entry pomPath then Some entry else None
  | None => None
  end.

Definition get (pomPath cacheKey : string) (forceRefresh : bool)
  : Op Data (option Data) :=
  if forceRefresh then ret None
  else
    let key := generateCacheKey pomPath cacheKey in
    let* memCached := memoryGet key in
    match fresh pomPath memCached with
    | Some hit => ret (Some (data hit))
    | None =>
        let wsKey := getWorkspaceStateKey pomPath cacheKey in
        let* wsCached := workspaceStateGet wsKey in
        match fresh pomPath wsCached with
        | Some hit => memorySet key hit >> ret (Some (data hit))
        | None =>
            let* fileCached := getFromFileCache pomPath cacheKey in
            match fresh pomPath fileCached with
            | Some hit => memorySet key hit >> ret (Some (data hit))
            | None => ret None
            end
        end
    end.

Definition set (pomPath cacheKey : string) (d : Data) : Op Data unit :=
  let key := generateCacheKey pomPath cacheKey in
  tryCatch
    (let* pomStat := stat pomPath in
     let cacheData := mkCacheData d (now w) pomStat CACHE_VERSION in
     memorySet key cacheData >>
     let dataSize := estimateDataSize d in
     if (dataSize <? SMALL_DATA_THRESHOLD)%Z then
       workspaceStateUpdate (getWorkspaceStateKey pomPath cacheKey) cacheData
     else
       setToFileCache pomPath cacheKey cacheData)
    (fun error => consoleError (CacheWriteFailed cacheKey error)).

(** *** invalidate, clearAll and getStats (lines 235-290 and 534-556) *)

(** Whether [fs.delete(storageUri/fileName)] rejects although the file
    exists. *)
Variable deleteRejects : string -> bool.

Definition memoryDelete (key : string) : Op Data unit :=
  fun h => (Normal tt,
            mkHost (delete key (memoryCache h)) (workspaceState h)
                   (storageDirectory h) (consoleErrors h)).

Definition memoryClear : Op Data unit :=
  fun h => (Normal tt,
            mkHost ∅ (workspaceState h) (storageDirectory h) (consoleErrors h)).

(** [workspaceState.update(key, undefined)] *)
Definition workspaceStateRemove (key : string) : Op Data unit :=
  if updateRejects w key then throw "UpdateRejected"
  else fun h =>
    (Normal tt,
     mkHost (memoryCache h) (delete key (workspaceState h))
            (storageDirectory h) (consoleErrors h)).

(** [workspaceState.keys()]. The order of the keys is the one in which the
    finite map enumerates them. *)
Definition workspaceStateKeys : Op Data (list string) :=
  fun h => (Normal (elements (dom (workspaceState h))), h).

(** The file names of [fs.readDirectory(storageUri)], which rejects when
    the directory does not exist. *)
Definition readDirectory : Op Data (list string) :=
  fun h =>
    match storageDirectory h with
    | Some files => (Normal (elements (dom files)), h)
    | None => (Throw "FileNotFound", h)
    end.

(** [fs.delete(storageUri/fileName)] *)
Definition deleteFile (fileName : string) : Op Data unit :=
  fun h =>
    match storageDirectory h with
    | Some files =>
        match files !! fileName with
        | Some _ =>
            if deleteRejects fileName then (Throw "DeleteRejected", h)
            else (Normal tt,
                  mkHost (memoryCache h) (workspaceState h)
                         (Some (delete fileName files)) (consoleErrors h))
        | None => (Throw "FileNotFound", h)
        end
    | None => (Throw "FileNotFound", h)
    end.

Definition deleteFileCache (pomPath cacheKey : string) : Op Data unit :=
  if negb (storageUri w) then ret tt
  else
    tryCatch (deleteFile (getCacheFilePath pomPath cacheKey))
             (fun _ => ret tt).

(** [for (const x of items) { await body(x) }] *)
Fixpoint forEach {A : Type} (body : A -> Op Data unit) (items : list A)
  : Op Data unit :=
  match items with
  | [] => ret tt
  | x :: rest => body x >> forEach body rest
  end.

Definition invalidatedKeys : list string :=
  ["dependencyTree"; "resolvedDependencies"; "effectivePom"].

Definition invalidate (pomPath : string) : Op Data unit :=
  forEach
    (fun cacheKey =>
       memoryDelete (generateCacheKey pomPath cacheKey) >>
       workspaceStateRemove (getWorkspaceStateKey pomPath cacheKey) >>
       deleteFileCache pomPath cacheKey)
    invalidatedKeys.

Definition clearAll : Op Data unit :=
  memoryClear >>
  let* keys := workspaceStateKeys in
  forEach
    (fun key =>
       if startsWith key "maven-cache-" then workspaceStateRemove key
       else ret tt)
    keys >>
  if storageUri w then
    tryCatch
      (let* files := readDirectory in
       forEach
         (fun fileName =>
            if startsWith fileName "cache-" then deleteFile fileName
            else ret tt)
         files)
      (fun _ => ret tt)
  else ret tt.

(** [interface CacheStats] *)
Record CacheStats : Type := mkCacheStats {
  memoryCount : nat;
  workspaceStateCount : nat;
  fileCount : nat
}.

Definition getStats : Op Data CacheStats :=
  fun h =>
    let memoryCount := size (memoryCache h) in
    let keys := elements (dom (workspaceState h)) in
    let workspaceStateCount :=
      List.length (List.filter (fun k => startsWith k "maven-cache-") keys) in
    let '(counted, h') :=
      (if storageUri w then
         tryCatch
           (let* files := readDirectory in
            ret (List.length
                   (List.filter (fun name => startsWith name "cache-") files)))
           (fun _ => ret 0%nat)
       else ret 0%nat) h in
    match counted with
    | Normal fileCount =>
        (Normal (mkCacheStats memoryCount workspaceStateCount fileCount), h')
    | Throw e => (Throw e, h')
    end.

End Operations.

(** *** The two instances (lines 136-140, line 10 and line 2382) *)

(** The extension constructs two managers on the same extension context:
    [activate] constructs the one that serves the commands and the save
    listener, the editor provider constructs the one that its handlers
    use. The constructor gives each a memory cache of its own; the
    workspace state, the storage directory and the console are those of
    the context. *)
Record Managers (Data : Type) : Type := mkManagers {
  commandMemory : gmap string (CacheData Data);
  providerMemory : gmap string (CacheData Data);
  contextState : gmap string (CacheData Data);
  contextDirectory : option (gmap string (CacheData Data));
  contextConsole : list ErrorLine
}.
Global Arguments mkManagers {Data} _ _ _ _ _.
Global Arguments commandMemory {Data} _.
Global Arguments providerMemory {Data} _.
Global Arguments contextState {Data} _.
Global Arguments contextDirectory {Data} _.
Global Arguments contextConsole {Data} _.

(** A method called on the manager of [activate]. *)
Definition onCommandManager {Data A} (method : Op Data A)
    (m : Managers Data) : completion A * Managers Data :=
  let '(completed, h) :=
    method (mkHost (commandMemory m) (contextState m) (contextDirectory m)
                   (contextConsole m)) in
  (completed,
   mkManagers (memoryCache h) (providerMemory m) (workspaceState h)
              (storageDirectory h) (consoleErrors h)).

(** A method called on the manager of the editor provider. *)
Definition onProviderManager {Data A} (method : Op Data A)
    (m : Managers Data) : completion A * Managers Data :=
  let '(completed, h) :=
    method (mkHost (providerMemory m) (contextState m) (contextDirectory m)
                   (contextConsole m)) in
  (completed,
   mkManagers (commandMemory m) (memoryCache h) (workspaceState h)
              (storageDirectory h) (consoleErrors h)).

End CacheManager.

(** ** The editor provider (module pomEditorProvider, lines 2371-2785) *)

Module PomEditorProvider.
Import Js.

(** [text.replace(/c/g, replacement)] for a pattern of one character and a
    replacement without a dollar sign. *)
Fixpoint replaceAll (pattern : ascii) (replacement : string) (text : string)
  : string :=
  match text with
  | EmptyString => EmptyString
  | String c rest =>
      if Ascii.eqb c pattern
      then replacement +:+ replaceAll pattern replacement rest
      else String c (replaceAll pattern replacement rest)
  end.

Definition escapeHtml (text : string) : string :=
  replaceAll "'" "&#039;"
    (replaceAll "034" "&quot;"
       (replaceAll ">" "&gt;"
          (replaceAll "<" "&lt;"
             (replaceAll "&" "&amp;" text)))).

(** *** executeWithProgress and its helpers (lines 2636-2766) *)

Import CacheManager.

(** The messages that the provider posts to the webview. The field named
    by [getResultKey] holds the payload of a result. *)
Inductive Message (Data : Type) : Type :=
| LoadingMessage (type : string) (loading : bool)
| ResultMessage (type resultKey : string) (payload : Data)
                (loading fromCache : bool)
| ErrorMessage (type error : string) (loading : bool)
| ProgressMessage (type : string) (step : Z) (message : string)
                  (progress : Z).
Global Arguments LoadingMessage {Data} type loading.
Global Arguments ResultMessage {Data} type resultKey payload loading fromCache.
Global Arguments ErrorMessage {Data} type error loading.
Global Arguments ProgressMessage {Data} type step message progress.

(** What a run of the handler leaves: the messages posted, the errors that
    the handler itself wrote to the error console, each with the kind it
    was after, and the state of the cache. *)
Record Run (Data : Type) : Type := mkRun {
  posted : list (Message Data);
  logged : list (string * string);
  cache : Host Data
}.
Global Arguments mkRun {Data} posted logged cache.
Global Arguments posted {Data} _.
Global Arguments logged {Data} _.
Global Arguments cache {Data} _.

Definition getMessageType (cacheKey : string) : string :=
  if String.eqb cacheKey "effectivePom" then "effectivePom"
  else if String.eqb cacheKey "dependencyTree" then "dependencyTree"
  else if String.eqb cacheKey "resolvedDependencies"
       then "resolvedDependencies"
  else cacheKey.

Definition getResultKey (cacheKey : string) : string :=
  if String.eqb cacheKey "effectivePom" then "content"
  else if String.eqb cacheKey "dependencyTree" ||
          String.eqb cacheKey "resolvedDependencies" then "data"
  else "data".

Definition showLoadingState {Data} (cacheKey : string) (loading : bool)
  : Message Data :=
  LoadingMessage (getMessageType cacheKey +:+ "Loading") loading.

Definition showCachedResult {Data} (cacheKey : string) (data : Data)
  : Message Data :=
  ResultMessage (getMessageType cacheKey +:+ "Result") (getResultKey cacheKey)
                data false true.

Definition showError {Data} (cacheKey error : string) : Message Data :=
  ErrorMessage (getMessageType cacheKey +:+ "Error") error false.

Section Handler.
Context {Data : Type}.
Variable jsonLength : Data -> option Z.
Variable md5 : string -> string.

(** Whether a payload is truthy in the sense of JavaScript. *)
Variable truthy : Data -> bool.

(** The text of line 2676 for a kind, whose code units are above 255. *)
Variable failureText : string -> string.

(** What [executor(pomPath)] does: the messages it posts and the result it
    settles to; a rejection carries the [message] of its error. *)
Variable executor : string -> list (Message Data) * completion Data.

(** The [try] block behind the loading message: the messages posted, how
    the block completes, and the state of the cache. A miss of the cache is
    [null], which is not truthy. *)
Definition attempt (wGet wSet : World) (pomPath cacheKey : string)
    (forceRefresh : bool) (h : Host Data)
  : list (Message Data) * completion unit * Host Data :=
  match get md5 wGet pomPath cacheKey forceRefresh h with
  | (Throw error, h1) => ([], Throw error, h1)
  | (Normal cachedData, h1) =>
      let fetched :=
        let '(progress, settled) := executor pomPath in
        match settled with
        | Throw error => (progress, Throw error, h1)
        | Normal result =>
            match set jsonLength md5 wSet pomPath cacheKey result h1 with
            | (Throw error, h2) => (progress, Throw error, h2)
            | (Normal _, h2) =>
                (progress ++
                   [ResultMessage (getMessageType cacheKey +:+ "Result")
                      (getResultKey cacheKey) result false false],
                 Normal tt, h2)
            end
        end in
      match cachedData with
      | Some d =>
          if truthy d then ([showCachedResult cacheKey d], Normal tt, h1)
          else fetched
      | None => fetched
      end
  end.

Definition executeWithProgress (wGet wSet : World)
    (pomPath cacheKey : string) (forceRefresh : bool) (h : Host Data)
  : Run Data :=
  let loading := showLoadingState cacheKey true in
  match attempt wGet wSet pomPath cacheKey forceRefresh h with
  | (sent, Normal _, h') => mkRun (loading :: sent) [] h'
  | (sent, Throw error, h') =>
      mkRun (loading :: sent ++
               [showError cacheKey
                  (if isEmpty error then failureText cacheKey else error)])
            [(cacheKey, error)] h'
  end.

End Handler.

End PomEditorProvider.

(** ** The script of the webview (main.js, lines 1700-1718 and 1926-1980) *)

Module Webview.
Import Js MavenUtils.

(** The tree that the script receives: the forest of the parser with every
    reference replaced by the object it names, so that [node.children] is
    the list of subtrees, which is always present. *)

Definition getNodeId (node : DependencyNode.t) : string :=
  DependencyNode.groupId node +:+ ":" +:+ DependencyNode.artifactId node +:+
  ":" +:+ DependencyNode.version node.

(** A [for ... of] loop whose body may [return true]: the loop ends with
    the first item for which it does. *)
Fixpoint firstFound {A S : Type} (body : A -> S -> bool * S)
    (items : list A) (st : S) : bool * S :=
  match items with
  | [] => (false, st)
  | item :: rest =>
      let '(found, st') := body item st in
      if found then (true, st') else firstFound body rest st'
  end.

(** The body of the loop of [childrenContainArtifact] for one child; the
    call on [child.children] starts with the guard of the callee. *)
Fixpoint childContainsArtifact (artifactId : string) (child : Tree) : bool :=
  match child with
  | TreeNode node children =>
      String.eqb (DependencyNode.artifactId node) artifactId ||
      (if isEmpty artifactId then false
       else existsb (childContainsArtifact artifactId) children)
  end.

Definition childrenContainArtifact (children : list Tree)
    (artifactId : string) : bool :=
  if isEmpty artifactId then false
  else existsb (childContainsArtifact artifactId) children.

(** The body of the loop of [findMatchingTreeNodes] for one node;
    [results] is the array that all calls push to. *)
Fixpoint findInNode (artifactId : string) (node : Tree)
    (results : list string) : list string :=
  match node with
  | TreeNode n children =>
      let results :=
        if String.eqb (DependencyNode.artifactId n) artifactId
        then results ++ [getNodeId n] else results in
      fold_left (fun results child => findInNode artifactId child results)
                children results
  end.

Definition findMatchingTreeNodes (nodes : list Tree) (artifactId : string)
    (results : list string) : list string :=
  fold_left (fun results node => findInNode artifactId node results)
            nodes results.

(** The body of the loop of [expandPathToNode] for one node; the state is
    the set [expandedNodes] of the script. *)
Fixpoint expandInNode (targetArtifactId : string) (maxDepth : Z)
    (node : Tree) (pathNodeIds : list string) (expandedNodes : gset string)
  : bool * gset string :=
  match node with
  | TreeNode n children =>
      let nodeId := getNodeId n in
      let currentPath := pathNodeIds ++ [nodeId] in
      if String.eqb (DependencyNode.artifactId n) targetArtifactId then
        (true, expandedNodes ∪ list_to_set pathNodeIds)
      else if (0 <? List.length children)%nat then
        let '(found, expandedNodes') :=
          if (maxDepth <=? Z.of_nat (List.length currentPath))%Z
          then (false, expandedNodes)
          else
            firstFound
              (fun child =>
                 expandInNode targetArtifactId maxDepth child currentPath)
              children expandedNodes in
        if found then (true, expandedNodes' ∪ {[nodeId]})
        else (false, expandedNodes')
      else (false, expandedNodes)
  end.

Definition expandPathToNode (nodes : list Tree) (targetArtifactId : string)
    (pathNodeIds : list string) (maxDepth : Z) (expandedNodes : gset string)
  : bool * gset string :=
  if (maxDepth <=? Z.of_nat (List.length pathNodeIds))%Z
  then (false, expandedNodes)
  else
    firstFound
      (fun node => expandInNode targetArtifactId maxDepth node pathNodeIds)
      nodes expandedNodes.

End Webview.

(** * Vocabulary of the properties *)

(** ** For the parsers *)

Module ParserSpec.
Import Js MavenUtils.

(** *** The coordinate decoder *)

Definition optionTrimmed (field : option string) : bool :=
  match field with
  | Some s => isTrimmed s
  | None => true
  end.

Definition fieldsTrimmed (d : ResolvedDependency.t) : bool :=
  isTrimmed (ResolvedDependency.groupId d) &&
  isTrimmed (ResolvedDependency.artifactId d) &&
  isTrimmed (ResolvedDependency.type d) &&
  isTrimmed (ResolvedDependency.version d) &&
  optionTrimmed (ResolvedDependency.scope d) &&
  optionTrimmed (ResolvedDependency.classifier d).

(** A tree node with the given coordinates, no children yet. *)
Definition nodeOf (reason : option string) (d : ResolvedDependency.t)
  : DependencyNode.t :=
  DependencyNode.mk
    (ResolvedDependency.groupId d) (ResolvedDependency.artifactId d)
    (ResolvedDependency.type d) (ResolvedDependency.version d)
    (ResolvedDependency.scope d) (ResolvedDependency.classifier d)
    [] reason.

(** The coordinate decoder run on [clean], its result turned into a tree
    node that carries [reason]. *)
Definition decodeNode (reason : option string) (clean : string)
  : completion (option DependencyNode.t) :=
  match parseResolvedDependencyNode clean with
  | Normal decoded => Normal (option_map (nodeOf reason) decoded)
  | Throw e => Throw e
  end.

(** The content once the parenthesis step has run. *)
Definition unwrapped (content : string) : string :=
  match matchWrapped content with
  | Some inner => inner
  | None => content
  end.

(** *** The list parser *)

Definition coordinatePair (d : ResolvedDependency.t) : string * string :=
  (ResolvedDependency.groupId d, ResolvedDependency.artifactId d).

(** What a line contributes before the duplicate check. *)
Definition candidate (line : string) : option ResolvedDependency.t :=
  match decodeListLine line with
  | Normal decoded => decoded
  | Throw _ => None
  end.

(** The records decoded from the lines of the text, in the order of the
    lines. *)
Definition candidates (listText : string) : list ResolvedDependency.t :=
  omap candidate (split "010" listText).

Definition colonFree (s : string) : bool :=
  forallChars (fun c => negb (Ascii.eqb c ":")) s.

(** The set of seen keys is the set of the keys of the kept records, and
    no key is kept twice. *)
Definition consistent (st : ListState) : Prop :=
  NoDup (dependencyKey <$> dependencies st) /\
  forall key, key ∈ seenDependencies st <->
              key ∈ (dependencyKey <$> dependencies st).

(** *** The omission suffixes *)









(** *** The indentation *)

(** The number of leading characters that are spaces or tree-drawing
    glyphs. *)
Fixpoint leadingTreeChars (line : string) : nat :=
  match line with
  | EmptyString => 0
  | String c rest => if isTreeChar c then S (leadingTreeChars rest) else 0
  end.

(** The number of spaces among them. *)
Fixpoint leadingSpaces (line : string) : nat :=
  match line with
  | EmptyString => 0
  | String c rest =>
      if Ascii.eqb c " " then S (leadingSpaces rest)
      else if isTreeGlyph c then leadingSpaces rest
      else 0
  end.

Definition lineBreak : string := String "010" EmptyString.

Definition scenarioText : string :=
  "[INFO] com.foo:bar:jar:1.0" +:+ lineBreak +:+
  "[INFO] +- com.foo:baz:jar:2.0".

Definition jarNode (artifactId version : string) (children : list nat)
  : DependencyNode.t :=
  DependencyNode.mk "com.foo" artifactId "jar" version None None children None.



(** *** The decoded coordinates *)

Fixpoint countChar (c : ascii) (s : string) : nat :=
  match s with
  | EmptyString => 0
  | String a s' => (if Ascii.eqb a c then 1 else 0) + countChar c s'
  end.

(** The fields of a record, the optional ones when they are present. *)
Definition fieldsOf (d : ResolvedDependency.t) : list string :=
  [ResolvedDependency.groupId d; ResolvedDependency.artifactId d;
   ResolvedDependency.type d; ResolvedDependency.version d] ++
  option_list (ResolvedDependency.scope d) ++
  option_list (ResolvedDependency.classifier d).

Definition coordinatesOf (node : DependencyNode.t) : ResolvedDependency.t :=
  ResolvedDependency.mk
    (DependencyNode.groupId node) (DependencyNode.artifactId node)
    (DependencyNode.type node) (DependencyNode.version node)
    (DependencyNode.scope node) (DependencyNode.classifier node).

Definition knownReasons : list (option string) :=
  [None; Some "conflict"; Some "duplicate"; Some "cycle"; Some "managed"].

(** *** The forest of the tree parser *)

(** What a line contributes to the tree: its indentation level and its
    node, if the line is decoded. *)
Definition decodedTreeLine (line : string) : option (nat * DependencyNode.t) :=
  match decodeTreeLine line with
  | Normal decoded => decoded
  | Throw _ => None
  end.

(** The decoded lines of the text, in the order of the lines. The node of
    the line at position [a] of this list is the object at address [a]. *)
Definition decodedTreeLines (treeText : string)
  : list (nat * DependencyNode.t) :=
  omap decodedTreeLine (split "010" treeText).

(** The nodes seen so far with their indentation levels, the latest
    first. *)
Definition history (indents : list nat) : list (nat * nat) :=
  reverse (imap (fun a indent => (a, indent)) indents).

(** The latest of the nodes seen so far whose indentation level is
    strictly smaller than [indent]. *)
Definition nearestShallower (indents : list nat) (indent : nat) : option nat :=
  fst <$> List.find (fun x => snd x <? indent)%nat (history indents).

(** The parent of the node at address [a]: the nearest node in front of it
    with a strictly smaller indentation level. *)
Definition parentAt (indents : list nat) (a : nat) : option nat :=
  match indents !! a with
  | Some indent => nearestShallower (take a indents) indent
  | None => None
  end.

Definition childrenAt (indents : list nat) (p : nat) : list nat :=
  filter (fun c => parentAt indents c = Some p) (seq 0 (List.length indents)).

Definition rootsOf (indents : list nat) : list nat :=
  filter (fun a => indents !! a = Some 0%nat) (seq 0 (List.length indents)).

Definition withChildren (node : DependencyNode.t) (children : list nat)
  : DependencyNode.t :=
  DependencyNode.mk
    (DependencyNode.groupId node) (DependencyNode.artifactId node)
    (DependencyNode.type node) (DependencyNode.version node)
    (DependencyNode.scope node) (DependencyNode.classifier node)
    children (DependencyNode.omittedReason node).

(** The state of the tree parser agrees with the decoded lines read so
    far. *)
Definition describes (decoded : list (nat * DependencyNode.t))
    (st : TreeState) : Prop :=
  List.length (heap st) = List.length decoded /\
  (forall indent,
     List.find (fun x => snd x <? indent)%nat (stack st) =
     List.find (fun x => snd x <? indent)%nat (history (decoded.*1))) /\
  rootNodes st = rootsOf (decoded.*1) /\
  (forall a indent node,
     decoded !! a = Some (indent, node) ->
     heap st !! a = Some (withChildren node (childrenAt (decoded.*1) a))).

(** *** Maven's drawing of the tree *)

(** The drawing in front of a dependency at depth [groups + 1] none of
    whose ancestors below the root is the last child of its parent: a bar
    and two spaces for each of them. *)
Fixpoint bars (groups : nat) : string :=
  match groups with
  | O => EmptyString
  | S groups' => "|  " +:+ bars groups'
  end.

(** The two connectors that end the drawing of a line. *)
Definition connectors : list string := ["+- "; String "092" "- "].

Definition drawnLine (groups : nat) (connector coordinates : string)
  : string :=
  "[INFO] " +:+ bars groups +:+ connector +:+ coordinates.

End ParserSpec.

(** ** For the cache manager *)

Module CacheSpec.
Import Js CacheManager.

Section WithPayload.
Context {Data : Type}.
Variable jsonLength : Data -> option Z.
Variable md5 : string -> string.

(** The entry that [set] builds. *)
Definition entryOf (w : World) (d : Data) (pomStat : Z) : CacheData Data :=
  mkCacheData d (now w) pomStat CACHE_VERSION.

(** What the three tiers hold for a key, the fastest tier first. *)
Definition tierEntries (w : World) (h : Host Data) (pomPath cacheKey : string)
  : list (option (CacheData Data)) :=
  [ memoryCache h !! generateCacheKey pomPath cacheKey;
    workspaceState h !! getWorkspaceStateKey md5 pomPath cacheKey;
    if storageUri w then
      match storageDirectory h with
      | Some files => files !! getCacheFilePath md5 pomPath cacheKey
      | None => None
      end
    else None ].

(** The first entry of the list that passes [isCacheValid], with the number
    of the tier that holds it, counted from [tier]. *)
Fixpoint firstFresh (w : World) (pomPath : string) (tier : nat)
    (entries : list (option (CacheData Data))) : option (nat * CacheData Data) :=
  match entries with
  | [] => None
  | Some entry :: slower =>
      if isCacheValid w entry pomPath then Some (tier, entry)
      else firstFresh w pomPath (S tier) slower
  | None :: slower => firstFresh w pomPath (S tier) slower
  end.

(** The host once [set] has run. *)
Definition afterSet (w : World) (h : Host Data) (pomPath cacheKey : string)
    (d : Data) : Host Data :=
  snd (set jsonLength md5 w pomPath cacheKey d h).

(** The files of the storage directory; none while it does not exist. *)
Definition filesOf (h : Host Data) : gmap string (CacheData Data) :=
  default ∅ (storageDirectory h).

(** Every key of [after] has the entry that it has in [before], unless it
    is one of the [touched] keys and has no entry any more. *)
Definition onlyRemoves (touched : string -> Prop)
    (before after : gmap string (CacheData Data)) : Prop :=
  forall key,
    after !! key = before !! key \/ (touched key /\ after !! key = None).

(** The host [h'] differs from [h] at most in that entries of the source
    path under the invalidated kinds are gone. *)
Definition forgets (pomPath : string) (h h' : Host Data) : Prop :=
  onlyRemoves
    (fun key => exists k, k ∈ invalidatedKeys /\
                          key = generateCacheKey pomPath k)
    (memoryCache h) (memoryCache h') /\
  onlyRemoves
    (fun key => exists k, k ∈ invalidatedKeys /\
                          key = getWorkspaceStateKey md5 pomPath k)
    (workspaceState h) (workspaceState h') /\
  onlyRemoves
    (fun name => exists k, k ∈ invalidatedKeys /\
                           name = getCacheFilePath md5 pomPath k)
    (filesOf h) (filesOf h') /\
  consoleErrors h' = consoleErrors h.

(** The host once [invalidate] has run. *)
Definition afterInvalidate (w : World) (deleteRejects : string -> bool)
    (h : Host Data) (pomPath : string) : Host Data :=
  snd (invalidate md5 w deleteRejects pomPath h).

(** The host once [clearAll] has run. *)
Definition afterClearAll (w : World) (deleteRejects : string -> bool)
    (h : Host Data) : Host Data :=
  snd (clearAll w deleteRejects h).

(** Every entry that a tier of the host holds for the key was cached while
    the source file had a modification time below [bound]. *)
Definition cachedBefore (w : World) (bound : Z) (h : Host Data)
    (pomPath cacheKey : string) : Prop :=
  Forall (fun tier =>
            match tier with
            | Some entry => (pomMtime entry < bound)%Z
            | None => True
            end)
         (tierEntries w h pomPath cacheKey).

(** Every key of [after] has the entry that it has in [before], unless it
    is the [target] key and holds an entry that satisfies [stored]. *)
Definition onlyStores (target : string) (stored : CacheData Data -> Prop)
    (before after : gmap string (CacheData Data)) : Prop :=
  forall key,
    after !! key = before !! key \/
    (key = target /\ exists entry, stored entry /\ after !! key = Some entry).

(** The entry is the one that [set] builds for the payload when it can
    probe the source file. *)
Definition builtBy (w : World) (pomPath : string) (d : Data)
    (entry : CacheData Data) : Prop :=
  exists pomStat, mtime w pomPath = Some pomStat /\ entry = entryOf w d pomStat.

(** The host once [get] has run without a forced refresh. *)
Definition afterGet (w : World) (h : Host Data) (pomPath cacheKey : string)
  : Host Data :=
  snd (get md5 w pomPath cacheKey false h).

End WithPayload.

(** *** Concrete runs *)

(** In the runs below a payload is an integer that is its own serialized
    length, and the digest of a path is the path. *)
Definition sizeOf (d : Z) : option Z := Some d.
Definition pathDigest (path : string) : string := path.

Definition emptyHost : Host Z := mkHost ∅ ∅ None [].

(** The source file exists, was last modified at time 500, and every tier
    accepts every write. *)
Definition quietWorld : World :=
  mkWorld 1000 (fun _ => Some 500%Z) true (fun _ => false) false
          (fun _ => false).

(** The same, but no storage directory is available to the extension. *)
Definition noStorage : World :=
  mkWorld 1000 (fun _ => Some 500%Z) false (fun _ => false) false
          (fun _ => false).

(** The source file is missing. *)
Definition missingSource : World :=
  mkWorld 1000 (fun _ => None) true (fun _ => false) false (fun _ => false).

Definition blobEntry : CacheData Z := mkCacheData 7%Z 900 500 CACHE_VERSION.

(** Only the blob tier holds an entry for the key. *)
Definition blobOnly : Host Z :=
  mkHost ∅ ∅
    (Some {[ getCacheFilePath pathDigest "/p/pom.xml" "dependencyTree"
             := blobEntry ]})
    [].

Definition neverRejects (fileName : string) : bool := false.

Definition smallEntry : CacheData Z := mkCacheData 7%Z 900 500 CACHE_VERSION.

(** All three tiers hold an entry for the dependency tree of the path. *)
Definition fullHost : Host Z :=
  mkHost
    {[ generateCacheKey "/p/pom.xml" "dependencyTree" := smallEntry ]}
    {[ getWorkspaceStateKey pathDigest "/p/pom.xml" "dependencyTree"
       := smallEntry ]}
    (Some {[ getCacheFilePath pathDigest "/p/pom.xml" "dependencyTree"
             := blobEntry ]})
    [].

(** The source file was touched at time 600. *)
Definition touchedWorld : World :=
  mkWorld 1000 (fun _ => Some 600%Z) true (fun _ => false) false
          (fun _ => false).

(** Both managers start with an empty memory cache on an empty context. *)
Definition freshManagers : Managers Z := mkManagers ∅ ∅ ∅ None [].

(** A digest of fixed length that does not tell paths apart. *)
Definition constantDigest (path : string) : string :=
  "d41d8cd98f00b204e9800998ecf8427e".

(** The workspace state rejects every update. *)
Definition rejectingWorld : World :=
  mkWorld 1000 (fun _ => Some 500%Z) true (fun _ => true) false
          (fun _ => false).

End CacheSpec.

(** ** For the escaping of markup *)

Module HtmlSpec.
Import Js.

(** The characters that have a meaning in markup. *)
Definition isMarkup (c : ascii) : bool :=
  Ascii.eqb c "&" || Ascii.eqb c "<" || Ascii.eqb c ">" ||
  Ascii.eqb c "034" || Ascii.eqb c "'".

(** The entity that stands for a character of markup; every other
    character stands for itself. *)
Definition entity (c : ascii) : string :=
  if Ascii.eqb c "&" then "&amp;"
  else if Ascii.eqb c "<" then "&lt;"
  else if Ascii.eqb c ">" then "&gt;"
  else if Ascii.eqb c "034" then "&quot;"
  else if Ascii.eqb c "'" then "&#039;"
  else String c EmptyString.

(** The text with every character replaced by its entity, in one pass. *)
Fixpoint escaped (text : string) : string :=
  match text with
  | EmptyString => EmptyString
  | String c rest => entity c +:+ escaped rest
  end.

(** The ampersands of the text that do not begin an entity. *)
Fixpoint bareAmpersands (text : string) : nat :=
  match text with
  | EmptyString => 0
  | String c rest =>
      (if Ascii.eqb c "&" &&
          negb (String.prefix "amp;" rest || String.prefix "lt;" rest ||
                String.prefix "gt;" rest || String.prefix "quot;" rest ||
                String.prefix "#039;" rest)
       then 1 else 0) + bareAmpersands rest
  end.

End HtmlSpec.

(** ** For the trees of the webview *)

Module TreeSpec.
Import Js MavenUtils Webview.

(** The nodes of a tree, a parent in front of its children and the
    children in their order. *)
Fixpoint preorder (t : Tree) : list DependencyNode.t :=
  match t with
  | TreeNode node children => node :: flat_map preorder children
  end.

Definition hasArtifact (artifactId : string) (node : DependencyNode.t)
  : bool :=
  String.eqb (DependencyNode.artifactId node) artifactId.

(** [reaches forest path node]: the forest has the node at the end of a
    chain of children that starts at a root; [path] lists the ids of the
    nodes of the chain in front of it. *)
Inductive reaches : list Tree -> list string -> DependencyNode.t -> Prop :=
| reaches_root forest node children :
    TreeNode node children ∈ forest -> reaches forest [] node
| reaches_child forest parent children path node :
    TreeNode parent children ∈ forest ->
    reaches children path node ->
    reaches forest (getNodeId parent :: path) node.

(** What a search that starts below the nodes of [pre] gives: the ids of
    one chain that leads to a node with the artifact id, or nothing when no
    such node is near enough. *)
Definition searched (targetArtifactId : string) (maxDepth : Z)
    (forest : list Tree) (pre : list string)
    (expandedNodes : gset string) (run : bool * gset string) : Prop :=
  (exists path node,
     run = (true, expandedNodes ∪ list_to_set (pre ++ path)) /\
     reaches forest path node /\
     hasArtifact targetArtifactId node = true /\
     (Z.of_nat (List.length pre + List.length path) < maxDepth)%Z) \/
  (run = (false, expandedNodes) /\
   forall path node,
     reaches forest path node ->
     hasArtifact targetArtifactId node = true ->
     (maxDepth <= Z.of_nat (List.length pre + List.length path))%Z).

(** *** Concrete trees *)

Definition leaf (artifactId : string) : Tree :=
  TreeNode (DependencyNode.mk "com.foo" artifactId "jar" "1.0" None None []
                              None) [].

Definition twig (artifactId : string) (children : list Tree) : Tree :=
  TreeNode (DependencyNode.mk "com.foo" artifactId "jar" "1.0" None None []
                              None) children.

(** The artifact baz occurs below bar and below qux. *)
Definition twoMatches : list Tree :=
  [twig "bar" [leaf "baz"]; twig "qux" [leaf "baz"]].

End TreeSpec.

(** ** For the handler of the provider *)

Module ProviderSpec.
Import Js CacheManager PomEditorProvider.

(** The lookup gave a payload that the handler accepts. *)
Definition usable {Data} (truthy : Data -> bool)
    (looked : completion (option Data) * Host Data) : bool :=
  match fst looked with
  | Normal (Some d) => truthy d
  | _ => false
  end.

(** The result message of a run that has fetched the payload. *)
Definition fetchedResult {Data} (cacheKey : string) (result : Data)
  : Message Data :=
  ResultMessage (getMessageType cacheKey +:+ "Result") (getResultKey cacheKey)
                result false false.

(** *** Concrete runs *)

(** The truthiness of a number. *)
Definition nonZero (d : Z) : bool := negb (d =? 0)%Z.

Definition plainFailure (cacheKey : string) : string := "failed".

Definition fetchNine (pomPath : string)
  : list (Message Z) * completion Z :=
  ([ProgressMessage "dependencyTreeProgress" 1 "checking" 25], Normal 9%Z).

Definition fetchZero (pomPath : string)
  : list (Message Z) * completion Z :=
  ([], Normal 0%Z).

End ProviderSpec.

(** ** For the retry loop *)

Module RetrySpec.
Import Js MavenUtils.

(** The attempt failed in a way that the loop answers with another
    attempt, as long as attempts are left. *)
Definition retryable (networkConnection : string)
    (settled : ExecResult + ExecError) : bool :=
  match settled with
  | inl _ => false
  | inr error => isNetworkError networkConnection (errorMessage error)
  end.

(** How a run ends whose last attempt settled like this. *)
Definition outcomeOf (settled : ExecResult + ExecError) : Outcome :=
  match settled with
  | inl result => Returned result
  | inr error => Thrown (Some error)
  end.

(** The wait after a failed attempt: one, two and four seconds after the
    first three attempts, five seconds after every later one. *)
Definition waitAfter (attempt : Z) : Z :=
  if (attempt =? 1)%Z then 1000
  else if (attempt =? 2)%Z then 2000
  else if (attempt =? 3)%Z then 4000
  else 5000.

(** The events of a run that starts with [attempt] and makes [retries]
    further attempts. *)
Fixpoint schedule (attempt : Z) (retries : nat) : list Event :=
  match retries with
  | O => [Exec attempt]
  | S retries' =>
      Exec attempt :: Sleep (waitAfter attempt) ::
      schedule (attempt + 1) retries'
  end.

Definition isExec (event : Event) : bool :=
  match event with Exec _ => true | Sleep _ => false end.

(** The number of invocations of [execAsync]. *)
Definition executions (events : list Event) : nat :=
  List.length (List.filter isExec events).

(** The waits of a run, in order. *)
Definition waits (events : list Event) : list Z :=
  omap (fun event => match event with
                     | Sleep delay => Some delay
                     | Exec _ => None
                     end) events.

(** The time that a run spends waiting. *)
Definition waited (events : list Event) : Z :=
  foldr Z.add 0%Z (waits events).

(** *** Concrete runs *)

Definition networkWord : string := "network unreachable".

Definition listing : ExecResult := mkExecResult "[INFO] BUILD SUCCESS" EmptyString.

Definition refused : ExecError :=
  mkExecError "connect: Connection refused" "Error".

(** The first two attempts are refused, the third succeeds. *)
Definition thirdTime (attempt : Z) : ExecResult + ExecError :=
  if (attempt <? 3)%Z then inr refused else inl listing.

End RetrySpec.

(** * Properties *)

(** ** Facts about the string primitives *)

Module JsFacts.
Import Js.

Lemma forallChars_dropWhile p q s :
  forallChars p s = true -> forallChars p (dropWhile q s) = true.
Proof.
  induction s as [|c s IH]; simpl; [done|].
  intros [Hc Hs]%andb_prop. destruct (q c); simpl; [auto|].
  by rewrite Hc, Hs.
Qed.

Lemma forallChars_trimEnd p s :
  forallChars p s = true -> forallChars p (trimEnd s) = true.
Proof.
  induction s as [|c s IH]; simpl; [done|].
  intros [Hc Hs]%andb_prop.
  destruct (isWhiteSpace c && isEmpty (trimEnd s)); simpl; [done|].
  by rewrite Hc, IH.
Qed.

Lemma forallChars_trim p s :
  forallChars p s = true -> forallChars p (trim s) = true.
Proof. intros H. by apply forallChars_trimEnd, forallChars_dropWhile. Qed.

Lemma dropWhile_firstChar p s c :
  firstChar (dropWhile p s) = Some c -> p c = false.
Proof.
  induction s as [|a s IH]; simpl; [done|].
  destruct (p a) eqn:Ha; [done|]. simpl. by intros [= <-].
Qed.

Lemma trimEnd_firstChar s c :
  firstChar (trimEnd s) = Some c -> firstChar s = Some c.
Proof.
  destruct s as [|a s]; simpl; [done|].
  by destruct (isWhiteSpace a && isEmpty (trimEnd s)).
Qed.

Lemma unsnoc_None s : unsnoc s = None -> s = EmptyString.
Proof.
  destruct s as [|a s]; simpl; [done|].
  by destruct (unsnoc s) as [[??]|].
Qed.

Lemma trimEnd_lastChar s c :
  lastChar (trimEnd s) = Some c -> isWhiteSpace c = false.
Proof.
  unfold lastChar. induction s as [|a s IH]; simpl; [done|].
  destruct (isWhiteSpace a && isEmpty (trimEnd s)) eqn:E; simpl; [done|].
  destruct (unsnoc (trimEnd s)) as [[init last]|] eqn:U; simpl.
  - intros [= <-]. by apply IH.
  - intros [= <-]. apply unsnoc_None in U. rewrite U in E. simpl in E.
    by rewrite andb_true_r in E.
Qed.

(** [trim] leaves no white space at either end. *)
Lemma trim_isTrimmed s : isTrimmed (trim s) = true.
Proof.
  unfold isTrimmed, trim, trimStart. apply andb_true_intro. split.
  - destruct (firstChar (trimEnd (dropWhile isWhiteSpace s))) as [c|] eqn:F;
      [|done].
    apply trimEnd_firstChar, dropWhile_firstChar in F. by rewrite F.
  - destruct (lastChar (trimEnd (dropWhile isWhiteSpace s))) as [c|] eqn:L;
      [|done].
    apply trimEnd_lastChar in L. by rewrite L.
Qed.

(** No part that [split] returns contains the separator. *)
Lemma splitGo_no_separator sep s :
  forallChars (fun c => negb (Ascii.eqb c sep)) (fst (splitGo sep s)) = true /\
  Forall (fun part => forallChars (fun c => negb (Ascii.eqb c sep)) part = true)
         (snd (splitGo sep s)).
Proof.
  induction s as [|c s [IH1 IH2]]; simpl; [by split|].
  destruct (splitGo sep s) as [cur rest]. simpl in *.
  destruct (Ascii.eqb c sep) eqn:E; simpl.
  - split; [done|]. by constructor.
  - rewrite E. simpl. by split.
Qed.

Lemma split_no_separator sep s :
  Forall (fun part => forallChars (fun c => negb (Ascii.eqb c sep)) part = true)
         (split sep s).
Proof.
  unfold split. pose proof (splitGo_no_separator sep s) as [H1 H2].
  destruct (splitGo sep s) as [cur rest]. by constructor.
Qed.

(** Two texts in front of the same separator are equal as soon as neither
    contains the separator. *)
Lemma append_separator_inj sep g1 g2 a1 a2 :
  forallChars (fun c => negb (Ascii.eqb c sep)) g1 = true ->
  forallChars (fun c => negb (Ascii.eqb c sep)) g2 = true ->
  g1 +:+ String sep a1 = g2 +:+ String sep a2 ->
  g1 = g2 /\ a1 = a2.
Proof.
  revert g2. induction g1 as [|c g1 IH]; intros [|d g2]; simpl.
  - intros _ _ [= ->]. done.
  - intros _ [Hd _]%andb_prop [= <- _]. by rewrite Ascii.eqb_refl in Hd.
  - intros [Hc _]%andb_prop _ [= -> _]. by rewrite Ascii.eqb_refl in Hc.
  - intros [_ H1]%andb_prop [_ H2]%andb_prop [= -> Heq].
    destruct (IH _ H1 H2 Heq) as [-> ->]. done.
Qed.

End JsFacts.

(** ** The coordinate decoder and the totality of the parsers *)

Module ParserFacts.
Import Js MavenUtils ParserSpec JsFacts.

Lemma parseDependencyNode_decodes content :
  parseDependencyNode content =
    match matchOmitted omittedPatterns (unwrapped content) with
    | Some (reason, clean) => decodeNode (Some reason) clean
    | None => decodeNode None (unwrapped content)
    end.
Proof.
  unfold parseDependencyNode, unwrapped.
  destruct (matchOmitted omittedPatterns _) as [[reason clean]|];
    unfold decodeNode, parseResolvedDependencyNode;
    match goal with
    | |- context [(List.length ?p <? 4)%nat] =>
        destruct (List.length p <? 4)%nat; [done|];
        destruct (f_groupId (destructure p)); [|done];
        destruct (f_artifactId (destructure p)); [|done];
        destruct (f_type (destructure p)); [|done];
        destruct (f_version (destructure p)); done
    end.
Qed.

Lemma destructure_mandatory parts :
  (4 <= List.length parts)%nat ->
  is_Some (f_groupId (destructure parts)) /\
  is_Some (f_artifactId (destructure parts)) /\
  is_Some (f_type (destructure parts)) /\
  is_Some (f_version (destructure parts)).
Proof.
  destruct parts as [|g [|a [|t [|x [|y [|z more]]]]]]; simpl; try lia;
    intros _; unfold destructure; simpl; eauto 10.
Qed.

Lemma parseResolvedDependencyNode_normal content :
  exists decoded, parseResolvedDependencyNode content = Normal decoded.
Proof.
  unfold parseResolvedDependencyNode.
  destruct (List.length (split ":" content) <? 4)%nat eqn:E; [eauto|].
  apply Nat.ltb_ge in E.
  destruct (destructure_mandatory _ E) as ([g ->] & [a ->] & [t ->] & [v ->]).
  simpl. eauto.
Qed.

Lemma decodeNode_normal reason clean :
  exists decoded, decodeNode reason clean = Normal decoded.
Proof.
  unfold decodeNode.
  destruct (parseResolvedDependencyNode_normal clean) as [d ->]. eauto.
Qed.

Lemma parseDependencyNode_normal content :
  exists decoded, parseDependencyNode content = Normal decoded.
Proof.
  rewrite parseDependencyNode_decodes.
  destruct (matchOmitted _ _) as [[??]|]; apply decodeNode_normal.
Qed.

Lemma decodeTreeLine_normal line :
  exists decoded, decodeTreeLine line = Normal decoded.
Proof.
  unfold decodeTreeLine.
  destruct (_ || _); [eauto|]. destruct (isNoise _); [eauto|].
  destruct (isEmpty _); [eauto|].
  destruct (parseDependencyNode_normal
    (trim (dropWhile isTreeChar
      (trimStart (substring line (indexOf line "[INFO]" + 6))))))
    as [[node|] ->]; simpl; eauto.
Qed.

Lemma decodeListLine_normal line :
  exists decoded, decodeListLine line = Normal decoded.
Proof.
  unfold decodeListLine.
  destruct (negb _); [eauto|]. destruct (isNotDependencyLine _); [eauto|].
  apply parseResolvedDependencyNode_normal.
Qed.

Lemma forOf_normal {S A} (body : S -> A -> completion S) items :
  (forall st x, exists st', body st x = Normal st') ->
  forall st, exists st', forOf body items st = Normal st'.
Proof.
  intros Hbody. induction items as [|x items IH]; intros st; simpl; [eauto|].
  destruct (Hbody st x) as [st1 ->]. simpl. apply IH.
Qed.

Lemma treeLine_normal st line : exists st', treeLine st line = Normal st'.
Proof.
  unfold treeLine. destruct (decodeTreeLine_normal line) as [[[i n]|] ->];
    simpl; eauto.
Qed.

Lemma listLine_normal st line : exists st', listLine st line = Normal st'.
Proof.
  unfold listLine. destruct (decodeListLine_normal line) as [[d|] ->];
    simpl; eauto.
Qed.

(** C4. The coordinate decoder: fewer than four colon-separated fields
    fail; four fields are groupId, artifactId, type, version; five add the
    scope; with six or more only the first six count, in the order
    groupId, artifactId, type, classifier, version, scope; every decoded
    field is trimmed. The tree node parser decodes its cleaned content
    with this same decoder. *)
Theorem coordinate_decoder (content : string) :
  ((List.length (split ":" content) < 4)%nat ->
     parseResolvedDependencyNode content = Normal None) /\
  (forall g a t v,
     split ":" content = [g; a; t; v] ->
     parseResolvedDependencyNode content =
       Normal (Some (ResolvedDependency.mk
         (trim g) (trim a) (trim t) (trim v) None None))) /\
  (forall g a t v s,
     split ":" content = [g; a; t; v; s] ->
     parseResolvedDependencyNode content =
       Normal (Some (ResolvedDependency.mk
         (trim g) (trim a) (trim t) (trim v) (Some (trim s)) None))) /\
  (forall g a t c v s more,
     split ":" content = g :: a :: t :: c :: v :: s :: more ->
     parseResolvedDependencyNode content =
       Normal (Some (ResolvedDependency.mk
         (trim g) (trim a) (trim t) (trim v)
         (Some (trim s)) (Some (trim c))))) /\
  (forall d,
     parseResolvedDependencyNode content = Normal (Some d) ->
     fieldsTrimmed d = true) /\
  parseDependencyNode content =
    match matchOmitted omittedPatterns (unwrapped content) with
    | Some (reason, clean) => decodeNode (Some reason) clean
    | None => decodeNode None (unwrapped content)
    end.
Proof.
  repeat split.
  - intros H%Nat.ltb_lt. unfold parseResolvedDependencyNode. by rewrite H.
  - intros g a t v H. unfold parseResolvedDependencyNode. by rewrite H.
  - intros g a t v s H. unfold parseResolvedDependencyNode. by rewrite H.
  - intros g a t c v s more H. unfold parseResolvedDependencyNode.
    by rewrite H.
  - intros d. unfold parseResolvedDependencyNode.
    destruct (List.length (split ":" content) <? 4)%nat; [done|].
    set (f := destructure (split ":" content)).
    destruct (f_groupId f); [|done]. destruct (f_artifactId f); [|done].
    destruct (f_type f); [|done]. destruct (f_version f); [|done].
    simpl. intros [= <-]. unfold fieldsTrimmed, optionTrimmed. simpl.
    rewrite !trim_isTrimmed.
    destruct (f_scope f), (f_classifier f); simpl;
      by rewrite ?trim_isTrimmed.
  - apply parseDependencyNode_decodes.
Qed.

(** C9. Both parsers return on every input text: no line can make them
    throw. A line that is not recognised or whose coordinates do not
    decode leaves the state of the parse as it was. *)
Theorem parsers_total (text : string) :
  (exists forest, parseDependencyTree text = Normal forest) /\
  (exists deps, parseResolvedDependencies text = Normal deps) /\
  (forall st line,
     decodeTreeLine line = Normal None -> treeLine st line = Normal st) /\
  (forall st line,
     decodeListLine line = Normal None -> listLine st line = Normal st).
Proof.
  repeat split.
  - unfold parseDependencyTree.
    destruct (forOf_normal treeLine (split "010" text) treeLine_normal
                (mkTreeState [] [] [])) as [st ->].
    simpl. eauto.
  - unfold parseResolvedDependencies.
    destruct (forOf_normal listLine (split "010" text) listLine_normal
                (mkListState [] ∅)) as [st ->].
    simpl. eauto.
  - intros st line H. unfold treeLine. by rewrite H.
  - intros st line H. unfold listLine. by rewrite H.
Qed.

End ParserFacts.

(** ** The list parser keeps the first record of every groupId:artifactId *)

Module ListParserFacts.
Import Js MavenUtils ParserSpec JsFacts ParserFacts.

Lemma forOf_listLine lines st :
  forOf listLine lines st = Normal (foldl remember st (omap candidate lines)).
Proof.
  revert st. induction lines as [|line lines IH]; intros st; simpl; [done|].
  unfold listLine at 1, candidate at 1.
  destruct (decodeListLine_normal line) as [[d|] ->]; simpl; apply IH.
Qed.

Lemma parsed_groupId_colonFree content d :
  parseResolvedDependencyNode content = Normal (Some d) ->
  colonFree (ResolvedDependency.groupId d) = true.
Proof.
  unfold parseResolvedDependencyNode.
  destruct (List.length (split ":" content) <? 4)%nat; [done|].
  pose proof (split_no_separator ":" content) as Hparts.
  assert (forall g, f_groupId (destructure (split ":" content)) = Some g ->
                    colonFree g = true) as Hg.
  { intros g. unfold destructure.
    repeat (match goal with |- context [if ?b then _ else _] => destruct b end);
      simpl; intros Hlook;
      apply (proj1 (Forall_lookup _ _) Hparts _ _ Hlook). }
  destruct (f_groupId _) as [g|]; [|done].
  destruct (f_artifactId _); [|done]. destruct (f_type _); [|done].
  destruct (f_version _); [|done]. simpl. intros [= <-]. simpl.
  apply forallChars_trim. by apply Hg.
Qed.

Lemma candidate_colonFree line d :
  candidate line = Some d -> colonFree (ResolvedDependency.groupId d) = true.
Proof.
  unfold candidate, decodeListLine.
  destruct (negb _); [done|]. destruct (isNotDependencyLine _); [done|].
  destruct (parseResolvedDependencyNode _) as [[d'|]|] eqn:E; [|done..].
  intros [= <-]. by eapply parsed_groupId_colonFree.
Qed.

(** On colon-free group ids the string key decides the pair. *)
Lemma dependencyKey_inj d1 d2 :
  colonFree (ResolvedDependency.groupId d1) = true ->
  colonFree (ResolvedDependency.groupId d2) = true ->
  dependencyKey d1 = dependencyKey d2 ->
  coordinatePair d1 = coordinatePair d2.
Proof.
  intros H1 H2 Hkey. unfold coordinatePair.
  destruct (append_separator_inj ":" _ _ _ _ H1 H2 Hkey) as [-> ->]. done.
Qed.

Lemma remember_seen st c :
  dependencyKey c ∈ seenDependencies st -> remember st c = st.
Proof. intros H. unfold remember. by rewrite decide_True. Qed.

Lemma remember_new st c :
  dependencyKey c ∉ seenDependencies st ->
  remember st c = mkListState (dependencies st ++ [c])
                              ({[dependencyKey c]} ∪ seenDependencies st).
Proof. intros H. unfold remember. by rewrite decide_False. Qed.

Lemma remember_fold cs :
  forall st, consistent st ->
    consistent (foldl remember st cs) /\
    (exists extra,
       dependencies (foldl remember st cs) = dependencies st ++ extra /\
       sublist extra cs) /\
    (forall i c, cs !! i = Some c ->
       exists r, r ∈ dependencies (foldl remember st cs) /\
                 dependencyKey r = dependencyKey c /\
                 (r ∈ dependencies st \/
                  exists j, (j <= i)%nat /\ cs !! j = Some r)).
Proof.
  induction cs as [|c cs IH]; intros st Hst; simpl.
  { split; [done|]. split; [|done].
    exists []. split; [by rewrite app_nil_r | constructor]. }
  destruct (decide (dependencyKey c ∈ seenDependencies st)) as [Hseen|Hnew].
  - rewrite (remember_seen st c Hseen).
    destruct (IH st Hst) as (Hc & (extra & Hdeps & Hsub) & Hrep).
    split; [done|]. split.
    + exists extra. split; [done|]. by apply sublist_cons.
    + intros [|i] c' Hi; simpl in Hi.
      * injection Hi as <-.
        apply (proj2 Hst) in Hseen.
        apply list_elem_of_fmap in Hseen as (r & Hkey & Hr).
        exists r. rewrite Hdeps. split; [apply elem_of_app; by left|]. by auto.
      * destruct (Hrep i c' Hi) as (r & Hr & Hkey & [Hold|(j & Hj & Hlook)]).
        -- exists r. by auto.
        -- exists r. split; [done|]. split; [done|]. right.
           exists (S j). split; [lia|done].
  - rewrite (remember_new st c Hnew).
    set (st1 := mkListState (dependencies st ++ [c])
                            ({[dependencyKey c]} ∪ seenDependencies st)).
    assert (consistent st1) as Hst1.
    { destruct Hst as [Hnd Hiff]. split; simpl.
      - rewrite fmap_app. apply NoDup_app. split; [done|]. split.
        + intros k Hk Hin. simpl in Hin.
          apply list_elem_of_singleton in Hin as ->. by apply Hnew, Hiff.
        + simpl. apply NoDup_singleton.
      - intros k. rewrite fmap_app, elem_of_app, elem_of_union,
          elem_of_singleton, Hiff. simpl. rewrite list_elem_of_singleton.
        tauto. }
    destruct (IH st1 Hst1) as (Hc & (extra & Hdeps & Hsub) & Hrep).
    split; [done|]. split.
    + exists (c :: extra). split.
      * rewrite Hdeps. simpl. by rewrite <- app_assoc.
      * by apply sublist_skip.
    + intros [|i] c' Hi; simpl in Hi.
      * injection Hi as <-. exists c. rewrite Hdeps. simpl.
        split; [|split; [done|right]].
        { apply elem_of_app. left. apply elem_of_app. right. by left. }
        exists 0%nat. split; [lia|done].
      * destruct (Hrep i c' Hi) as (r & Hr & Hkey & [Hold|(j & Hj & Hlook)]).
        -- simpl in Hold. apply elem_of_app in Hold as [Hold|Hc'].
           ++ exists r. by auto.
           ++ apply list_elem_of_singleton in Hc' as ->.
              exists c. split; [done|]. split; [done|]. right.
              exists 0%nat. split; [lia|done].
        -- exists r. split; [done|]. split; [done|]. right.
           exists (S j). split; [lia|done].
Qed.

(** C6. The list parser returns, and in what it returns no two records
    have the same (groupId, artifactId). The result is a subsequence of
    the decoded records, and every decoded record is represented by a kept
    record with its (groupId, artifactId) that was decoded at the same
    line or before: the first occurrence is kept and each later one,
    whatever its version or scope, is dropped. *)
Theorem list_parser_first_occurrence_wins (listText : string) :
  exists deps,
    parseResolvedDependencies listText = Normal deps /\
    NoDup (coordinatePair <$> deps) /\
    sublist deps (candidates listText) /\
    (forall i c, candidates listText !! i = Some c ->
       exists j r, (j <= i)%nat /\
                   candidates listText !! j = Some r /\
                   r ∈ deps /\
                   coordinatePair r = coordinatePair c).
Proof.
  unfold parseResolvedDependencies. rewrite forOf_listLine. simpl.
  fold (candidates listText).
  assert (consistent (mkListState [] ∅)) as H0.
  { split; simpl; [constructor|]. intros k. set_solver. }
  destruct (remember_fold (candidates listText) _ H0)
    as ([Hnd _] & (extra & Hdeps & Hsub) & Hrep).
  simpl in Hdeps. eexists. split; [done|].
  assert (forall d, d ∈ candidates listText ->
                    colonFree (ResolvedDependency.groupId d) = true) as Hwf.
  { intros d (line & _ & Hline)%list_elem_of_omap.
    by eapply candidate_colonFree. }
  split; [|split].
  - apply (NoDup_fmap_1 (fun p => (p.1 +:+ ":" +:+ p.2))).
    by rewrite <- list_fmap_compose.
  - by rewrite Hdeps.
  - intros i c Hi.
    destruct (Hrep i c Hi) as (r & Hr & Hkey & [Hold|(j & Hj & Hlook)]).
    { simpl in Hold. by apply elem_of_nil in Hold. }
    exists j, r. split; [done|]. split; [done|]. split; [done|].
    apply dependencyKey_inj; [| |done].
    + apply Hwf. by eapply list_elem_of_lookup_2.
    + apply Hwf. by eapply list_elem_of_lookup_2.
Qed.

End ListParserFacts.

(** ** The omission suffixes of the tree node parser *)

Module OmissionFacts.
Import Js MavenUtils ParserSpec JsFacts ParserFacts.

Lemma append_nil_l t : EmptyString +:+ t = t.
Proof. reflexivity. Qed.

Lemma append_cons c s t : String c s +:+ t = String c (s +:+ t).
Proof. reflexivity. Qed.




Lemma searchToEnd_Some here s before :
  searchToEnd here s = Some before ->
  exists matched, s = before +:+ matched /\ here matched = true.
Proof.
  revert before. induction s as [|c s IH]; intros before; simpl.
  - destruct (here EmptyString) eqn:E; [|done]. intros [= <-]. by exists EmptyString.
  - destruct (here (String c s)) eqn:E.
    + intros [= <-]. by exists (String c s).
    + destruct (searchToEnd here s) as [b|]; [|done]. simpl. intros [= <-].
      destruct (IH b eq_refl) as (m & -> & Hm). by exists m.
Qed.

Lemma searchToEnd_finds here pre suf :
  here suf = true ->
  exists before, searchToEnd here (pre +:+ suf) = Some before /\
                 (String.length before <= String.length pre)%nat.
Proof.
  intros Hsuf. induction pre as [|c pre (b & Hb & Hlen)].
  - rewrite append_nil_l. exists EmptyString.
    destruct suf; simpl; rewrite Hsuf; by split.
  - rewrite append_cons. simpl.
    destruct (here (String c (pre +:+ suf))).
    + exists EmptyString. split; [done|]. simpl. lia.
    + rewrite Hb. simpl. exists (String c b). split; [done|]. simpl. lia.
Qed.











Lemma lastChar_append pre suf :
  isEmpty suf = false -> lastChar (pre +:+ suf) = lastChar suf.
Proof.
  intros Hsuf. unfold lastChar. induction pre as [|c pre IH]; [done|].
  rewrite append_cons. cbn [unsnoc].
  destruct (unsnoc (pre +:+ suf)) as [[init last]|] eqn:Hpre;
    destruct (unsnoc suf) as [[init' last']|] eqn:Hsuf'; simpl in *;
    try congruence.
  by apply unsnoc_None in Hsuf' as ->.
Qed.

Lemma lastChar_cons c s :
  isEmpty s = false -> lastChar (String c s) = lastChar s.
Proof. apply (lastChar_append (String c EmptyString)). Qed.









End OmissionFacts.

(** ** The indentation of the tree parser *)

Module TreeParserFacts.
Import Js MavenUtils ParserSpec.

Lemma indentLoop_leadingSpaces line indent :
  indentLoop line indent = (indent + leadingSpaces line)%nat.
Proof.
  revert indent. induction line as [|c line IH]; intros indent; simpl; [lia|].
  destruct (Ascii.eqb c " "); [rewrite IH; lia|].
  destruct (isTreeGlyph c); [apply IH | lia].
Qed.

(** What [calculateIndent] computes: the glyph branch of its loop goes on
    without counting, so only the spaces of the leading run are counted. *)
Lemma calculateIndent_counts_spaces line :
  calculateIndent line = (leadingSpaces line / 3)%nat.
Proof. unfold calculateIndent. by rewrite indentLoop_leadingSpaces. Qed.

(** C1. [calculateIndent] divides by 3 the number of spaces in the leading
    run of spaces and tree-drawing glyphs, not the length of the run. On
    the line [+- com.foo:baz:jar:2.0] the three leading characters give
    depth 1 when all of them are counted, but [calculateIndent] returns 0,
    and the two lines of the scenario are parsed into two roots without
    children, not into the root bar:1.0 with the child baz:2.0. *)
Theorem calculateIndent_skips_glyphs :
  (forall line, calculateIndent line = (leadingSpaces line / 3)%nat) /\
  (leadingTreeChars "+- com.foo:baz:jar:2.0" / 3 = 1)%nat /\
  calculateIndent "+- com.foo:baz:jar:2.0" = 0%nat /\
  parseDependencyTree scenarioText =
    Normal (mkForest [jarNode "bar" "1.0" []; jarNode "baz" "2.0" []] [0; 1]%nat) /\
  unfoldForest
    (mkForest [jarNode "bar" "1.0" []; jarNode "baz" "2.0" []] [0; 1]%nat) =
    Some [TreeNode (jarNode "bar" "1.0" []) [];
          TreeNode (jarNode "baz" "2.0" []) []].
Proof.
  split; [apply calculateIndent_counts_spaces|].
  repeat split; vm_compute; reflexivity.
Qed.

End TreeParserFacts.

(** ** The cache manager *)

Module CacheFacts.
Import Js CacheManager CacheSpec.

Section WithPayload.
Context {Data : Type}.
Variable jsonLength : Data -> option Z.
Variable md5 : string -> string.

(** C3. An entry is valid exactly when its version is the current format
    version, its age is at most the TTL of one hour, the source file can be
    probed and its modification time is not greater than the stored one.
    A failed probe makes the entry invalid, and so does an age above the
    TTL, whatever the state of the source file. *)
Theorem isCacheValid_iff (w : World) (cached : CacheData Data)
    (pomPath : string) :
  MAX_CACHE_AGE_MS = 3600000%Z /\
  (isCacheValid w cached pomPath = true <->
     version cached = CACHE_VERSION /\
     (now w - timestamp cached <= MAX_CACHE_AGE_MS)%Z /\
     exists current, mtime w pomPath = Some current /\
                     (current <= pomMtime cached)%Z) /\
  (mtime w pomPath = None -> isCacheValid w cached pomPath = false) /\
  ((now w - timestamp cached > MAX_CACHE_AGE_MS)%Z ->
     isCacheValid w cached pomPath = false).
Proof.
  split; [reflexivity|]. unfold isCacheValid.
  destruct (String.eqb_spec (version cached) CACHE_VERSION) as [Hv|Hv]; simpl.
  - destruct (Z.gtb_spec (now w - timestamp cached) MAX_CACHE_AGE_MS)
      as [Hage|Hage].
    + split; [|by split]. split; [done|]. intros (_ & Hle & _). lia.
    + destruct (mtime w pomPath) as [current|].
      * destruct (Z.gtb_spec current (pomMtime cached)) as [Hm|Hm].
        -- split; [|split; [done|lia]]. split; [done|].
           intros (_ & _ & c & [= <-] & Hle). lia.
        -- split; [|split; [done|lia]]. split; [|done].
           intros _. split; [done|]. split; [done|]. by exists current.
      * split; [|split; [done|lia]]. split; [done|].
        by intros (_ & _ & c & ? & _).
  - split; [|by split]. split; [done|]. by intros (? & _).
Qed.

Ltac run_op :=
  unfold set, get, setToFileCache, getFromFileCache;
  unfold ensureStorageDirectory, stat, memoryGet, memorySet,
    workspaceStateGet, workspaceStateUpdate, readFile, writeFile,
    consoleError, fresh;
  unfold tryCatch, bind, ret, throw;
  simpl.

(** How [get] runs when no refresh is forced, in terms of the first fresh
    entry of the three tiers. *)
Lemma get_run (w : World) (h : Host Data) (pomPath cacheKey : string) :
  get md5 w pomPath cacheKey false h =
    match firstFresh w pomPath 0 (tierEntries md5 w h pomPath cacheKey) with
    | None => (Normal None, h)
    | Some (O, hit) => (Normal (Some (data hit)), h)
    | Some (S _, hit) =>
        (Normal (Some (data hit)),
         mkHost (<[generateCacheKey pomPath cacheKey := hit]> (memoryCache h))
                (workspaceState h) (storageDirectory h) (consoleErrors h))
    end.
Proof.
  unfold tierEntries.
  destruct h as [memory small directory errors]. run_op.
  destruct (memory !! generateCacheKey pomPath cacheKey) as [e1|]; simpl;
    [destruct (isCacheValid w e1 pomPath); simpl; [done|]|];
    (destruct (small !! getWorkspaceStateKey md5 pomPath cacheKey) as [e2|];
     simpl; [destruct (isCacheValid w e2 pomPath); simpl; [done|]|]);
    (destruct (storageUri w); simpl; [|done]);
    (destruct directory as [files|]; simpl; [|done]);
    (destruct (files !! getCacheFilePath md5 pomPath cacheKey) as [e3|];
     simpl; [|done]);
    by destruct (isCacheValid w e3 pomPath).
Qed.

(** C2, as the code has it. With [forceRefresh] the cache is not consulted.
    Otherwise [get] returns the data of the first entry, in the order fast
    tier, small-persistent tier, blob tier, that passes [isCacheValid]; a
    hit in the fast tier or a miss changes nothing, and a hit in one of the
    two persistent tiers writes the entry into the fast tier and into no
    other tier. *)
Theorem get_first_fresh_backfills_memory (w : World) (h : Host Data)
    (pomPath cacheKey : string) :
  get md5 w pomPath cacheKey true h = (Normal None, h) /\
  get md5 w pomPath cacheKey false h =
    match firstFresh w pomPath 0 (tierEntries md5 w h pomPath cacheKey) with
    | None => (Normal None, h)
    | Some (O, hit) => (Normal (Some (data hit)), h)
    | Some (S _, hit) =>
        (Normal (Some (data hit)),
         mkHost (<[generateCacheKey pomPath cacheKey := hit]> (memoryCache h))
                (workspaceState h) (storageDirectory h) (consoleErrors h))
    end.
Proof. split; [reflexivity | apply get_run]. Qed.

(** Case analysis on the innermost condition that blocks the evaluation. *)
Ltac split_cases :=
  repeat match goal with
         | |- context [match ?x with _ => _ end] =>
             lazymatch x with
             | context [match _ with _ => _ end] => fail
             | _ => destruct x eqn:?; simpl
             end
         end.

(** Once the source file has been probed, [set] writes the fast tier. *)
Lemma set_memory (w : World) (h : Host Data) (pomPath cacheKey : string)
    (d : Data) (pomStat : Z) :
  mtime w pomPath = Some pomStat ->
  memoryCache (afterSet jsonLength md5 w h pomPath cacheKey d) =
  <[generateCacheKey pomPath cacheKey := entryOf w d pomStat]> (memoryCache h).
Proof.
  intros Hm. unfold afterSet. destruct h as [memory small dir errors].
  run_op. rewrite Hm. simpl. split_cases; done.
Qed.

(** C5, as the code has it. The size estimate selects the one persistent
    tier that [set] may write: below the threshold of 50 KiB the storage
    directory is left alone and in the small-persistent tier only the key
    of this entry can change; from the threshold on the small-persistent
    tier is left alone and in the storage directory only the file of this
    entry can change. The selected write takes effect when the source file
    can be probed and the tier accepts the write. A payload of 60 KiB never
    reaches the small-persistent tier. *)
Theorem set_writes_at_most_one_persistent_tier (w : World) (h : Host Data)
    (pomPath cacheKey : string) (d : Data) :
  SMALL_DATA_THRESHOLD = 51200%Z /\
  ((estimateDataSize jsonLength d < SMALL_DATA_THRESHOLD)%Z ->
     storageDirectory (afterSet jsonLength md5 w h pomPath cacheKey d) = storageDirectory h /\
     (forall key, key <> getWorkspaceStateKey md5 pomPath cacheKey ->
        workspaceState (afterSet jsonLength md5 w h pomPath cacheKey d) !! key =
        workspaceState h !! key) /\
     (forall pomStat,
        mtime w pomPath = Some pomStat ->
        updateRejects w (getWorkspaceStateKey md5 pomPath cacheKey) = false ->
        workspaceState (afterSet jsonLength md5 w h pomPath cacheKey d)
          !! getWorkspaceStateKey md5 pomPath cacheKey =
        Some (entryOf w d pomStat))) /\
  ((SMALL_DATA_THRESHOLD <= estimateDataSize jsonLength d)%Z ->
     workspaceState (afterSet jsonLength md5 w h pomPath cacheKey d) = workspaceState h /\
     (forall name, name <> getCacheFilePath md5 pomPath cacheKey ->
        filesOf (afterSet jsonLength md5 w h pomPath cacheKey d) !! name =
        filesOf h !! name) /\
     (forall pomStat,
        mtime w pomPath = Some pomStat ->
        storageUri w = true ->
        writeFileRejects w (getCacheFilePath md5 pomPath cacheKey) = false ->
        (storageDirectory h = None -> createDirectoryRejects w = false) ->
        filesOf (afterSet jsonLength md5 w h pomPath cacheKey d)
          !! getCacheFilePath md5 pomPath cacheKey =
        Some (entryOf w d pomStat))) /\
  (estimateDataSize jsonLength d = (60 * 1024)%Z ->
     workspaceState (afterSet jsonLength md5 w h pomPath cacheKey d) = workspaceState h).
Proof.
  assert ((SMALL_DATA_THRESHOLD <= estimateDataSize jsonLength d)%Z ->
          workspaceState (afterSet jsonLength md5 w h pomPath cacheKey d) = workspaceState h)
    as Hlarge.
  { intros Hsize%Z.ltb_ge. unfold afterSet. destruct h as [memory small dir errors].
    run_op. rewrite Hsize. split_cases; done. }
  split; [reflexivity|]. split; [|split].
  - intros Hsize%Z.ltb_lt. unfold afterSet. destruct h as [memory small dir errors].
    run_op. rewrite Hsize. split; [|split].
    + split_cases; done.
    + intros key Hkey. split_cases; simpl; try done.
      by rewrite lookup_insert_ne.
    + intros pomStat -> ->. simpl. by rewrite lookup_insert_eq.
  - intros Hsize. split; [by apply Hlarge|].
    apply Z.ltb_ge in Hsize. unfold afterSet, filesOf.
    destruct h as [memory small dir errors]. run_op. rewrite Hsize. split.
    + intros name Hname. split_cases; simpl; try done.
      all: by rewrite ?lookup_insert_ne, ?lookup_empty.
    + intros pomStat -> -> -> Hcreate. simpl.
      destruct dir as [files|]; simpl.
      * by rewrite lookup_insert_eq.
      * rewrite Hcreate by done. simpl. by rewrite lookup_insert_eq.
  - intros Hsize. apply Hlarge. rewrite Hsize. unfold SMALL_DATA_THRESHOLD. lia.
Qed.

(** C7, as the code has it. [set] never throws. Once the source file has
    been probed the fast tier is written, whatever then happens to the
    persistent write; a rejected persistent write is logged on the error
    console. When the probe itself fails nothing is cached and the failure
    is logged. *)
Theorem set_never_throws (w : World) (h : Host Data)
    (pomPath cacheKey : string) (d : Data) :
  fst (set jsonLength md5 w pomPath cacheKey d h) = Normal tt /\
  (forall pomStat,
     mtime w pomPath = Some pomStat ->
     memoryCache (afterSet jsonLength md5 w h pomPath cacheKey d) =
     <[generateCacheKey pomPath cacheKey := entryOf w d pomStat]>
       (memoryCache h)) /\
  (mtime w pomPath = None ->
     afterSet jsonLength md5 w h pomPath cacheKey d =
     mkHost (memoryCache h) (workspaceState h) (storageDirectory h)
            (consoleErrors h ++ [CacheWriteFailed cacheKey "FileNotFound"])) /\
  (forall pomStat,
     mtime w pomPath = Some pomStat ->
     (estimateDataSize jsonLength d < SMALL_DATA_THRESHOLD)%Z ->
     updateRejects w (getWorkspaceStateKey md5 pomPath cacheKey) = true ->
     consoleErrors (afterSet jsonLength md5 w h pomPath cacheKey d) =
     consoleErrors h ++ [CacheWriteFailed cacheKey "UpdateRejected"]) /\
  (forall pomStat,
     mtime w pomPath = Some pomStat ->
     (SMALL_DATA_THRESHOLD <= estimateDataSize jsonLength d)%Z ->
     storageUri w = true ->
     writeFileRejects w (getCacheFilePath md5 pomPath cacheKey) = true \/
       (storageDirectory h = None /\ createDirectoryRejects w = true) ->
     exists error,
       consoleErrors (afterSet jsonLength md5 w h pomPath cacheKey d) =
       consoleErrors h ++
         [FileCacheWriteFailed error; CacheWriteFailed cacheKey error]).
Proof.
  unfold afterSet. destruct h as [memory small dir errors].
  split; [|split; [|split; [|split]]].
  - run_op. split_cases; done.
  - intros pomStat Hm.
    by apply (set_memory w (mkHost memory small dir errors)).
  - intros Hm. run_op. by rewrite Hm.
  - intros pomStat Hm Hsize%Z.ltb_lt Hupdate. run_op.
    by rewrite Hm, Hsize, Hupdate.
  - intros pomStat Hm Hsize%Z.ltb_ge Huri Hfail. run_op.
    rewrite Hm, Hsize, Huri. simpl.
    simpl in Hfail. destruct Hfail as [Hwrite|[-> Hcreate]].
    + rewrite Hwrite. destruct dir as [files|]; simpl.
      { eexists. by rewrite <- app_assoc. }
      destruct (createDirectoryRejects w); simpl; eexists;
        by rewrite <- app_assoc.
    + rewrite Hcreate. simpl. eexists. by rewrite <- app_assoc.
Qed.

(** C8, as the code has it. When the source file can be probed at the time
    of [set] and at the time of [get], has not been modified in between,
    and [get] follows within the TTL, [get] returns the value that [set]
    stored. *)
Theorem set_then_get_returns_value (wSet wGet : World) (h : Host Data)
    (pomPath cacheKey : string) (v : Data) (mSet mGet : Z) :
  mtime wSet pomPath = Some mSet ->
  mtime wGet pomPath = Some mGet ->
  (mGet <= mSet)%Z ->
  (now wGet - now wSet <= MAX_CACHE_AGE_MS)%Z ->
  fst (get md5 wGet pomPath cacheKey false
         (afterSet jsonLength md5 wSet h pomPath cacheKey v)) = Normal (Some v).
Proof.
  intros HmSet HmGet Hm Hage.
  pose proof (set_memory wSet h pomPath cacheKey v mSet HmSet) as Hmem.
  rewrite get_run.
  unfold tierEntries. rewrite Hmem, lookup_insert_eq. simpl.
  assert (isCacheValid wGet (entryOf wSet v mSet) pomPath = true) as ->.
  { unfold isCacheValid, entryOf. simpl. rewrite HmGet.
    destruct (Z.gtb_spec (now wGet - now wSet) MAX_CACHE_AGE_MS); [lia|].
    destruct (Z.gtb_spec mGet mSet); [lia|done]. }
  done.
Qed.

End WithPayload.

(** *** Concrete runs *)

(** C2, as the specification states it, fails: after a hit in the blob
    tier the entry is in the fast tier but not in the small-persistent
    tier. *)
Lemma blob_hit_skips_workspaceState :
  tierEntries pathDigest quietWorld blobOnly "/p/pom.xml" "dependencyTree" =
    [None; None; Some blobEntry] /\
  fst (get pathDigest quietWorld "/p/pom.xml" "dependencyTree" false blobOnly) =
    Normal (Some 7%Z) /\
  memoryCache
    (snd (get pathDigest quietWorld "/p/pom.xml" "dependencyTree" false
            blobOnly))
    !! generateCacheKey "/p/pom.xml" "dependencyTree" = Some blobEntry /\
  workspaceState
    (snd (get pathDigest quietWorld "/p/pom.xml" "dependencyTree" false
            blobOnly))
    !! getWorkspaceStateKey pathDigest "/p/pom.xml" "dependencyTree" = None.
Proof. repeat split; vm_compute; reflexivity. Qed.

(** C5, as the specification states it, fails: without a storage
    directory a payload of 60 KiB is written to no persistent tier. *)
Lemma large_payload_without_storage :
  estimateDataSize sizeOf 61440%Z = (60 * 1024)%Z /\
  workspaceState
    (afterSet sizeOf pathDigest noStorage emptyHost "/p/pom.xml"
       "dependencyTree" 61440%Z) = ∅ /\
  storageDirectory
    (afterSet sizeOf pathDigest noStorage emptyHost "/p/pom.xml"
       "dependencyTree" 61440%Z) = None.
Proof. repeat split; vm_compute; reflexivity. Qed.

(** C7, as the specification states it, fails: when the source file
    cannot be probed, [set] returns without writing the fast tier. *)
Lemma set_without_source_skips_memory :
  fst (set sizeOf pathDigest missingSource "/p/pom.xml" "dependencyTree" 7%Z
         emptyHost) = Normal tt /\
  memoryCache
    (afterSet sizeOf pathDigest missingSource emptyHost "/p/pom.xml"
       "dependencyTree" 7%Z)
    !! generateCacheKey "/p/pom.xml" "dependencyTree" = None.
Proof. repeat split; vm_compute; reflexivity. Qed.

(** C8, as the specification states it, fails: for a key whose source file
    is missing, [get] right after [set] does not return the value. *)
Lemma get_after_set_without_source :
  fst (get pathDigest missingSource "/p/pom.xml" "dependencyTree" false
         (afterSet sizeOf pathDigest missingSource emptyHost "/p/pom.xml"
            "dependencyTree" 7%Z)) = Normal None /\
  fst (get pathDigest missingSource "/p/pom.xml" "dependencyTree" false
         (afterSet sizeOf pathDigest missingSource emptyHost "/p/pom.xml"
            "dependencyTree" 7%Z)) <> Normal (Some 7%Z).
Proof. split; [vm_compute; reflexivity | vm_compute; discriminate]. Qed.

Lemma set_then_get_returns_value_witness :
  mtime quietWorld "/p/pom.xml" = Some 500%Z /\
  (500 <= 500)%Z /\
  (now quietWorld - now quietWorld <= MAX_CACHE_AGE_MS)%Z /\
  fst (get pathDigest quietWorld "/p/pom.xml" "dependencyTree" false
         (afterSet sizeOf pathDigest quietWorld emptyHost "/p/pom.xml"
            "dependencyTree" 7%Z)) = Normal (Some 7%Z).
Proof.
  split; [reflexivity|]. split; [discriminate|]. split; [discriminate|].
  apply (set_then_get_returns_value sizeOf pathDigest quietWorld quietWorld
           emptyHost "/p/pom.xml" "dependencyTree" 7%Z 500%Z 500%Z);
    [reflexivity | reflexivity | discriminate | discriminate].
Defined.

End CacheFacts.

(** ** The forest that the tree parser builds *)

Module ForestFacts.
Import Js MavenUtils ParserSpec JsFacts ParserFacts.

Lemma forOf_treeLine lines st :
  forOf treeLine lines st =
  Normal (foldl (fun st x => place st x.1 x.2) st (omap decodedTreeLine lines)).
Proof.
  revert st. induction lines as [|line lines IH]; intros st; simpl; [done|].
  unfold treeLine at 1, decodedTreeLine at 1.
  destruct (decodeTreeLine_normal line) as [[[indent node]|] ->]; simpl;
    apply IH.
Qed.

Lemma popWhile_head indent stack :
  head (popWhile indent stack) =
  List.find (fun x => snd x <? indent)%nat stack.
Proof.
  induction stack as [|[node top] below IH]; simpl; [done|].
  destruct (Nat.leb_spec indent top), (Nat.ltb_spec top indent);
    try lia; done.
Qed.

Lemma find_popWhile indent deeper stack :
  (indent <= deeper)%nat ->
  List.find (fun x => snd x <? indent)%nat (popWhile deeper stack) =
  List.find (fun x => snd x <? indent)%nat stack.
Proof.
  intros Hle. induction stack as [|[node top] below IH]; simpl; [done|].
  destruct (Nat.leb_spec deeper top); simpl; [|done].
  destruct (Nat.ltb_spec top indent); [lia|done].
Qed.

Lemma find_shallower_than_0 (l : list (nat * nat)) :
  List.find (fun x => snd x <? 0)%nat l = None.
Proof. by induction l. Qed.

Lemma history_snoc indents indent :
  history (indents ++ [indent]) = (List.length indents, indent) :: history indents.
Proof.
  unfold history. rewrite imap_app. simpl. rewrite Nat.add_0_r.
  by rewrite reverse_snoc.
Qed.

Lemma history_elem indents a indent :
  (a, indent) ∈ history indents -> indents !! a = Some indent.
Proof.
  unfold history. rewrite elem_of_reverse.
  intros (i & x & [= -> ->] & Hx)%elem_of_lookup_imap. done.
Qed.

Lemma find_elem {A} (p : A -> bool) l x :
  List.find p l = Some x -> x ∈ l.
Proof.
  intros [Hin _]%find_some. by apply list_elem_of_In.
Qed.

Lemma nearestShallower_0 indents : nearestShallower indents 0 = None.
Proof. unfold nearestShallower. by rewrite find_shallower_than_0. Qed.

Lemma nearestShallower_lt indents indent p :
  nearestShallower indents indent = Some p -> (p < List.length indents)%nat.
Proof.
  unfold nearestShallower.
  destruct (List.find _ _) as [[a d]|] eqn:F; [|done]. simpl. intros [= <-].
  apply find_elem, history_elem in F. by eapply lookup_lt_Some.
Qed.

Lemma parentAt_lt indents c p :
  parentAt indents c = Some p -> (p < c /\ c < List.length indents)%nat.
Proof.
  unfold parentAt. destruct (indents !! c) as [d|] eqn:Hc; [|done].
  intros Hp%nearestShallower_lt. apply lookup_lt_Some in Hc.
  rewrite length_take in Hp. lia.
Qed.

Lemma parentAt_app_l indents indent c :
  (c < List.length indents)%nat ->
  parentAt (indents ++ [indent]) c = parentAt indents c.
Proof.
  intros Hc. unfold parentAt.
  rewrite lookup_app_l by done. by rewrite take_app_le by lia.
Qed.

Lemma parentAt_app_r indents indent :
  parentAt (indents ++ [indent]) (List.length indents) =
  nearestShallower indents indent.
Proof.
  unfold parentAt. rewrite list_lookup_middle by done.
  by rewrite take_app_length.
Qed.

Lemma filter_agree {A} (P Q : A -> Prop) `{!forall x, Decision (P x)}
    `{!forall x, Decision (Q x)} (l : list A) :
  (forall x, x ∈ l -> P x <-> Q x) -> filter P l = filter Q l.
Proof.
  induction l as [|x l IH]; intros Hext; [done|].
  rewrite !filter_cons.
  rewrite IH by (intros y Hy; apply Hext; by right).
  assert (P x <-> Q x) as Hx by (apply Hext; by left).
  destruct (decide (P x)) as [HP|HP], (decide (Q x)) as [HQ|HQ];
    tauto || done.
Qed.

Lemma childrenAt_snoc indents indent p :
  childrenAt (indents ++ [indent]) p =
  childrenAt indents p ++
  (if decide (nearestShallower indents indent = Some p)
   then [List.length indents] else []).
Proof.
  unfold childrenAt. rewrite length_app. simpl.
  rewrite Nat.add_1_r, seq_S, filter_app. simpl. f_equal.
  - apply filter_agree. intros c Hc%elem_of_seq.
    by rewrite parentAt_app_l by lia.
  - rewrite filter_cons, filter_nil, parentAt_app_r.
    by destruct (decide _).
Qed.

Lemma rootsOf_snoc indents indent :
  rootsOf (indents ++ [indent]) =
  rootsOf indents ++
  (if decide (indent = 0%nat) then [List.length indents] else []).
Proof.
  unfold rootsOf. rewrite length_app. simpl.
  rewrite Nat.add_1_r, seq_S, filter_app. simpl. f_equal.
  - apply filter_agree. intros c Hc%elem_of_seq.
    by rewrite lookup_app_l by lia.
  - rewrite filter_cons, filter_nil, list_lookup_middle by done.
    destruct (decide (indent = 0%nat)) as [->|Hne].
    + by rewrite decide_True.
    + rewrite decide_False; [done|]. by intros [= ?].
Qed.

Lemma childrenAt_beyond indents a :
  (List.length indents <= a)%nat -> childrenAt indents a = [].
Proof.
  intros Ha. unfold childrenAt.
  induction (seq 0 (List.length indents)) as [|c l IH]; [done|].
  rewrite filter_cons, IH. destruct (decide _) as [Hp|]; [|done].
  apply parentAt_lt in Hp. lia.
Qed.

Lemma withChildren_same node :
  withChildren node (DependencyNode.children node) = node.
Proof. by destruct node. Qed.

Lemma lookup_snoc_cases {A} (l : list A) (x y : A) (a : nat) :
  (l ++ [x]) !! a = Some y ->
  (l !! a = Some y /\ (a < List.length l)%nat) \/ (a = List.length l /\ y = x).
Proof.
  intros Ha. destruct (decide (a < List.length l)%nat) as [Hlt|Hge].
  - left. by rewrite lookup_app_l in Ha.
  - right. rewrite lookup_app_r in Ha by lia.
    destruct (a - List.length l)%nat as [|k] eqn:Hk; simpl in Ha; [|done].
    injection Ha as <-. split; [lia|done].
Qed.

Lemma describes_step decoded st indent node :
  describes decoded st ->
  DependencyNode.children node = [] ->
  describes (decoded ++ [(indent, node)]) (place st indent node).
Proof.
  destruct st as [objects roots stack].
  intros (Hlen & Hstack & Hroots & Hheap) Hkids. simpl in *.
  assert (List.length (decoded.*1) = List.length objects) as Hn
    by (by rewrite length_fmap).
  assert (forall a i n, (decoded ++ [(indent, node)]) !! a = Some (i, n) ->
            (decoded !! a = Some (i, n) /\ (a < List.length objects)%nat) \/
            (a = List.length objects /\ i = indent /\ n = node)) as Hcases.
  { intros a i n Ha. rewrite Hlen.
    destruct (lookup_snoc_cases _ _ _ _ Ha) as [?|[-> [= -> ->]]]; auto. }
  unfold describes, place. rewrite fmap_app. simpl.
  destruct (Nat.eqb_spec indent 0) as [->|Hpos]; simpl.
  - (* a new root *)
    split; [rewrite !length_app; simpl; lia|]. split; [|split].
    + intros q. rewrite history_snoc. simpl.
      destruct q as [|q]; simpl; [by rewrite find_shallower_than_0|].
      by rewrite Hn.
    + by rewrite rootsOf_snoc, Hroots, Hn.
    + intros a i n Ha. rewrite childrenAt_snoc.
      rewrite nearestShallower_0, decide_False by done.
      rewrite app_nil_r.
      destruct (Hcases a i n Ha) as [[Hold Hlt]|(-> & -> & ->)].
      * rewrite lookup_app_l by done. by eapply Hheap.
      * rewrite list_lookup_middle by done.
        rewrite childrenAt_beyond by lia. by rewrite <- Hkids, withChildren_same.
  - (* a node below the top of the stack *)
    assert (nearestShallower (decoded.*1) indent =
            fst <$> head (popWhile indent stack)) as Hparent.
    { unfold nearestShallower. by rewrite popWhile_head, Hstack. }
    split; [|split; [|split]].
    + destruct (popWhile indent stack) as [|[p ?] ?]; simpl;
        rewrite ?length_alter, !length_app; simpl; lia.
    + intros q. rewrite history_snoc. simpl. rewrite Hn.
      destruct (Nat.ltb_spec indent q); [done|].
      by rewrite find_popWhile, Hstack by lia.
    + rewrite rootsOf_snoc, Hroots. rewrite decide_False by done.
      by rewrite app_nil_r.
    + intros a i n Ha. rewrite childrenAt_snoc, Hparent.
      destruct (popWhile indent stack) as [|[p top] below] eqn:Hpop; simpl.
      * rewrite app_nil_r.
        destruct (Hcases a i n Ha) as [[Hold Hlt]|(-> & -> & ->)].
        -- rewrite lookup_app_l by done. by eapply Hheap.
        -- rewrite list_lookup_middle by done.
           rewrite childrenAt_beyond by lia.
           by rewrite <- Hkids, withChildren_same.
      * assert (p < List.length objects)%nat as Hp.
        { rewrite <- Hn. apply (nearestShallower_lt _ indent).
          by rewrite Hparent. }
        destruct (Hcases a i n Ha) as [[Hold Hlt]|(-> & -> & ->)].
        -- destruct (decide (p = a)) as [->|Hne].
           ++ rewrite list_lookup_alter_eq, lookup_app_l by done.
              rewrite (Hheap _ _ _ Hold). simpl.
              rewrite decide_True by done. by rewrite Hn.
           ++ rewrite list_lookup_alter_ne, lookup_app_l by done.
              rewrite (Hheap _ _ _ Hold).
              rewrite decide_False by congruence. by rewrite app_nil_r.
        -- rewrite list_lookup_alter_ne by lia.
           rewrite list_lookup_middle by done.
           rewrite decide_False by (intros [= ?]; lia).
           rewrite app_nil_r, childrenAt_beyond by lia.
           by rewrite <- Hkids, withChildren_same.
Qed.

Lemma decodeNode_children reason clean node :
  decodeNode reason clean = Normal (Some node) ->
  DependencyNode.children node = [].
Proof.
  unfold decodeNode.
  destruct (parseResolvedDependencyNode clean) as [[d|]|]; [|done..].
  simpl. by intros [= <-].
Qed.

Lemma decodedTreeLine_children line indent node :
  decodedTreeLine line = Some (indent, node) ->
  DependencyNode.children node = [].
Proof.
  unfold decodedTreeLine, decodeTreeLine.
  destruct (_ || _); [done|]. destruct (isNoise _); [done|].
  destruct (isEmpty _); [done|].
  destruct (parseDependencyNode _) as [[n|]|] eqn:E; simpl; [|done..].
  intros [= _ <-]. rewrite parseDependencyNode_decodes in E.
  destruct (matchOmitted _ _) as [[??]|]; by eapply decodeNode_children.
Qed.

Lemma describes_foldl lines :
  forall done st,
    describes done st ->
    Forall (fun x => DependencyNode.children x.2 = []) lines ->
    describes (done ++ lines) (foldl (fun st x => place st x.1 x.2) st lines).
Proof.
  induction lines as [|[indent node] lines IH]; intros done st Hst Hkids; simpl.
  { by rewrite app_nil_r. }
  apply Forall_cons in Hkids as [Hnode Hkids].
  rewrite (cons_middle _ done lines), app_assoc.
  apply IH; [|done]. by apply describes_step.
Qed.

(** The state in which the tree parser ends agrees with the decoded lines
    of the whole text. *)
Lemma parse_describes treeText :
  exists st,
    forOf treeLine (split "010" treeText) (mkTreeState [] [] []) = Normal st /\
    describes (decodedTreeLines treeText) st.
Proof.
  rewrite forOf_treeLine. eexists. split; [done|].
  apply (describes_foldl _ [] (mkTreeState [] [] [])).
  - by repeat split.
  - apply Forall_forall. intros [indent node] Hin.
    apply list_elem_of_omap in Hin as (line & _ & Hline).
    by eapply decodedTreeLine_children.
Qed.

(** X1. The tree parser returns one node object per decoded line, in the
    order of the lines. Its roots are the nodes of indentation level 0, and
    the children of a node are the later nodes whose nearest preceding node
    of strictly smaller indentation level it is, in the order of the
    lines. *)
Theorem tree_parser_parent_is_nearest_shallower (treeText : string) :
  exists forest,
    parseDependencyTree treeText = Normal forest /\
    List.length (nodes forest) = List.length (decodedTreeLines treeText) /\
    roots forest = rootsOf ((decodedTreeLines treeText).*1) /\
    (forall a indent node,
       decodedTreeLines treeText !! a = Some (indent, node) ->
       nodes forest !! a =
       Some (withChildren node
               (childrenAt ((decodedTreeLines treeText).*1) a))).
Proof.
  unfold parseDependencyTree.
  destruct (parse_describes treeText) as (st & -> & Hlen & _ & Hroots & Hheap).
  simpl. eexists. split; [done|]. by repeat split.
Qed.

Lemma unfoldNode_succeeds objects :
  (forall p node c,
     objects !! p = Some node -> c ∈ DependencyNode.children node ->
     (p < c < List.length objects)%nat) ->
  forall fuel a,
    (a < List.length objects)%nat ->
    (List.length objects - a <= fuel)%nat ->
    is_Some (unfoldNode fuel objects a).
Proof.
  intros Hup. induction fuel as [|fuel IH]; intros a Ha Hfuel; [lia|].
  simpl. destruct (lookup_lt_is_Some_2 objects a Ha) as [node Hnode].
  rewrite Hnode.
  destruct (mapM_is_Some_2 (unfoldNode fuel objects)
              (DependencyNode.children node)) as [subtrees ->]; [|by eexists].
  apply Forall_forall. intros c Hc. specialize (Hup _ _ _ Hnode Hc).
  apply IH; lia.
Qed.

(** What [describes] says about the edges of the object graph. *)
Lemma describes_edges decoded st p parent c :
  describes decoded st ->
  heap st !! p = Some parent ->
  c ∈ DependencyNode.children parent ->
  parentAt (decoded.*1) c = Some p.
Proof.
  intros (Hlen & _ & _ & Hheap) Hp Hc.
  assert (p < List.length decoded)%nat as Hlt.
  { rewrite <- Hlen. by eapply lookup_lt_Some. }
  destruct (lookup_lt_is_Some_2 decoded p Hlt) as [[indent node] Hd].
  rewrite (Hheap _ _ _ Hd) in Hp. injection Hp as <-. simpl in Hc.
  unfold childrenAt in Hc. by apply list_elem_of_filter in Hc as [Hc _].
Qed.

(** X2. The object graph that the tree parser returns is a forest: every
    child was created after its parent, no node is the child of two nodes
    and no root is a child, so that unfolding the references from the roots
    ends and gives a finite tree for every root. *)
Theorem tree_parser_returns_a_forest (treeText : string) :
  exists forest trees,
    parseDependencyTree treeText = Normal forest /\
    unfoldForest forest = Some trees /\
    (forall p parent c,
       nodes forest !! p = Some parent ->
       c ∈ DependencyNode.children parent ->
       (p < c < List.length (nodes forest))%nat) /\
    (forall p1 p2 parent1 parent2 c,
       nodes forest !! p1 = Some parent1 ->
       nodes forest !! p2 = Some parent2 ->
       c ∈ DependencyNode.children parent1 ->
       c ∈ DependencyNode.children parent2 ->
       p1 = p2) /\
    (forall r p parent,
       r ∈ roots forest ->
       nodes forest !! p = Some parent ->
       r ∉ DependencyNode.children parent).
Proof.
  unfold parseDependencyTree.
  destruct (parse_describes treeText) as (st & -> & Hst). simpl.
  pose proof Hst as (Hlen & _ & Hroots & _).
  assert (forall p parent c,
            heap st !! p = Some parent ->
            c ∈ DependencyNode.children parent ->
            (p < c < List.length (heap st))%nat) as Hup.
  { intros p parent c Hp Hc.
    pose proof (describes_edges _ _ _ _ _ Hst Hp Hc) as Hpar%parentAt_lt.
    rewrite length_fmap in Hpar. lia. }
  assert (is_Some (unfoldForest (mkForest (heap st) (rootNodes st))))
    as [trees Htrees].
  { unfold unfoldForest. cbn [nodes roots].
    apply mapM_is_Some_2, Forall_forall.
    intros r Hr. rewrite Hroots in Hr. unfold rootsOf in Hr.
    apply list_elem_of_filter in Hr as [_ Hr%elem_of_seq].
    rewrite length_fmap in Hr. unfold compose.
    apply (unfoldNode_succeeds _ Hup); lia. }
  exists (mkForest (heap st) (rootNodes st)), trees. simpl.
  split; [done|]. split; [done|]. split; [done|]. split.
  - intros p1 p2 parent1 parent2 c Hp1 Hp2 Hc1 Hc2.
    pose proof (describes_edges _ _ _ _ _ Hst Hp1 Hc1) as H1.
    pose proof (describes_edges _ _ _ _ _ Hst Hp2 Hc2) as H2.
    congruence.
  - intros r p parent Hr Hp Hc. rewrite Hroots in Hr. unfold rootsOf in Hr.
    apply list_elem_of_filter in Hr as [Hr0 _].
    pose proof (describes_edges _ _ _ _ _ Hst Hp Hc) as Hpar.
    unfold parentAt in Hpar. rewrite Hr0 in Hpar.
    by rewrite nearestShallower_0 in Hpar.
Qed.

(** X3. A decoded line of positive indentation level that has no line of
    smaller level in front of it gives a node that the result does not
    reach: it is not a root and it is the child of no node. *)
Theorem tree_parser_drops_orphans (treeText : string) (a indent : nat)
    (node : DependencyNode.t) :
  decodedTreeLines treeText !! a = Some (indent, node) ->
  indent <> 0%nat ->
  nearestShallower (take a ((decodedTreeLines treeText).*1)) indent = None ->
  exists forest,
    parseDependencyTree treeText = Normal forest /\
    (a < List.length (nodes forest))%nat /\
    (a ∉ roots forest) /\
    (forall p parent,
       nodes forest !! p = Some parent ->
       a ∉ DependencyNode.children parent).
Proof.
  intros Ha Hpos Hnone. unfold parseDependencyTree.
  destruct (parse_describes treeText) as (st & -> & Hst). simpl.
  pose proof Hst as (Hlen & _ & Hroots & _).
  assert ((decodedTreeLines treeText).*1 !! a = Some indent) as Hindent.
  { by rewrite list_lookup_fmap, Ha. }
  eexists. split; [done|]. simpl. split; [|split].
  - rewrite Hlen. by eapply lookup_lt_Some.
  - rewrite Hroots. unfold rootsOf. intros [Hr _]%list_elem_of_filter.
    congruence.
  - intros p parent Hp Hc.
    pose proof (describes_edges _ _ _ _ _ Hst Hp Hc) as Hpar.
    unfold parentAt in Hpar. rewrite Hindent in Hpar. congruence.
Qed.

Lemma tree_parser_drops_orphans_witness :
  decodedTreeLines "[INFO] |  +- com.foo:baz:jar:2.0" !! 0%nat =
    Some (1%nat, jarNode "baz" "2.0" []) /\
  1%nat <> 0%nat /\
  nearestShallower
    (take 0 ((decodedTreeLines "[INFO] |  +- com.foo:baz:jar:2.0").*1)) 1 =
    None /\
  exists forest,
    parseDependencyTree "[INFO] |  +- com.foo:baz:jar:2.0" = Normal forest /\
    (0 < List.length (nodes forest))%nat /\
    (0%nat ∉ roots forest) /\
    (forall p parent,
       nodes forest !! p = Some parent ->
       0%nat ∉ DependencyNode.children parent).
Proof.
  split; [reflexivity|]. split; [discriminate|]. split; [reflexivity|].
  apply (tree_parser_drops_orphans "[INFO] |  +- com.foo:baz:jar:2.0"
           0 1 (jarNode "baz" "2.0" []));
    [reflexivity | discriminate | reflexivity].
Defined.

End ForestFacts.

(** ** What the coordinate decoder accepts and returns *)

Module DecoderFacts.
Import Js MavenUtils ParserSpec JsFacts ParserFacts ListParserFacts.

Lemma length_splitGo sep s :
  List.length (snd (splitGo sep s)) = countChar sep s.
Proof.
  induction s as [|c s IH]; simpl; [done|].
  destruct (splitGo sep s) as [cur rest]. simpl in IH.
  destruct (Ascii.eqb c sep); simpl; lia.
Qed.

Lemma length_split sep s :
  List.length (split sep s) = S (countChar sep s).
Proof.
  unfold split. pose proof (length_splitGo sep s) as H.
  destruct (splitGo sep s) as [cur rest]. simpl in *. lia.
Qed.

(** X4. The coordinate decoder accepts a text exactly when the text has at
    least three colons; it asks nothing else of the fields, which may be
    empty. *)
Theorem decoder_accepts_three_colons (content : string) :
  (exists d, parseResolvedDependencyNode content = Normal (Some d)) <->
  (3 <= countChar ":" content)%nat.
Proof.
  unfold parseResolvedDependencyNode.
  pose proof (length_split ":" content) as Hlen.
  destruct (Nat.ltb_spec (List.length (split ":" content)) 4) as [Hlt|Hge].
  - split; [by intros [d [=]]|lia].
  - split; [lia|]. intros _.
    destruct (destructure_mandatory _ Hge) as ([g ->] & [a ->] & [t ->] & [v ->]).
    simpl. eauto.
Qed.

Lemma destructure_fields parts x :
  x ∈ [f_groupId (destructure parts); f_artifactId (destructure parts);
       f_type (destructure parts); f_version (destructure parts);
       f_scope (destructure parts); f_classifier (destructure parts)] ->
  forall field, x = Some field -> field ∈ parts.
Proof.
  intros Hx field ->. unfold destructure in Hx.
  repeat (match type of Hx with
          | context [if ?b then _ else _] => destruct b
          end);
    simpl in Hx;
    repeat (apply elem_of_cons in Hx as [Hx|Hx];
            [first [discriminate
                   | by (symmetry in Hx; eapply list_elem_of_lookup_2)]|]);
    by apply elem_of_nil in Hx.
Qed.

Lemma parsed_fields content d :
  parseResolvedDependencyNode content = Normal (Some d) ->
  Forall (fun field => isTrimmed field = true /\ colonFree field = true)
         (fieldsOf d).
Proof.
  unfold parseResolvedDependencyNode.
  destruct (List.length (split ":" content) <? 4)%nat; [done|].
  pose proof (split_no_separator ":" content) as Hparts.
  pose proof (destructure_fields (split ":" content)) as Hfrom.
  set (f := destructure (split ":" content)) in *.
  assert (forall x field, x ∈ [f_groupId f; f_artifactId f; f_type f;
                               f_version f; f_scope f; f_classifier f] ->
            x = Some field ->
            isTrimmed (trim field) = true /\ colonFree (trim field) = true)
    as Hok.
  { intros x field Hx ->. split; [apply trim_isTrimmed|].
    apply forallChars_trim.
    apply (proj1 (Forall_forall _ _) Hparts), (Hfrom _ Hx). done. }
  destruct (f_groupId f) as [g|] eqn:Eg; [|done].
  destruct (f_artifactId f) as [a|] eqn:Ea; [|done].
  destruct (f_type f) as [t|] eqn:Et; [|done].
  destruct (f_version f) as [v|] eqn:Ev; [|done].
  simpl. intros [= <-]. unfold fieldsOf. simpl.
  repeat (apply Forall_cons; split;
          [eapply Hok; [|done]; set_unfold; tauto|]).
  apply Forall_app. split.
  - destruct (f_scope f) as [x|] eqn:Es; simpl; [|done].
    apply Forall_cons; split; [|done]. eapply Hok; [|done]. set_unfold; tauto.
  - destruct (f_classifier f) as [x|] eqn:Ec; simpl; [|done].
    apply Forall_cons; split; [|done]. eapply Hok; [|done]. set_unfold; tauto.
Qed.

(** X5. Every node that the tree node parser returns has fields without
    surrounding white space and without a colon, no children, and a reason
    that is absent or one of conflict, duplicate, cycle and managed. *)
Theorem tree_node_shape (content : string) (node : DependencyNode.t) :
  parseDependencyNode content = Normal (Some node) ->
  Forall (fun field => isTrimmed field = true /\ colonFree field = true)
         (fieldsOf (coordinatesOf node)) /\
  DependencyNode.children node = [] /\
  DependencyNode.omittedReason node ∈ knownReasons.
Proof.
  rewrite parseDependencyNode_decodes.
  assert (forall reason clean,
            decodeNode reason clean = Normal (Some node) ->
            Forall (fun field => isTrimmed field = true /\
                                 colonFree field = true)
                   (fieldsOf (coordinatesOf node)) /\
            DependencyNode.children node = [] /\
            DependencyNode.omittedReason node = reason) as Hdecode.
  { intros reason clean. unfold decodeNode.
    destruct (parseResolvedDependencyNode clean) as [[d|]|] eqn:E; [|done..].
    simpl. intros [= <-]. split; [|done].
    apply parsed_fields in E. by destruct d. }
  destruct (matchOmitted omittedPatterns (unwrapped content))
    as [[reason clean]|] eqn:Hm.
  - intros (Hf & Hc & ->)%Hdecode. split; [done|]. split; [done|].
    unfold omittedPatterns in Hm. simpl in Hm. unfold knownReasons.
    repeat (match type of Hm with
            | context [match ?x with _ => _ end] => destruct x
            end; [injection Hm as <- _; set_unfold; tauto|]).
    done.
  - intros (Hf & Hc & ->)%Hdecode. split; [done|]. split; [done|].
    by left.
Qed.

Lemma tree_node_shape_witness :
  parseDependencyNode "(com.foo:baz:jar:2.0 - omitted for duplicate)" =
    Normal (Some (DependencyNode.mk "com.foo" "baz" "jar" "2.0" None None []
                    (Some "duplicate"))) /\
  Forall (fun field => isTrimmed field = true /\ colonFree field = true)
         (fieldsOf (coordinatesOf
            (DependencyNode.mk "com.foo" "baz" "jar" "2.0" None None []
               (Some "duplicate")))) /\
  DependencyNode.children
    (DependencyNode.mk "com.foo" "baz" "jar" "2.0" None None []
       (Some "duplicate")) = [] /\
  DependencyNode.omittedReason
    (DependencyNode.mk "com.foo" "baz" "jar" "2.0" None None []
       (Some "duplicate")) ∈ knownReasons.
Proof.
  split; [reflexivity|].
  apply (tree_node_shape "(com.foo:baz:jar:2.0 - omitted for duplicate)").
  reflexivity.
Defined.

(** X6. The key of the duplicate check of the list parser identifies the
    pair (groupId, artifactId): two decoded records have the same key
    exactly when they have the same pair. *)
Theorem dependencyKey_identifies_pair (content1 content2 : string)
    (d1 d2 : ResolvedDependency.t) :
  parseResolvedDependencyNode content1 = Normal (Some d1) ->
  parseResolvedDependencyNode content2 = Normal (Some d2) ->
  (dependencyKey d1 = dependencyKey d2 <->
   coordinatePair d1 = coordinatePair d2).
Proof.
  intros H1 H2. split.
  - apply dependencyKey_inj; by eapply parsed_groupId_colonFree.
  - unfold coordinatePair, dependencyKey. by intros [= -> ->].
Qed.

Lemma dependencyKey_identifies_pair_witness :
  parseResolvedDependencyNode "com.foo:bar:jar:1.0:compile" =
    Normal (Some (ResolvedDependency.mk "com.foo" "bar" "jar" "1.0"
                    (Some "compile") None)) /\
  parseResolvedDependencyNode "com.foo:bar:jar:2.0:test" =
    Normal (Some (ResolvedDependency.mk "com.foo" "bar" "jar" "2.0"
                    (Some "test") None)) /\
  (dependencyKey (ResolvedDependency.mk "com.foo" "bar" "jar" "1.0"
                    (Some "compile") None) =
   dependencyKey (ResolvedDependency.mk "com.foo" "bar" "jar" "2.0"
                    (Some "test") None) <->
   coordinatePair (ResolvedDependency.mk "com.foo" "bar" "jar" "1.0"
                     (Some "compile") None) =
   coordinatePair (ResolvedDependency.mk "com.foo" "bar" "jar" "2.0"
                     (Some "test") None)).
Proof.
  split; [reflexivity|]. split; [reflexivity|].
  apply (dependencyKey_identifies_pair "com.foo:bar:jar:1.0:compile"
           "com.foo:bar:jar:2.0:test"); reflexivity.
Defined.

End DecoderFacts.

(** ** invalidate, clearAll and getStats; how the cache operations compose *)

Module CacheLifecycleFacts.
Import Js CacheManager CacheSpec OmissionFacts CacheFacts.

Lemma length_append s t :
  String.length (s +:+ t) = (String.length s + String.length t)%nat.
Proof.
  induction s as [|c s IH]; [done|]. rewrite append_cons. simpl. by rewrite IH.
Qed.

Lemma append_inj_r s a b : a +:+ s = b +:+ s -> a = b.
Proof.
  revert b. induction a as [|x a IH]; intros [|y b] H.
  - done.
  - apply (f_equal String.length) in H.
    rewrite append_nil_l, append_cons in H. simpl in H.
    rewrite length_append in H. lia.
  - apply (f_equal String.length) in H.
    rewrite append_nil_l, append_cons in H. simpl in H.
    rewrite length_append in H. lia.
  - rewrite !append_cons in H. injection H as -> H. f_equal. by apply IH.
Qed.

Lemma prefix_append s t : String.prefix s (s +:+ t) = true.
Proof.
  induction s as [|c s IH]; [by destruct t|].
  rewrite append_cons. simpl. by destruct (ascii_dec c c).
Qed.

Section WithPayload.
Context {Data : Type}.
Variable jsonLength : Data -> option Z.
Variable md5 : string -> string.
Variable deleteRejects : string -> bool.

(** *** The keys of the three tiers *)

Lemma generateCacheKey_inj pomPath k1 k2 :
  generateCacheKey pomPath k1 = generateCacheKey pomPath k2 -> k1 = k2.
Proof.
  unfold generateCacheKey. intros H.
  by do 2 apply (inj (String.app _)) in H.
Qed.

Lemma getWorkspaceStateKey_inj pomPath k1 k2 :
  getWorkspaceStateKey md5 pomPath k1 = getWorkspaceStateKey md5 pomPath k2 ->
  k1 = k2.
Proof.
  unfold getWorkspaceStateKey. intros H%(inj (String.app _)).
  by apply append_inj_r in H.
Qed.

Lemma getCacheFilePath_inj pomPath k1 k2 :
  getCacheFilePath md5 pomPath k1 = getCacheFilePath md5 pomPath k2 ->
  k1 = k2.
Proof.
  unfold getCacheFilePath. intros H%(inj (String.app _)).
  by apply append_inj_r in H.
Qed.

Lemma getWorkspaceStateKey_prefix pomPath cacheKey :
  startsWith (getWorkspaceStateKey md5 pomPath cacheKey) "maven-cache-" = true.
Proof. apply prefix_append. Qed.

Lemma getCacheFilePath_prefix pomPath cacheKey :
  startsWith (getCacheFilePath md5 pomPath cacheKey) "cache-" = true.
Proof. apply prefix_append. Qed.

(** *** What [get] depends on *)

Lemma tierEntries_filesOf (w : World) (h : Host Data) pomPath cacheKey :
  tierEntries md5 w h pomPath cacheKey =
  [ memoryCache h !! generateCacheKey pomPath cacheKey;
    workspaceState h !! getWorkspaceStateKey md5 pomPath cacheKey;
    if storageUri w
    then filesOf h !! getCacheFilePath md5 pomPath cacheKey
    else None ].
Proof.
  unfold tierEntries, filesOf. by destruct (storageDirectory h).
Qed.

Lemma get_result_tiers (w : World) (h h' : Host Data) pomPath cacheKey :
  tierEntries md5 w h pomPath cacheKey = tierEntries md5 w h' pomPath cacheKey ->
  fst (get md5 w pomPath cacheKey false h) =
  fst (get md5 w pomPath cacheKey false h').
Proof.
  intros Htiers. rewrite !get_run, Htiers.
  by destruct (firstFresh _ _ _ _) as [[[|tier] hit]|].
Qed.

Lemma get_no_fresh (w : World) (h : Host Data) pomPath cacheKey :
  firstFresh w pomPath 0 (tierEntries md5 w h pomPath cacheKey) = None ->
  get md5 w pomPath cacheKey false h = (Normal None, h).
Proof. intros H. by rewrite get_run, H. Qed.

(** *** invalidate *)

Ltac run_more :=
  unfold invalidate, clearAll, deleteFileCache;
  unfold memoryDelete, memoryClear, workspaceStateRemove, workspaceStateKeys,
    readDirectory, deleteFile;
  unfold tryCatch, bind, ret, throw;
  simpl.

Ltac split_more :=
  repeat match goal with
         | |- context [match ?x with _ => _ end] =>
             lazymatch x with
             | context [match _ with _ => _ end] => fail
             | _ => destruct x eqn:?; simpl
             end
         end.

Lemma onlyRemoves_refl touched (m : gmap string (CacheData Data)) :
  onlyRemoves touched m m.
Proof. intros key. by left. Qed.

Lemma onlyRemoves_trans touched (m1 m2 m3 : gmap string (CacheData Data)) :
  onlyRemoves touched m1 m2 -> onlyRemoves touched m2 m3 ->
  onlyRemoves touched m1 m3.
Proof.
  intros H12 H23 key.
  destruct (H23 key) as [E23|[? ?]]; [|by right].
  rewrite E23. apply H12.
Qed.

Lemma onlyRemoves_delete (touched : string -> Prop)
    (m : gmap string (CacheData Data)) key :
  touched key -> onlyRemoves touched m (delete key m).
Proof.
  intros Ht key'. destruct (decide (key = key')) as [<-|Hne].
  - right. by rewrite lookup_delete_eq.
  - left. by rewrite lookup_delete_ne.
Qed.

Lemma forgets_refl pomPath (h : Host Data) : forgets md5 pomPath h h.
Proof. repeat split; apply onlyRemoves_refl. Qed.

Lemma forgets_trans pomPath (h1 h2 h3 : Host Data) :
  forgets md5 pomPath h1 h2 -> forgets md5 pomPath h2 h3 ->
  forgets md5 pomPath h1 h3.
Proof.
  intros (A1 & B1 & C1 & D1) (A2 & B2 & C2 & D2).
  repeat split; [by eapply onlyRemoves_trans..|congruence].
Qed.

Lemma forEach_cons {A} (body : A -> Op Data unit) x items (h : Host Data) :
  forEach body (x :: items) h =
  match body x h with
  | (Normal _, h') => forEach body items h'
  | (Throw e, h') => (Throw e, h')
  end.
Proof. reflexivity. Qed.

Lemma forEach_preserves {A} (R : Host Data -> Host Data -> Prop)
    (body : A -> Op Data unit) items :
  (forall h, R h h) ->
  (forall h1 h2 h3, R h1 h2 -> R h2 h3 -> R h1 h3) ->
  (forall x h, x ∈ items -> R h (snd (body x h))) ->
  forall h, R h (snd (forEach body items h)).
Proof.
  intros Hrefl Htrans. induction items as [|x items IH]; intros Hbody h.
  { apply Hrefl. }
  rewrite forEach_cons.
  pose proof (Hbody x h ltac:(by left)) as Hx.
  destruct (body x h) as [[[]|e] h1]; simpl in *; [|done].
  eapply Htrans; [done|]. apply IH. intros y h' Hy. apply Hbody. by right.
Qed.

(** One iteration of the loop of [invalidate]. *)
Abbreviation invalidateStep w pomPath :=
  (fun cacheKey =>
     bind (memoryDelete (generateCacheKey pomPath cacheKey)) (fun _ =>
     bind (workspaceStateRemove w (getWorkspaceStateKey md5 pomPath cacheKey))
          (fun _ => deleteFileCache md5 w deleteRejects pomPath cacheKey)))
  (only parsing).

Lemma invalidateStep_forgets (w : World) pomPath cacheKey (h : Host Data) :
  cacheKey ∈ invalidatedKeys ->
  forgets md5 pomPath h (snd (invalidateStep w pomPath cacheKey h)).
Proof.
  intros Hk. destruct h as [memory small dir errors]. unfold forgets, filesOf.
  run_more. split_more; simpl;
    (split; [apply onlyRemoves_delete; by eauto|]);
    (split; [first [apply onlyRemoves_delete; by eauto
                   | apply onlyRemoves_refl]|]);
    (split; [|done]);
    first [apply onlyRemoves_delete; by eauto | apply onlyRemoves_refl].
Qed.

Lemma invalidateStep_ok (w : World) pomPath cacheKey (h : Host Data) :
  updateRejects w (getWorkspaceStateKey md5 pomPath cacheKey) = false ->
  fst (invalidateStep w pomPath cacheKey h) = Normal tt /\
  memoryCache (snd (invalidateStep w pomPath cacheKey h))
    !! generateCacheKey pomPath cacheKey = None /\
  workspaceState (snd (invalidateStep w pomPath cacheKey h))
    !! getWorkspaceStateKey md5 pomPath cacheKey = None /\
  (storageUri w = true ->
   deleteRejects (getCacheFilePath md5 pomPath cacheKey) = false ->
   filesOf (snd (invalidateStep w pomPath cacheKey h))
     !! getCacheFilePath md5 pomPath cacheKey = None).
Proof.
  intros Hupdate. destruct h as [memory small dir errors]. unfold filesOf.
  run_more. rewrite Hupdate. simpl.
  destruct (storageUri w); simpl.
  - destruct dir as [files|]; simpl.
    + destruct (files !! getCacheFilePath md5 pomPath cacheKey) eqn:Hfile;
        simpl.
      * destruct (deleteRejects _); simpl;
          rewrite !lookup_delete_eq; repeat split; try done.
      * rewrite !lookup_delete_eq. by repeat split.
    + rewrite !lookup_delete_eq. by repeat split.
  - rewrite !lookup_delete_eq. by repeat split.
Qed.

Lemma invalidateStep_rejected (w : World) pomPath cacheKey (h : Host Data) :
  updateRejects w (getWorkspaceStateKey md5 pomPath cacheKey) = true ->
  invalidateStep w pomPath cacheKey h =
  (Throw "UpdateRejected",
   mkHost (delete (generateCacheKey pomPath cacheKey) (memoryCache h))
          (workspaceState h) (storageDirectory h) (consoleErrors h)).
Proof. intros Hupdate. run_more. by rewrite Hupdate. Qed.

Lemma forgets_keeps_absent pomPath (h h' : Host Data) :
  forgets md5 pomPath h h' ->
  (forall key, memoryCache h !! key = None -> memoryCache h' !! key = None) /\
  (forall key, workspaceState h !! key = None ->
               workspaceState h' !! key = None) /\
  (forall name, filesOf h !! name = None -> filesOf h' !! name = None).
Proof.
  intros (A & B & C & _). repeat split; intros key Hnone.
  - destruct (A key) as [->|[_ ?]]; done.
  - destruct (B key) as [->|[_ ?]]; done.
  - destruct (C key) as [->|[_ ?]]; done.
Qed.

Lemma invalidate_loop_ok (w : World) pomPath items :
  forall h : Host Data,
    items ⊆ invalidatedKeys ->
    forallb (fun k => negb (updateRejects w
                              (getWorkspaceStateKey md5 pomPath k))) items
      = true ->
    fst (forEach (invalidateStep w pomPath) items h) = Normal tt /\
    (forall k, k ∈ items ->
       memoryCache (snd (forEach (invalidateStep w pomPath) items h))
         !! generateCacheKey pomPath k = None /\
       workspaceState (snd (forEach (invalidateStep w pomPath) items h))
         !! getWorkspaceStateKey md5 pomPath k = None /\
       (storageUri w = true ->
        deleteRejects (getCacheFilePath md5 pomPath k) = false ->
        filesOf (snd (forEach (invalidateStep w pomPath) items h))
          !! getCacheFilePath md5 pomPath k = None)).
Proof.
  induction items as [|x items IH]; intros h Hsub Hok.
  { split; [done|]. intros k Hk. by apply elem_of_nil in Hk. }
  simpl in Hok. apply andb_prop in Hok as [Hx%negb_true_iff Hrest].
  rewrite forEach_cons.
  pose proof (invalidateStep_ok w pomPath x h Hx) as (Hfst & Hm & Hw & Hf).
  destruct (invalidateStep w pomPath x h) as [[[]|e] h1] eqn:Hstep;
    simpl in *; [|done].
  assert (items ⊆ invalidatedKeys) as Hsub'.
  { intros y Hy. apply Hsub. by right. }
  destruct (IH h1 Hsub' Hrest) as [Hnormal Hgone].
  split; [done|]. intros k [->|Hk]%elem_of_cons; [|by apply Hgone].
  assert (forgets md5 pomPath h1
            (snd (forEach (invalidateStep w pomPath) items h1))) as Hshrink.
  { apply forEach_preserves;
      [apply forgets_refl | apply forgets_trans |].
    intros y h' Hy. apply invalidateStep_forgets. by apply Hsub'. }
  apply forgets_keeps_absent in Hshrink as (A & B & C).
  split; [by apply A|]. split; [by apply B|]. intros Huri Hdel.
  apply C. by apply Hf.
Qed.

(** X7. When no update of the workspace state and no deletion of a file is
    rejected, [invalidate] returns and a [get] that follows it misses for
    each of the kinds dependencyTree, resolvedDependencies and
    effectivePom of the source path, whatever the tiers held before. *)
Theorem invalidate_then_get_misses (w wGet : World) (h : Host Data)
    (pomPath : string) :
  forallb (fun k => negb (updateRejects w
                            (getWorkspaceStateKey md5 pomPath k)))
          invalidatedKeys = true ->
  forallb (fun k => negb (deleteRejects (getCacheFilePath md5 pomPath k)))
          invalidatedKeys = true ->
  implb (storageUri wGet) (storageUri w) = true ->
  fst (invalidate md5 w deleteRejects pomPath h) = Normal tt /\
  Forall (fun cacheKey =>
            get md5 wGet pomPath cacheKey false
              (afterInvalidate md5 w deleteRejects h pomPath) =
            (Normal None, afterInvalidate md5 w deleteRejects h pomPath))
         invalidatedKeys.
Proof.
  intros Hupdate Hdelete Huri.
  destruct (invalidate_loop_ok w pomPath invalidatedKeys h) as [Hfst Hgone];
    [done..|].
  split; [done|]. apply Forall_forall. intros k Hk.
  destruct (Hgone k Hk) as (Hm & Hw & Hf).
  assert (deleteRejects (getCacheFilePath md5 pomPath k) = false) as Hdel.
  { apply list_elem_of_In in Hk.
    apply (proj1 (forallb_forall _ _) Hdelete) in Hk.
    by apply negb_true_iff. }
  apply get_no_fresh. rewrite tierEntries_filesOf.
  unfold afterInvalidate, invalidate. rewrite Hm, Hw.
  destruct (storageUri wGet); [|done]. simpl in Huri.
  by rewrite (Hf Huri Hdel).
Qed.

Lemma invalidate_forgets (w : World) pomPath (h : Host Data) :
  forgets md5 pomPath h (afterInvalidate md5 w deleteRejects h pomPath).
Proof.
  unfold afterInvalidate, invalidate.
  apply forEach_preserves; [apply forgets_refl | apply forgets_trans |].
  intros k h' Hk. by apply invalidateStep_forgets.
Qed.

(** X8. [invalidate] covers the three kinds that it lists and no other:
    for a kind outside the list, every tier holds after [invalidate] what
    it held before for the source path, also when [invalidate] fails half
    way, and a [get] for that kind returns what it would have returned. *)
Theorem invalidate_keeps_other_kinds (w wGet : World) (h : Host Data)
    (pomPath cacheKey : string) :
  cacheKey ∉ invalidatedKeys ->
  tierEntries md5 wGet (afterInvalidate md5 w deleteRejects h pomPath)
    pomPath cacheKey =
  tierEntries md5 wGet h pomPath cacheKey /\
  fst (get md5 wGet pomPath cacheKey false
         (afterInvalidate md5 w deleteRejects h pomPath)) =
  fst (get md5 wGet pomPath cacheKey false h).
Proof.
  intros Hother.
  assert (tierEntries md5 wGet (afterInvalidate md5 w deleteRejects h pomPath)
            pomPath cacheKey = tierEntries md5 wGet h pomPath cacheKey)
    as Htiers.
  { destruct (invalidate_forgets w pomPath h) as (A & B & C & _).
    rewrite !tierEntries_filesOf.
    destruct (A (generateCacheKey pomPath cacheKey))
      as [->|[(k & Hk & ->%generateCacheKey_inj) _]]; [|done].
    destruct (B (getWorkspaceStateKey md5 pomPath cacheKey))
      as [->|[(k & Hk & ->%getWorkspaceStateKey_inj) _]]; [|done].
    destruct (C (getCacheFilePath md5 pomPath cacheKey))
      as [->|[(k & Hk & ->%getCacheFilePath_inj) _]]; done. }
  split; [done|]. by apply get_result_tiers.
Qed.

Lemma invalidate_loop_rejected (w : World) pomPath items :
  forall h : Host Data,
    existsb (fun k => updateRejects w (getWorkspaceStateKey md5 pomPath k))
            items = true ->
    fst (forEach (invalidateStep w pomPath) items h) = Throw "UpdateRejected".
Proof.
  induction items as [|x items IH]; intros h Hrej; [done|].
  rewrite forEach_cons. simpl in Hrej.
  destruct (updateRejects w (getWorkspaceStateKey md5 pomPath x)) eqn:Hx.
  - by rewrite invalidateStep_rejected.
  - pose proof (invalidateStep_ok w pomPath x h Hx) as (Hfst & _).
    destruct (invalidateStep w pomPath x h) as [[[]|e] h1]; simpl in *;
      [|done].
    by apply IH.
Qed.

(** X9. [invalidate] does not catch a rejected update of the workspace
    state: it throws as soon as the update for one of its kinds is
    rejected. When that is the update for dependencyTree, the first kind,
    nothing but the fast-tier entry of that kind has been removed. *)
Theorem invalidate_propagates_rejection (w : World) (h : Host Data)
    (pomPath : string) :
  (existsb (fun k => updateRejects w (getWorkspaceStateKey md5 pomPath k))
           invalidatedKeys = true ->
   fst (invalidate md5 w deleteRejects pomPath h) = Throw "UpdateRejected") /\
  (updateRejects w (getWorkspaceStateKey md5 pomPath "dependencyTree") = true ->
   invalidate md5 w deleteRejects pomPath h =
   (Throw "UpdateRejected",
    mkHost (delete (generateCacheKey pomPath "dependencyTree") (memoryCache h))
           (workspaceState h) (storageDirectory h) (consoleErrors h))).
Proof.
  split.
  - apply invalidate_loop_rejected.
  - intros Hrej. unfold invalidate, invalidatedKeys.
    by rewrite forEach_cons, invalidateStep_rejected.
Qed.

(** *** clearAll and getStats *)

Lemma clearAll_workspaceState_loop (w : World) keys :
  forall h : Host Data,
    (forall key, key ∈ keys -> startsWith key "maven-cache-" = true ->
                 updateRejects w key = false) ->
    exists small',
      forEach (fun key => if startsWith key "maven-cache-"
                          then workspaceStateRemove w key else ret tt)
              keys h =
      (Normal tt,
       mkHost (memoryCache h) small' (storageDirectory h) (consoleErrors h)) /\
      forall key,
        small' !! key =
        if bool_decide (key ∈ keys) && startsWith key "maven-cache-"
        then None else workspaceState h !! key.
Proof.
  clear md5 deleteRejects jsonLength.
  induction keys as [|x keys IH]; intros h Hok.
  { exists (workspaceState h). split; [by destruct h|]. intros key.
    by rewrite bool_decide_eq_false_2 by apply not_elem_of_nil. }
  rewrite forEach_cons.
  assert (forall key, key ∈ keys -> startsWith key "maven-cache-" = true ->
                      updateRejects w key = false) as Hok'.
  { intros key Hkey. apply Hok. by right. }
  destruct (startsWith x "maven-cache-") eqn:Hx.
  - unfold workspaceStateRemove. rewrite (Hok x) by (done || by left).
    destruct (IH (mkHost (memoryCache h) (delete x (workspaceState h))
                         (storageDirectory h) (consoleErrors h)) Hok')
      as (small' & Hrun & Hlook).
    exists small'. split; [done|]. intros key. rewrite Hlook. simpl.
    destruct (decide (key = x)) as [->|Hne].
    + rewrite Hx, lookup_delete_eq, (bool_decide_eq_true_2 (x ∈ x :: keys))
        by (by left).
      simpl. by destruct (bool_decide (x ∈ keys)).
    + rewrite lookup_delete_ne by done.
      destruct (decide (key ∈ keys)) as [Hin|Hnin].
      * by rewrite !bool_decide_eq_true_2 by (done || by right).
      * rewrite !bool_decide_eq_false_2; [done|by set_unfold; tauto|done].
  - destruct (IH h Hok') as (small' & Hrun & Hlook).
    exists small'. split; [done|]. intros key. rewrite Hlook.
    destruct (decide (key = x)) as [->|Hne].
    + rewrite Hx, !andb_false_r. done.
    + destruct (decide (key ∈ keys)) as [Hin|Hnin].
      * by rewrite !bool_decide_eq_true_2 by (done || by right).
      * rewrite !bool_decide_eq_false_2; [done|by set_unfold; tauto|done].
Qed.

Lemma clearAll_files_loop names :
  forall (memory small files : gmap string (CacheData Data)) errors,
    NoDup names ->
    (forall name, name ∈ names -> is_Some (files !! name)) ->
    (forall name, name ∈ names -> startsWith name "cache-" = true ->
                  deleteRejects name = false) ->
    exists files',
      forEach (fun name => if startsWith name "cache-"
                           then deleteFile deleteRejects name else ret tt)
              names (mkHost memory small (Some files) errors) =
      (Normal tt, mkHost memory small (Some files') errors) /\
      forall name,
        files' !! name =
        if bool_decide (name ∈ names) && startsWith name "cache-"
        then None else files !! name.
Proof.
  clear md5 jsonLength.
  induction names as [|x names IH]; intros memory small files errors Hnd Hin Hok.
  { exists files. split; [done|]. intros name.
    by rewrite bool_decide_eq_false_2 by apply not_elem_of_nil. }
  apply NoDup_cons in Hnd as [Hx Hnd].
  rewrite forEach_cons.
  assert (forall name, name ∈ names -> startsWith name "cache-" = true ->
                       deleteRejects name = false) as Hok'.
  { intros name Hname. apply Hok. by right. }
  destruct (startsWith x "cache-") eqn:Hpre.
  - unfold deleteFile. simpl.
    destruct (Hin x ltac:(by left)) as [entry ->].
    rewrite (Hok x) by (done || by left).
    destruct (IH memory small (delete x files) errors Hnd) as (files' & Hrun & Hlook);
      [|done|].
    { intros name Hname. rewrite lookup_delete_ne by (by intros <-).
      apply Hin. by right. }
    exists files'. split; [done|]. intros name. rewrite Hlook.
    destruct (decide (name = x)) as [->|Hne].
    + rewrite Hpre, lookup_delete_eq, (bool_decide_eq_true_2 (x ∈ x :: names))
        by (by left).
      simpl. by destruct (bool_decide (x ∈ names)).
    + rewrite lookup_delete_ne by done.
      destruct (decide (name ∈ names)) as [Hn|Hnn].
      * by rewrite !bool_decide_eq_true_2 by (done || by right).
      * rewrite !bool_decide_eq_false_2; [done|by set_unfold; tauto|done].
  - unfold ret at 1.
    destruct (IH memory small files errors Hnd) as (files' & Hrun & Hlook);
      [|done|].
    { intros name Hname. apply Hin. by right. }
    exists files'. split; [done|]. intros name. rewrite Hlook.
    destruct (decide (name = x)) as [->|Hne].
    + rewrite Hpre, !andb_false_r. done.
    + destruct (decide (name ∈ names)) as [Hn|Hnn].
      * by rewrite !bool_decide_eq_true_2 by (done || by right).
      * rewrite !bool_decide_eq_false_2; [done|by set_unfold; tauto|done].
Qed.

(** What [clearAll] leaves when no removal is rejected. *)
Lemma clearAll_run (w : World) (h : Host Data) :
  (forall key, startsWith key "maven-cache-" = true ->
               updateRejects w key = false) ->
  (forall name, startsWith name "cache-" = true ->
                deleteRejects name = false) ->
  exists small' dir',
    clearAll w deleteRejects h =
    (Normal tt, mkHost ∅ small' dir' (consoleErrors h)) /\
    (forall key,
       small' !! key =
       if startsWith key "maven-cache-" then None
       else workspaceState h !! key) /\
    (forall name,
       default ∅ dir' !! name =
       if storageUri w && startsWith name "cache-"
       then None else filesOf h !! name).
Proof.
  intros Hupdate Hdelete. unfold clearAll.
  unfold bind, memoryClear, workspaceStateKeys.
  cbn [memoryCache workspaceState storageDirectory consoleErrors].
  destruct (clearAll_workspaceState_loop w
              (elements (dom (workspaceState h)))
              (mkHost ∅ (workspaceState h) (storageDirectory h)
                      (consoleErrors h)))
    as (small' & -> & Hsmall).
  { intros key _. apply Hupdate. }
  cbn [memoryCache workspaceState storageDirectory consoleErrors] in *.
  assert (forall key,
            small' !! key =
            if startsWith key "maven-cache-" then None
            else workspaceState h !! key) as Hsmall'.
  { intros key. rewrite Hsmall.
    destruct (decide (key ∈ elements (dom (workspaceState h)))) as [Hin|Hnin].
    - by rewrite bool_decide_eq_true_2.
    - rewrite bool_decide_eq_false_2 by done. simpl.
      rewrite elem_of_elements, elem_of_dom in Hnin.
      destruct (workspaceState h !! key); [exfalso; eauto|].
      by destruct (startsWith _ _). }
  unfold filesOf.
  destruct (storageUri w); simpl.
  2:{ exists small', (storageDirectory h). by repeat split. }
  unfold tryCatch, bind, readDirectory. simpl.
  destruct (storageDirectory h) as [files|] eqn:Hdir; simpl.
  2:{ exists small', None. repeat split; try done.
      intros name. simpl. rewrite lookup_empty. by destruct (startsWith _ _). }
  destruct (clearAll_files_loop (elements (dom files)) ∅ small' files
              (consoleErrors h)) as (files' & -> & Hfiles).
  { apply NoDup_elements. }
  { intros name Hname%elem_of_elements. by apply elem_of_dom. }
  { intros name _. apply Hdelete. }
  exists small', (Some files'). repeat split; try done.
  intros name. simpl. rewrite Hfiles.
  destruct (startsWith name "cache-"); [|by rewrite andb_false_r].
  rewrite andb_true_r.
  destruct (decide (name ∈ elements (dom files))) as [Hin|Hnin].
  - by rewrite bool_decide_eq_true_2.
  - rewrite bool_decide_eq_false_2 by done.
    rewrite elem_of_elements, elem_of_dom in Hnin.
    by destruct (files !! name); [exfalso; eauto|].
Qed.

(** X10. When no removal is rejected, [clearAll] empties the fast tier,
    removes from the workspace state exactly the keys that start with
    maven-cache- and from the storage directory exactly the files that
    start with cache-, and leaves every other key and file as it was. *)
Theorem clearAll_removes_only_cache_keys (w : World) (h : Host Data) :
  (forall key, startsWith key "maven-cache-" = true ->
               updateRejects w key = false) ->
  (forall name, startsWith name "cache-" = true ->
                deleteRejects name = false) ->
  fst (clearAll w deleteRejects h) = Normal tt /\
  memoryCache (afterClearAll w deleteRejects h) = ∅ /\
  (forall key,
     workspaceState (afterClearAll w deleteRejects h) !! key =
     if startsWith key "maven-cache-" then None else workspaceState h !! key) /\
  (forall name,
     filesOf (afterClearAll w deleteRejects h) !! name =
     if storageUri w && startsWith name "cache-"
     then None else filesOf h !! name) /\
  consoleErrors (afterClearAll w deleteRejects h) = consoleErrors h.
Proof.
  intros Hupdate Hdelete. unfold afterClearAll.
  destruct (clearAll_run w h Hupdate Hdelete)
    as (small' & dir' & -> & Hsmall & Hfiles).
  by repeat split.
Qed.

(** X11. After a [clearAll] in which no removal is rejected, every [get]
    misses, for every source path and every kind. *)
Theorem clearAll_then_get_misses (w wGet : World) (h : Host Data)
    (pomPath cacheKey : string) :
  (forall key, startsWith key "maven-cache-" = true ->
               updateRejects w key = false) ->
  (forall name, startsWith name "cache-" = true ->
                deleteRejects name = false) ->
  implb (storageUri wGet) (storageUri w) = true ->
  get md5 wGet pomPath cacheKey false (afterClearAll w deleteRejects h) =
  (Normal None, afterClearAll w deleteRejects h).
Proof.
  intros Hupdate Hdelete Huri. unfold afterClearAll.
  destruct (clearAll_run w h Hupdate Hdelete)
    as (small' & dir' & -> & Hsmall & Hfiles).
  apply get_no_fresh. rewrite tierEntries_filesOf. unfold filesOf. simpl.
  rewrite lookup_empty, Hsmall, getWorkspaceStateKey_prefix, Hfiles.
  rewrite getCacheFilePath_prefix, andb_true_r.
  destruct (storageUri wGet); [|done]. simpl in Huri. by rewrite Huri.
Qed.

(** X12. After a [clearAll] in which no removal is rejected, [getStats]
    reports no entry in any tier, and it leaves the host as it is. *)
Theorem clearAll_then_getStats_zero (w wGet : World) (h : Host Data) :
  (forall key, startsWith key "maven-cache-" = true ->
               updateRejects w key = false) ->
  (forall name, startsWith name "cache-" = true ->
                deleteRejects name = false) ->
  implb (storageUri wGet) (storageUri w) = true ->
  getStats wGet (afterClearAll w deleteRejects h) =
  (Normal (mkCacheStats 0 0 0), afterClearAll w deleteRejects h).
Proof.
  intros Hupdate Hdelete Huri. unfold afterClearAll.
  destruct (clearAll_run w h Hupdate Hdelete)
    as (small' & dir' & -> & Hsmall & Hfiles).
  assert (forall (m : gmap string (CacheData Data)) (pre : string),
            (forall key, startsWith key pre = true -> m !! key = None) ->
            List.filter (fun key => startsWith key pre) (elements (dom m)) = [])
    as Hnone.
  { intros m pre Hm.
    assert (forall key, key ∈ elements (dom m) -> startsWith key pre = false)
      as Hall.
    { intros key Hkey%elem_of_elements%elem_of_dom.
      destruct (startsWith key pre) eqn:E; [|done].
      rewrite (Hm key E) in Hkey. by destruct Hkey. }
    induction (elements (dom m)) as [|x l IH]; [done|]. simpl.
    rewrite (Hall x) by (by left). apply IH. intros key Hkey.
    apply Hall. by right. }
  unfold getStats. simpl. rewrite map_size_empty.
  rewrite Hnone by (intros key Hkey; by rewrite Hsmall, Hkey). simpl.
  destruct (storageUri wGet); simpl; [|done]. simpl in Huri.
  unfold tryCatch, bind, readDirectory, ret. simpl.
  destruct dir' as [files'|]; simpl; [|done].
  rewrite Hnone; [done|]. intros name Hname.
  specialize (Hfiles name). simpl in Hfiles.
  by rewrite Hfiles, Huri, Hname.
Qed.

End WithPayload.

Lemma invalidate_then_get_misses_witness :
  forallb (fun k => negb (updateRejects quietWorld
                            (getWorkspaceStateKey pathDigest "/p/pom.xml" k)))
          invalidatedKeys = true /\
  forallb (fun k => negb (neverRejects
                            (getCacheFilePath pathDigest "/p/pom.xml" k)))
          invalidatedKeys = true /\
  implb (storageUri quietWorld) (storageUri quietWorld) = true /\
  fst (invalidate pathDigest quietWorld neverRejects "/p/pom.xml" fullHost) =
    Normal tt /\
  Forall (fun cacheKey =>
            get pathDigest quietWorld "/p/pom.xml" cacheKey false
              (afterInvalidate pathDigest quietWorld neverRejects fullHost
                 "/p/pom.xml") =
            (Normal None,
             afterInvalidate pathDigest quietWorld neverRejects fullHost
               "/p/pom.xml"))
         invalidatedKeys.
Proof.
  split; [reflexivity|]. split; [reflexivity|]. split; [reflexivity|].
  apply (invalidate_then_get_misses pathDigest neverRejects quietWorld
           quietWorld fullHost "/p/pom.xml"); reflexivity.
Defined.

Lemma invalidate_keeps_other_kinds_witness :
("pluginTree" ∉ invalidatedKeys) /\
  tierEntries pathDigest quietWorld
    (afterInvalidate pathDigest quietWorld neverRejects fullHost "/p/pom.xml")
    "/p/pom.xml" "pluginTree" =
  tierEntries pathDigest quietWorld fullHost "/p/pom.xml" "pluginTree" /\
  fst (get pathDigest quietWorld "/p/pom.xml" "pluginTree" false
         (afterInvalidate pathDigest quietWorld neverRejects fullHost
            "/p/pom.xml")) =
  fst (get pathDigest quietWorld "/p/pom.xml" "pluginTree" false fullHost).
Proof.
  split; [by compute_done|].
  apply (invalidate_keeps_other_kinds pathDigest neverRejects quietWorld
           quietWorld fullHost "/p/pom.xml" "pluginTree").
  by compute_done.
Defined.

Lemma invalidate_propagates_rejection_witness :
  updateRejects rejectingWorld
    (getWorkspaceStateKey pathDigest "/p/pom.xml" "dependencyTree") = true /\
  invalidate pathDigest rejectingWorld neverRejects "/p/pom.xml" fullHost =
  (Throw "UpdateRejected",
   mkHost (delete (generateCacheKey "/p/pom.xml" "dependencyTree")
                  (memoryCache fullHost))
          (workspaceState fullHost) (storageDirectory fullHost)
          (consoleErrors fullHost)).
Proof.
  split; [reflexivity|].
  apply (proj2 (invalidate_propagates_rejection pathDigest neverRejects
                  rejectingWorld fullHost "/p/pom.xml")).
  reflexivity.
Defined.

Lemma clearAll_removes_only_cache_keys_witness :
  (forall key, startsWith key "maven-cache-" = true ->
               updateRejects quietWorld key = false) /\
  (forall name, startsWith name "cache-" = true ->
                neverRejects name = false) /\
  fst (clearAll quietWorld neverRejects fullHost) = Normal tt /\
  memoryCache (afterClearAll quietWorld neverRejects fullHost) = ∅ /\
  (forall key,
     workspaceState (afterClearAll quietWorld neverRejects fullHost) !! key =
     if startsWith key "maven-cache-" then None
     else workspaceState fullHost !! key) /\
  (forall name,
     filesOf (afterClearAll quietWorld neverRejects fullHost) !! name =
     if storageUri quietWorld && startsWith name "cache-"
     then None else filesOf fullHost !! name) /\
  consoleErrors (afterClearAll quietWorld neverRejects fullHost) =
  consoleErrors fullHost.
Proof.
  split; [intros; reflexivity|]. split; [intros; reflexivity|].
  apply (clearAll_removes_only_cache_keys neverRejects quietWorld fullHost);
    intros; reflexivity.
Defined.

Lemma clearAll_then_get_misses_witness :
  (forall key, startsWith key "maven-cache-" = true ->
               updateRejects quietWorld key = false) /\
  (forall name, startsWith name "cache-" = true ->
                neverRejects name = false) /\
  implb (storageUri quietWorld) (storageUri quietWorld) = true /\
  get pathDigest quietWorld "/p/pom.xml" "dependencyTree" false
    (afterClearAll quietWorld neverRejects fullHost) =
  (Normal None, afterClearAll quietWorld neverRejects fullHost).
Proof.
  split; [intros; reflexivity|]. split; [intros; reflexivity|].
  split; [reflexivity|].
  apply (clearAll_then_get_misses pathDigest neverRejects quietWorld
           quietWorld fullHost "/p/pom.xml" "dependencyTree");
    intros; reflexivity.
Defined.

Lemma clearAll_then_getStats_zero_witness :
  (forall key, startsWith key "maven-cache-" = true ->
               updateRejects quietWorld key = false) /\
  (forall name, startsWith name "cache-" = true ->
                neverRejects name = false) /\
  implb (storageUri quietWorld) (storageUri quietWorld) = true /\
  getStats quietWorld (afterClearAll quietWorld neverRejects fullHost) =
  (Normal (mkCacheStats 0 0 0), afterClearAll quietWorld neverRejects fullHost).
Proof.
  split; [intros; reflexivity|]. split; [intros; reflexivity|].
  split; [reflexivity|].
  apply (clearAll_then_getStats_zero neverRejects quietWorld quietWorld
           fullHost); intros; reflexivity.
Defined.

End CacheLifecycleFacts.

(** ** What [set] and [get] leave alone *)

Module CacheCoherenceFacts.
Import Js CacheManager ParserSpec CacheSpec OmissionFacts CacheFacts.
Import CacheLifecycleFacts.

Lemma colonFree_separator a b : colonFree (a +:+ String ":" b) = false.
Proof.
  unfold colonFree. induction a as [|c a IH].
  - rewrite append_nil_l. done.
  - rewrite append_cons. simpl. rewrite IH. apply andb_false_r.
Qed.

(** Two texts behind the same separator are equal as soon as neither
    contains the separator. *)
Lemma append_last_separator_inj p1 p2 k1 k2 :
  colonFree k1 = true -> colonFree k2 = true ->
  p1 +:+ String ":" k1 = p2 +:+ String ":" k2 ->
  p1 = p2 /\ k1 = k2.
Proof.
  intros H1 H2. revert p2.
  induction p1 as [|c p1 IH]; intros [|d p2];
    rewrite ?append_nil_l, ?append_cons.
  - by intros [= ->].
  - intros [= <- ->]. by rewrite colonFree_separator in H1.
  - intros [= -> <-]. by rewrite colonFree_separator in H2.
  - intros [= -> Heq]. by destruct (IH _ Heq) as [-> ->].
Qed.

Lemma append_same_length_inj a1 a2 b1 b2 :
  String.length b1 = String.length b2 ->
  a1 +:+ b1 = a2 +:+ b2 -> a1 = a2 /\ b1 = b2.
Proof.
  intros Hlen. revert a2.
  induction a1 as [|c a1 IH]; intros [|d a2];
    rewrite ?append_nil_l, ?append_cons.
  - done.
  - intros ->. rewrite <- append_cons, length_append in Hlen. simpl in Hlen. lia.
  - intros <-. rewrite <- append_cons, length_append in Hlen. simpl in Hlen. lia.
  - intros [= -> Heq]. by destruct (IH _ Heq) as [-> ->].
Qed.

Section WithPayload.
Context {Data : Type}.
Variable jsonLength : Data -> option Z.
Variable md5 : string -> string.

Ltac run_cache :=
  unfold set, get, setToFileCache, getFromFileCache;
  unfold ensureStorageDirectory, stat, memoryGet, memorySet,
    workspaceStateGet, workspaceStateUpdate, readFile, writeFile,
    consoleError, fresh;
  unfold tryCatch, bind, ret, throw;
  simpl.

Ltac split_run :=
  repeat match goal with
         | |- context [match ?x with _ => _ end] =>
             lazymatch x with
             | context [match _ with _ => _ end] => fail
             | _ => destruct x eqn:?; simpl
             end
         end.

Lemma onlyStores_refl target stored (m : gmap string (CacheData Data)) :
  onlyStores target stored m m.
Proof. intros key. by left. Qed.

Lemma onlyStores_insert target (stored : CacheData Data -> Prop)
    (m : gmap string (CacheData Data)) entry :
  stored entry -> onlyStores target stored m (<[target := entry]> m).
Proof.
  intros Hentry key. destruct (decide (key = target)) as [->|Hne].
  - right. split; [done|]. exists entry. by rewrite lookup_insert_eq.
  - left. by rewrite lookup_insert_ne.
Qed.

(** In each tier [set] changes at most the entry of its own key, and then
    to the entry that it builds. *)
Lemma set_stores (w : World) (h : Host Data) (pomPath cacheKey : string)
    (d : Data) :
  onlyStores (generateCacheKey pomPath cacheKey) (builtBy w pomPath d)
    (memoryCache h)
    (memoryCache (afterSet jsonLength md5 w h pomPath cacheKey d)) /\
  onlyStores (getWorkspaceStateKey md5 pomPath cacheKey) (builtBy w pomPath d)
    (workspaceState h)
    (workspaceState (afterSet jsonLength md5 w h pomPath cacheKey d)) /\
  onlyStores (getCacheFilePath md5 pomPath cacheKey) (builtBy w pomPath d)
    (filesOf h)
    (filesOf (afterSet jsonLength md5 w h pomPath cacheKey d)).
Proof.
  unfold afterSet, filesOf. destruct h as [memory small dir errors].
  run_cache. destruct (mtime w pomPath) as [pomStat|] eqn:Hm; simpl.
  2:{ repeat split; apply onlyStores_refl. }
  assert (builtBy w pomPath d (entryOf w d pomStat)) as Hbuilt.
  { by exists pomStat. }
  split_run; simpl; repeat split;
    first [ apply onlyStores_refl
          | by apply onlyStores_insert
          | idtac ].
Qed.

(** X13. [set] for one kind leaves the other kinds of the path alone: for
    every other kind each tier holds afterwards what it held before, and a
    [get] for that kind returns what it would have returned. *)
Theorem set_keeps_other_kinds (w wGet : World) (h : Host Data)
    (pomPath cacheKey other : string) (d : Data) :
  other <> cacheKey ->
  tierEntries md5 wGet (afterSet jsonLength md5 w h pomPath cacheKey d)
    pomPath other =
  tierEntries md5 wGet h pomPath other /\
  fst (get md5 wGet pomPath other false
         (afterSet jsonLength md5 w h pomPath cacheKey d)) =
  fst (get md5 wGet pomPath other false h).
Proof.
  intros Hother.
  assert (tierEntries md5 wGet (afterSet jsonLength md5 w h pomPath cacheKey d)
            pomPath other =
          tierEntries md5 wGet h pomPath other) as Htiers.
  { destruct (set_stores w h pomPath cacheKey d) as (Hmem & Hsmall & Hfiles).
    rewrite !tierEntries_filesOf.
    destruct (Hmem (generateCacheKey pomPath other))
      as [->|[Heq%generateCacheKey_inj _]]; [|done].
    destruct (Hsmall (getWorkspaceStateKey md5 pomPath other))
      as [->|[Heq%getWorkspaceStateKey_inj _]]; [|done].
    destruct (Hfiles (getCacheFilePath md5 pomPath other))
      as [->|[Heq%getCacheFilePath_inj _]]; done. }
  split; [done|]. by apply get_result_tiers.
Qed.

Lemma firstFresh_valid (w : World) pomPath entries :
  forall tier found (hit : CacheData Data),
    firstFresh w pomPath tier entries = Some (found, hit) ->
    isCacheValid w hit pomPath = true.
Proof.
  induction entries as [|[entry|] entries IH]; intros tier found hit; simpl.
  - done.
  - destruct (isCacheValid w entry pomPath) eqn:E; [|by apply IH].
    by intros [= _ <-].
  - apply IH.
Qed.

(** X14. [get] is idempotent and reads the persistent tiers only: a second
    [get] for the same key under the same conditions returns what the first
    returned and changes nothing any more, and the first changes neither
    the workspace state nor the storage directory nor the error console. *)
Theorem get_idempotent (w : World) (h : Host Data)
    (pomPath cacheKey : string) :
  get md5 w pomPath cacheKey false (afterGet md5 w h pomPath cacheKey) =
  (fst (get md5 w pomPath cacheKey false h),
   afterGet md5 w h pomPath cacheKey) /\
  workspaceState (afterGet md5 w h pomPath cacheKey) = workspaceState h /\
  storageDirectory (afterGet md5 w h pomPath cacheKey) = storageDirectory h /\
  consoleErrors (afterGet md5 w h pomPath cacheKey) = consoleErrors h.
Proof.
  unfold afterGet. rewrite (get_run md5 w h).
  destruct (firstFresh w pomPath 0 (tierEntries md5 w h pomPath cacheKey))
    as [[[|tier] hit]|] eqn:Hfirst; cbn [fst snd].
  - by rewrite get_run, Hfirst.
  - apply firstFresh_valid in Hfirst. rewrite get_run. unfold tierEntries.
    simpl. by rewrite lookup_insert_eq, Hfirst.
  - by rewrite get_run, Hfirst.
Qed.

Lemma firstFresh_stale (w : World) pomPath entries :
  Forall (fun tier : option (CacheData Data) =>
            match tier with
            | Some entry => isCacheValid w entry pomPath = false
            | None => True
            end) entries ->
  forall tier, firstFresh w pomPath tier entries = None.
Proof.
  induction 1 as [|[entry|] entries Hentry _ IH]; intros tier; simpl.
  - done.
  - by rewrite Hentry.
  - apply IH.
Qed.

Lemma isCacheValid_modified (w : World) (entry : CacheData Data) pomPath
    current :
  mtime w pomPath = Some current ->
  (pomMtime entry < current)%Z ->
  isCacheValid w entry pomPath = false.
Proof.
  intros Hm Hlt. unfold isCacheValid. rewrite Hm.
  destruct (negb _); [done|]. destruct (_ >? _)%Z; [done|].
  destruct (Z.gtb_spec current (pomMtime entry)); [done|lia].
Qed.

(** X15. A modification of the source file after [set] makes the entry
    useless: when the source file is newer at the time of [get] than it was
    at the time of [set], and newer than what the tiers held before, [get]
    misses and changes nothing. *)
Theorem set_then_modify_then_get_misses (wSet wGet : World) (h : Host Data)
    (pomPath cacheKey : string) (d : Data) (mSet mGet : Z) :
  mtime wSet pomPath = Some mSet ->
  mtime wGet pomPath = Some mGet ->
  (mSet < mGet)%Z ->
  cachedBefore md5 wGet mGet h pomPath cacheKey ->
  get md5 wGet pomPath cacheKey false
    (afterSet jsonLength md5 wSet h pomPath cacheKey d) =
  (Normal None, afterSet jsonLength md5 wSet h pomPath cacheKey d).
Proof.
  intros HmSet HmGet Hlt Hold. apply get_no_fresh, firstFresh_stale.
  destruct (set_stores wSet h pomPath cacheKey d) as (Hmem & Hsmall & Hfiles).
  unfold cachedBefore in Hold. rewrite tierEntries_filesOf in *.
  assert (forall entry, builtBy wSet pomPath d entry ->
                        isCacheValid wGet entry pomPath = false) as Hnew.
  { intros entry (pomStat & Hstat & ->).
    apply (isCacheValid_modified _ _ _ mGet); [done|]. simpl. congruence. }
  assert (forall tier : option (CacheData Data),
            match tier with
            | Some entry => (pomMtime entry < mGet)%Z
            | None => True
            end ->
            match tier with
            | Some entry => isCacheValid wGet entry pomPath = false
            | None => True
            end) as Hstale.
  { intros [entry|]; [|done]. by apply isCacheValid_modified. }
  apply Forall_cons in Hold as [Hold1 Hold]. 
  apply Forall_cons in Hold as [Hold2 Hold].
  apply Forall_cons in Hold as [Hold3 _].
  repeat apply Forall_cons_2; [| | |done].
  - destruct (Hmem (generateCacheKey pomPath cacheKey))
      as [->|(_ & entry & Hentry & ->)]; [by apply Hstale|by apply Hnew].
  - destruct (Hsmall (getWorkspaceStateKey md5 pomPath cacheKey))
      as [->|(_ & entry & Hentry & ->)]; [by apply Hstale|by apply Hnew].
  - destruct (storageUri wGet); [|done].
    destruct (Hfiles (getCacheFilePath md5 pomPath cacheKey))
      as [->|(_ & entry & Hentry & ->)]; [by apply Hstale|by apply Hnew].
Qed.

(** X16. The key of the fast tier identifies the pair of source path and
    kind as long as the kinds have no colon: two such pairs have the same
    key exactly when they are the same pair. A colon in the kind can move
    to the path without changing the key. *)
Theorem generateCacheKey_identifies_pair (p1 k1 p2 k2 : string) :
  colonFree k1 = true -> colonFree k2 = true ->
  (generateCacheKey p1 k1 = generateCacheKey p2 k2 <-> p1 = p2 /\ k1 = k2) /\
  (forall p a b,
     generateCacheKey (p +:+ ":" +:+ a) b =
     generateCacheKey p (a +:+ ":" +:+ b)).
Proof.
  intros H1 H2. split.
  - split; [|by intros [-> ->]]. unfold generateCacheKey.
    by apply append_last_separator_inj.
  - intros p a b. unfold generateCacheKey.
    induction p as [|c p IH]; [by rewrite !append_nil_l|].
    rewrite !append_cons. by f_equal.
Qed.

(** X17. As the digest of a path has 32 characters whatever the path, the
    key of the small-persistent tier and the file name of the blob tier
    identify the pair of kind and digest: two pairs of path and kind share
    a persistent entry exactly when the kinds are equal and the paths have
    the same digest. *)
Theorem persistent_keys_identify_kind_and_digest (p1 k1 p2 k2 : string) :
  (forall p, String.length (md5 p) = 32%nat) ->
  (getWorkspaceStateKey md5 p1 k1 = getWorkspaceStateKey md5 p2 k2 <->
   k1 = k2 /\ md5 p1 = md5 p2) /\
  (getCacheFilePath md5 p1 k1 = getCacheFilePath md5 p2 k2 <->
   k1 = k2 /\ md5 p1 = md5 p2).
Proof.
  intros Hlen. unfold getWorkspaceStateKey, getCacheFilePath. split.
  - split; [|by intros [-> ->]]. intros H%(inj (String.app _)).
    apply append_same_length_inj in H as [-> H].
    + split; [done|]. by apply (inj (String.app _)) in H.
    + by rewrite !length_append, !Hlen.
  - split; [|by intros [-> ->]]. intros H%(inj (String.app _)).
    apply append_same_length_inj in H as [-> H].
    + split; [done|]. apply (inj (String.app _)) in H.
      apply append_same_length_inj in H as [H _]; done.
    + by rewrite !length_append, !Hlen.
Qed.

End WithPayload.

Lemma set_keeps_other_kinds_witness :
  "effectivePom" <> "dependencyTree" /\
  tierEntries pathDigest quietWorld
    (afterSet sizeOf pathDigest quietWorld fullHost "/p/pom.xml"
       "dependencyTree" 9%Z)
    "/p/pom.xml" "effectivePom" =
  tierEntries pathDigest quietWorld fullHost "/p/pom.xml" "effectivePom" /\
  fst (get pathDigest quietWorld "/p/pom.xml" "effectivePom" false
         (afterSet sizeOf pathDigest quietWorld fullHost "/p/pom.xml"
            "dependencyTree" 9%Z)) =
  fst (get pathDigest quietWorld "/p/pom.xml" "effectivePom" false fullHost).
Proof.
  split; [discriminate|].
  apply (set_keeps_other_kinds sizeOf pathDigest quietWorld quietWorld
           fullHost "/p/pom.xml" "dependencyTree" "effectivePom" 9%Z).
  discriminate.
Defined.

Lemma set_then_modify_then_get_misses_witness :
  mtime quietWorld "/p/pom.xml" = Some 500%Z /\
  mtime touchedWorld "/p/pom.xml" = Some 600%Z /\
  (500 < 600)%Z /\
  cachedBefore pathDigest touchedWorld 600 fullHost "/p/pom.xml"
    "dependencyTree" /\
  get pathDigest touchedWorld "/p/pom.xml" "dependencyTree" false
    (afterSet sizeOf pathDigest quietWorld fullHost "/p/pom.xml"
       "dependencyTree" 9%Z) =
  (Normal None,
   afterSet sizeOf pathDigest quietWorld fullHost "/p/pom.xml"
     "dependencyTree" 9%Z).
Proof.
  assert (cachedBefore pathDigest touchedWorld 600 fullHost "/p/pom.xml"
            "dependencyTree") as Hold.
  { unfold cachedBefore. vm_compute tierEntries.
    repeat constructor. }
  split; [reflexivity|]. split; [reflexivity|]. split; [reflexivity|].
  split; [exact Hold|].
  apply (set_then_modify_then_get_misses sizeOf pathDigest quietWorld
           touchedWorld fullHost "/p/pom.xml" "dependencyTree" 9%Z 500 600);
    [reflexivity|reflexivity|reflexivity|exact Hold].
Defined.

Lemma generateCacheKey_identifies_pair_witness :
  colonFree "dependencyTree" = true /\
  colonFree "effectivePom" = true /\
  (generateCacheKey "/a/pom.xml" "dependencyTree" =
   generateCacheKey "/b/pom.xml" "effectivePom" <->
   "/a/pom.xml" = "/b/pom.xml" /\ "dependencyTree" = "effectivePom") /\
  (forall p a b,
     generateCacheKey (p +:+ ":" +:+ a) b =
     generateCacheKey p (a +:+ ":" +:+ b)).
Proof.
  split; [reflexivity|]. split; [reflexivity|].
  apply (generateCacheKey_identifies_pair "/a/pom.xml" "dependencyTree"
           "/b/pom.xml" "effectivePom"); reflexivity.
Defined.

Lemma persistent_keys_identify_kind_and_digest_witness :
  (forall p, String.length (constantDigest p) = 32%nat) /\
  (getWorkspaceStateKey constantDigest "/a/pom.xml" "dependencyTree" =
   getWorkspaceStateKey constantDigest "/b/pom.xml" "effectivePom" <->
   "dependencyTree" = "effectivePom" /\
   constantDigest "/a/pom.xml" = constantDigest "/b/pom.xml") /\
  (getCacheFilePath constantDigest "/a/pom.xml" "dependencyTree" =
   getCacheFilePath constantDigest "/b/pom.xml" "effectivePom" <->
   "dependencyTree" = "effectivePom" /\
   constantDigest "/a/pom.xml" = constantDigest "/b/pom.xml").
Proof.
  split; [intros; reflexivity|].
  apply (persistent_keys_identify_kind_and_digest constantDigest
           "/a/pom.xml" "dependencyTree" "/b/pom.xml" "effectivePom").
  intros; reflexivity.
Defined.

End CacheCoherenceFacts.

(** ** The retry loop *)

Module RetryFacts.
Import Js MavenUtils RetrySpec.

Lemma backoff_waitAfter (attempt : Z) :
  (1 <= attempt)%Z ->
  Z.min (1000 * 2 ^ (attempt - 1)) 5000 = waitAfter attempt.
Proof.
  intros Hattempt. unfold waitAfter.
  destruct (Z.eqb_spec attempt 1) as [->|H1]; [done|].
  destruct (Z.eqb_spec attempt 2) as [->|H2]; [done|].
  destruct (Z.eqb_spec attempt 3) as [->|H3]; [done|].
  assert (2 ^ 3 <= 2 ^ (attempt - 1))%Z as Hpow.
  { apply Z.pow_le_mono_r; lia. }
  change (2 ^ 3)%Z with 8%Z in Hpow. lia.
Qed.

Lemma waitAfter_bounds (attempt : Z) :
  (1000 <= waitAfter attempt <= 5000)%Z.
Proof.
  unfold waitAfter. repeat destruct (_ =? _)%Z; lia.
Qed.

Section Retry.
Variable networkConnection : string.
Variable execAsync : Z -> ExecResult + ExecError.

(** A run of the loop that starts with [attempt], up to the attempt that
    ends it. *)
Lemma retryLoop_stops_at (maxRetries : Z) (retries : nat) :
  forall (fuel : nat) (attempt : Z) (lastError : option ExecError),
    (retries < fuel)%nat ->
    (1 <= attempt)%Z ->
    (attempt + Z.of_nat retries <= maxRetries)%Z ->
    (forall i, (attempt <= i < attempt + Z.of_nat retries)%Z ->
               retryable networkConnection (execAsync i) = true) ->
    retryable networkConnection (execAsync (attempt + Z.of_nat retries))
      = false \/
    (attempt + Z.of_nat retries)%Z = maxRetries ->
    retryLoop networkConnection execAsync maxRetries fuel attempt lastError =
    Some (schedule attempt retries,
          outcomeOf (execAsync (attempt + Z.of_nat retries))).
Proof.
  induction retries as [|retries IH];
    intros [|fuel] attempt lastError Hfuel Hattempt Hmax Hbefore Hlast;
    try lia; cbn [retryLoop schedule].
  - rewrite Z.add_0_r in *.
    destruct (Z.leb_spec attempt maxRetries); [|lia].
    unfold retryable, outcomeOf in *.
    destruct (execAsync attempt) as [[out err]|error]; [done|].
    destruct Hlast as [->|Hlast]; [done|].
    destruct (Z.ltb_spec attempt maxRetries); [lia|].
    by rewrite andb_false_r.
  - destruct (Z.leb_spec attempt maxRetries); [|lia].
    pose proof (Hbefore attempt ltac:(lia)) as Hfirst.
    unfold retryable in Hfirst.
    destruct (execAsync attempt) as [result|error]; [done|].
    rewrite Hfirst. destruct (Z.ltb_spec attempt maxRetries); [|lia].
    cbn [andb].
    rewrite (IH fuel (attempt + 1)%Z (Some error)); try lia.
    + rewrite backoff_waitAfter by done.
      by replace (attempt + 1 + Z.of_nat retries)%Z
        with (attempt + Z.of_nat (S retries))%Z by lia.
    + intros i Hi. apply Hbefore. lia.
    + by replace (attempt + 1 + Z.of_nat retries)%Z
        with (attempt + Z.of_nat (S retries))%Z by lia.
Qed.

(** X18. With at least one attempt allowed, a run goes on as long as the
    attempts fail with a network error, and ends with the first attempt
    that succeeds, fails otherwise, or is the last one allowed: it returns
    or throws what that attempt gave, after waiting one, two, four and then
    five seconds between the attempts. *)
Theorem executeWithRetry_stops_at (maxRetries : Z) (retries : nat) :
  (1 + Z.of_nat retries <= maxRetries)%Z ->
  (forall i, (1 <= i < 1 + Z.of_nat retries)%Z ->
             retryable networkConnection (execAsync i) = true) ->
  retryable networkConnection (execAsync (1 + Z.of_nat retries)) = false \/
  (1 + Z.of_nat retries)%Z = maxRetries ->
  executeWithRetry networkConnection execAsync maxRetries =
  Some (schedule 1 retries, outcomeOf (execAsync (1 + Z.of_nat retries))).
Proof.
  intros Hmax Hbefore Hlast. unfold executeWithRetry.
  apply retryLoop_stops_at; try done; lia.
Qed.

(** The attempt that ends a run exists. *)
Lemma last_attempt_exists (maxRetries : Z) (budget : nat) :
  forall attempt,
    (attempt + Z.of_nat budget)%Z = maxRetries ->
    exists retries,
      (retries <= budget)%nat /\
      (forall i, (attempt <= i < attempt + Z.of_nat retries)%Z ->
                 retryable networkConnection (execAsync i) = true) /\
      (retryable networkConnection (execAsync (attempt + Z.of_nat retries))
         = false \/
       (attempt + Z.of_nat retries)%Z = maxRetries).
Proof.
  induction budget as [|budget IH]; intros attempt Hmax.
  { exists 0%nat. split; [done|]. split; [intros i Hi; lia|by right]. }
  destruct (retryable networkConnection (execAsync attempt)) eqn:Hfirst.
  - destruct (IH (attempt + 1)%Z ltac:(lia)) as (retries & Hle & Hbefore & Hlast).
    exists (S retries). split; [lia|]. split.
    + intros i Hi. destruct (decide (i = attempt)) as [->|Hne]; [done|].
      apply Hbefore. lia.
    + by replace (attempt + Z.of_nat (S retries))%Z
        with (attempt + 1 + Z.of_nat retries)%Z by lia.
  - exists 0%nat. split; [lia|]. split; [intros i Hi; lia|].
    left. by rewrite Z.add_0_r.
Qed.

Lemma executions_schedule attempt retries :
  executions (schedule attempt retries) = S retries.
Proof.
  revert attempt. unfold executions.
  induction retries as [|retries IH]; intros attempt; simpl; [done|].
  by rewrite IH.
Qed.

Lemma waits_Exec attempt events : waits (Exec attempt :: events) = waits events.
Proof. reflexivity. Qed.

Lemma waits_Sleep delay events :
  waits (Sleep delay :: events) = delay :: waits events.
Proof. reflexivity. Qed.

Lemma waits_schedule attempt retries :
  waits (schedule attempt retries) =
  (fun i => waitAfter (attempt + Z.of_nat i)) <$> seq 0 retries.
Proof.
  revert attempt.
  induction retries as [|retries IH]; intros attempt; cbn [schedule seq fmap list_fmap].
  { by rewrite waits_Exec. }
  rewrite waits_Exec, waits_Sleep, Z.add_0_r. f_equal.
  rewrite IH, <- fmap_S_seq, <- list_fmap_compose.
  apply list_fmap_ext. intros _ i _. simpl. f_equal. lia.
Qed.

Lemma waited_schedule attempt retries :
  (1000 * Z.of_nat retries <= waited (schedule attempt retries)
   <= 5000 * Z.of_nat retries)%Z.
Proof.
  revert attempt. unfold waited.
  induction retries as [|retries IH]; intros attempt; cbn [schedule].
  { rewrite waits_Exec. simpl. lia. }
  rewrite waits_Exec, waits_Sleep. cbn [foldr].
  pose proof (waitAfter_bounds attempt). pose proof (IH (attempt + 1)%Z). lia.
Qed.

(** X19. Whatever the attempts give, a run with at least one attempt
    allowed ends. It invokes the command at least once and at most
    [maxRetries] times and ends as its last invocation did, so that it
    never throws [undefined]; between two invocations it waits one, two,
    four and then five seconds, which is at most three seconds in all when
    three attempts are allowed. *)
Theorem executeWithRetry_ends (maxRetries : Z) :
  (1 <= maxRetries)%Z ->
  exists events outcome,
    executeWithRetry networkConnection execAsync maxRetries =
    Some (events, outcome) /\
    (1 <= executions events)%nat /\
    (Z.of_nat (executions events) <= maxRetries)%Z /\
    outcome = outcomeOf (execAsync (Z.of_nat (executions events))) /\
    outcome <> Thrown None /\
    waits events =
    (fun i => waitAfter (Z.of_nat i)) <$> seq 1 (pred (executions events)) /\
    (maxRetries <= 3 -> waited events <= 3000)%Z.
Proof.
  intros Hmax.
  destruct (last_attempt_exists maxRetries (Z.to_nat (maxRetries - 1)) 1%Z)
    as (retries & Hle & Hbefore & Hlast); [lia|].
  exists (schedule 1 retries), (outcomeOf (execAsync (1 + Z.of_nat retries))).
  split.
  { unfold executeWithRetry. apply retryLoop_stops_at; try done; lia. }
  rewrite executions_schedule, waits_schedule.
  replace (Z.of_nat (S retries)) with (1 + Z.of_nat retries)%Z by lia.
  repeat split; try lia.
  - by destruct (execAsync _).
  - cbn [pred]. rewrite <- fmap_S_seq, <- list_fmap_compose.
    apply list_fmap_ext. intros _ i _. simpl. f_equal. lia.
  - intros Hthree.
    assert (retries = 0 \/ retries = 1 \/ retries = 2)%nat
      as [->|[->| ->]] by lia; by vm_compute.
Qed.

(** X20. When no attempt is allowed, the command is not run at all, and
    the run throws [undefined], the initial value of the variable that
    holds the last error. *)
Theorem executeWithRetry_without_attempts (maxRetries : Z) :
  (maxRetries < 1)%Z ->
  executeWithRetry networkConnection execAsync maxRetries =
  Some ([], Thrown None).
Proof.
  intros Hmax. unfold executeWithRetry. cbn [retryLoop].
  by destruct (Z.leb_spec 1 maxRetries); [lia|].
Qed.

End Retry.

Lemma executeWithRetry_stops_at_witness :
  (1 + Z.of_nat 2 <= 3)%Z /\
  (forall i, (1 <= i < 1 + Z.of_nat 2)%Z ->
             retryable networkWord (thirdTime i) = true) /\
  (retryable networkWord (thirdTime (1 + Z.of_nat 2)) = false \/
   (1 + Z.of_nat 2)%Z = 3%Z) /\
  executeWithRetry networkWord thirdTime 3 =
  Some ([Exec 1; Sleep 1000; Exec 2; Sleep 2000; Exec 3], Returned listing).
Proof.
  assert (forall i, (1 <= i < 1 + Z.of_nat 2)%Z ->
                    retryable networkWord (thirdTime i) = true) as Hbefore.
  { intros i Hi. assert (i = 1 \/ i = 2)%Z as [->| ->] by lia; reflexivity. }
  split; [simpl; lia|]. split; [exact Hbefore|].
  split; [left; reflexivity|].
  apply (executeWithRetry_stops_at networkWord thirdTime 3 2);
    [simpl; lia|exact Hbefore|left; reflexivity].
Defined.

Lemma executeWithRetry_ends_witness :
  (1 <= 3)%Z /\
  exists events outcome,
    executeWithRetry networkWord thirdTime 3 = Some (events, outcome) /\
    (1 <= executions events)%nat /\
    (Z.of_nat (executions events) <= 3)%Z /\
    outcome = outcomeOf (thirdTime (Z.of_nat (executions events))) /\
    outcome <> Thrown None /\
    waits events =
    (fun i => waitAfter (Z.of_nat i)) <$> seq 1 (pred (executions events)) /\
    (3 <= 3 -> waited events <= 3000)%Z.
Proof.
  split; [lia|].
  apply (executeWithRetry_ends networkWord thirdTime 3). lia.
Defined.

Lemma executeWithRetry_without_attempts_witness :
  (0 < 1)%Z /\
  executeWithRetry networkWord thirdTime 0 = Some ([], Thrown None).
Proof.
  split; [lia|].
  apply (executeWithRetry_without_attempts networkWord thirdTime 0). lia.
Defined.

End RetryFacts.

(** ** The escaping of markup *)

Module HtmlFacts.
Import Js PomEditorProvider HtmlSpec OmissionFacts.

Lemma append_assoc (a b c : string) : (a +:+ b) +:+ c = a +:+ (b +:+ c).
Proof.
  induction a as [|x a IH]; [by rewrite !append_nil_l|].
  by rewrite !append_cons, IH.
Qed.

Lemma replaceAll_append pattern replacement a b :
  replaceAll pattern replacement (a +:+ b) =
  replaceAll pattern replacement a +:+ replaceAll pattern replacement b.
Proof.
  induction a as [|c a IH]; [by rewrite !append_nil_l|].
  rewrite append_cons. cbn [replaceAll]. rewrite IH.
  destruct (Ascii.eqb c pattern); [by rewrite append_assoc|].
  by rewrite append_cons.
Qed.

Lemma replaceAll_cons pattern replacement c rest :
  replaceAll pattern replacement (String c rest) =
  (if Ascii.eqb c pattern then replacement else String c EmptyString) +:+
  replaceAll pattern replacement rest.
Proof.
  cbn [replaceAll]. destruct (Ascii.eqb c pattern); [done|].
  by rewrite append_cons, append_nil_l.
Qed.

Lemma escapeHtml_cons c rest :
  escapeHtml (String c rest) = entity c +:+ escapeHtml rest.
Proof.
  unfold escapeHtml, entity.
  rewrite (replaceAll_cons "&"), !replaceAll_append.
  destruct (Ascii.eqb_spec c "&") as [->|Hamp]; [done|].
  rewrite (replaceAll_cons "<" _ c EmptyString).
  destruct (Ascii.eqb_spec c "<") as [->|Hlt]; [done|].
  cbn [replaceAll]. rewrite !append_cons, !append_nil_l.
  rewrite (replaceAll_cons ">" _ c EmptyString).
  destruct (Ascii.eqb_spec c ">") as [->|Hgt]; [done|].
  cbn [replaceAll]. rewrite !append_cons, !append_nil_l.
  rewrite (replaceAll_cons "034" _ c EmptyString).
  destruct (Ascii.eqb_spec c "034") as [->|Hquot]; [done|].
  cbn [replaceAll]. rewrite !append_cons, !append_nil_l.
  rewrite (replaceAll_cons "'" _ c EmptyString).
  destruct (Ascii.eqb_spec c "'") as [->|Hapos]; [done|].
  cbn [replaceAll]. by rewrite !append_cons, !append_nil_l.
Qed.

(** X21. The five replacements in a row amount to one pass over the text
    that replaces each character of markup by its entity: no replacement
    touches what an earlier one has written. *)
Theorem escapeHtml_one_pass (text : string) :
  escapeHtml text = escaped text.
Proof.
  induction text as [|c rest IH]; [done|].
  by rewrite escapeHtml_cons, IH.
Qed.

Lemma entity_cases (c : ascii) :
  (isMarkup c = true /\
   (entity c = "&amp;" \/ entity c = "&lt;" \/ entity c = "&gt;" \/
    entity c = "&quot;" \/ entity c = "&#039;")) \/
  (isMarkup c = false /\ entity c = String c EmptyString).
Proof.
  unfold isMarkup, entity.
  destruct (Ascii.eqb c "&"); [left; tauto|].
  destruct (Ascii.eqb c "<"); [left; tauto|].
  destruct (Ascii.eqb c ">"); [left; tauto|].
  destruct (Ascii.eqb c "034"); [left; tauto|].
  destruct (Ascii.eqb c "'"); [left; tauto|].
  by right.
Qed.

(** X22. The result of [escapeHtml] has no character of markup left but
    ampersands, and each of its ampersands begins one of the five
    entities. *)
Theorem escapeHtml_leaves_no_markup (text : string) :
  forallChars (fun c => negb (isMarkup c) || Ascii.eqb c "&")
              (escapeHtml text) = true /\
  bareAmpersands (escapeHtml text) = 0%nat.
Proof.
  induction text as [|c rest [IH1 IH2]]; [done|].
  rewrite escapeHtml_cons.
  destruct (entity_cases c) as [[_ [->|[->|[->|[->| ->]]]]]|[Hc ->]];
    rewrite !append_cons, append_nil_l; cbn;
    rewrite ?IH1, ?IH2;
    try (split; [done|]; by destruct (escapeHtml rest)).
  rewrite Hc. split; [done|].
  unfold isMarkup in Hc. apply orb_false_elim in Hc as [Hc _].
  apply orb_false_elim in Hc as [Hc _]. apply orb_false_elim in Hc as [Hc _].
  apply orb_false_elim in Hc as [Hc _]. by rewrite Hc.
Qed.

Lemma entity_head (c : ascii) rest :
  exists tail,
    entity c +:+ rest = String (if isMarkup c then "&"%char else c) tail.
Proof.
  destruct (entity_cases c) as [[-> [->|[->|[->|[->| ->]]]]]|[-> ->]];
    rewrite append_cons; eauto.
Qed.

Lemma entity_prefix_inj (c d : ascii) (r1 r2 : string) :
  entity c +:+ r1 = entity d +:+ r2 -> c = d /\ r1 = r2.
Proof.
  unfold entity.
  destruct (Ascii.eqb_spec c "&") as [->|?];
    [|destruct (Ascii.eqb_spec c "<") as [->|?];
      [|destruct (Ascii.eqb_spec c ">") as [->|?];
        [|destruct (Ascii.eqb_spec c "034") as [->|?];
          [|destruct (Ascii.eqb_spec c "'") as [->|?]]]]];
  (destruct (Ascii.eqb_spec d "&") as [->|?];
    [|destruct (Ascii.eqb_spec d "<") as [->|?];
      [|destruct (Ascii.eqb_spec d ">") as [->|?];
        [|destruct (Ascii.eqb_spec d "034") as [->|?];
          [|destruct (Ascii.eqb_spec d "'") as [->|?]]]]]);
  rewrite !append_cons, !append_nil_l;
  intros Heq; injection Heq as; subst; try done.
Qed.

(** X23. [escapeHtml] loses nothing: two texts with the same result are the
    same text. *)
Theorem escapeHtml_injective (text1 text2 : string) :
  escapeHtml text1 = escapeHtml text2 -> text1 = text2.
Proof.
  revert text2.
  induction text1 as [|c rest1 IH]; intros [|d rest2];
    rewrite ?escapeHtml_cons.
  - done.
  - destruct (entity_head d (escapeHtml rest2)) as [tail ->]. done.
  - destruct (entity_head c (escapeHtml rest1)) as [tail ->]. done.
  - intros [-> Hrest]%entity_prefix_inj. by rewrite (IH _ Hrest).
Qed.

Lemma escapeHtml_injective_witness :
  escapeHtml "a<b" = escapeHtml "a<b" /\ "a<b" = "a<b".
Proof.
  split; [reflexivity|].
  apply (escapeHtml_injective "a<b" "a<b"). reflexivity.
Defined.

End HtmlFacts.

(** ** The level of a line in Maven's drawing *)

Module DrawingFacts.
Import Js MavenUtils ParserSpec JsFacts OmissionFacts TreeParserFacts.

Lemma leadingSpaces_bars groups rest :
  leadingSpaces (bars groups +:+ rest) = (2 * groups + leadingSpaces rest)%nat.
Proof.
  induction groups as [|groups IH]; cbn [bars].
  - by rewrite append_nil_l.
  - change ("|  " +:+ bars groups) with (String "|" (String " " (String " " (bars groups)))).
    rewrite !append_cons.
    change (leadingSpaces (String "|" (String " " (String " "
              (bars groups +:+ rest)))))
      with (S (S (leadingSpaces (bars groups +:+ rest)))).
    rewrite IH. lia.
Qed.

Lemma dropWhile_bars groups rest :
  dropWhile isTreeChar (bars groups +:+ rest) = dropWhile isTreeChar rest.
Proof.
  induction groups as [|groups IH]; cbn [bars].
  - by rewrite append_nil_l.
  - change ("|  " +:+ bars groups) with (String "|" (String " " (String " " (bars groups)))).
    rewrite !append_cons.
    by change (dropWhile isTreeChar (String "|" (String " " (String " "
                 (bars groups +:+ rest)))))
      with (dropWhile isTreeChar (bars groups +:+ rest)).
Qed.

Lemma no_tree_char_in_front coordinates :
  leadingTreeChars coordinates = 0%nat ->
  leadingSpaces coordinates = 0%nat /\
  dropWhile isTreeChar coordinates = coordinates.
Proof.
  destruct coordinates as [|c rest]; [done|]. cbn.
  unfold isTreeChar. destruct (isTreeGlyph c); [done|].
  by destruct (Ascii.eqb c " ").
Qed.

Lemma drawing_head groups connector rest :
  connector ∈ connectors ->
  exists c tail,
    bars groups +:+ connector +:+ rest = String c tail /\
    isWhiteSpace c = false.
Proof.
  intros Hconnector. destruct groups as [|groups].
  - cbn [bars]. rewrite append_nil_l.
    unfold connectors in Hconnector.
    apply elem_of_cons in Hconnector as [->|Hconnector];
      [|apply list_elem_of_singleton in Hconnector as ->];
      rewrite append_cons; eauto.
  - cbn [bars].
    change ("|  " +:+ bars groups) with (String "|" (String " " (String " " (bars groups)))).
    rewrite append_cons. eauto.
Qed.

(** How the loop body decodes a line that begins with the marker. *)
Lemma decodeTreeLine_marked content c tail :
  content = String c tail -> isWhiteSpace c = false ->
  decodeTreeLine ("[INFO] " +:+ content) =
  if isNoise content then Normal None
  else
    let indent := calculateIndent content in
    let content := trim (dropWhile isTreeChar content) in
    if isEmpty content then Normal None
    else
      bindC (parseDependencyNode content) (fun parsed =>
      match parsed with
      | None => Normal None
      | Some node => Normal (Some (indent, node))
      end).
Proof.
  intros -> Hc. unfold decodeTreeLine.
  change ("[INFO] " +:+ String c tail)
    with (String "[" (String "I" (String "N" (String "F" (String "O"
            (String "]" (String " " (String c tail)))))))).
  set (line := String "[" (String "I" (String "N" (String "F" (String "O"
                 (String "]" (String " " (String c tail)))))))).
  assert (includes line "[INFO]" = true) as -> by reflexivity.
  assert ((String.length (trim line) =? 0)%nat = false) as -> by reflexivity.
  assert (indexOf line "[INFO]" = 0%Z) as -> by reflexivity.
  assert (substring line (0 + 6) = String " " (String c tail)) as ->
    by reflexivity.
  assert (trimStart (String " " (String c tail)) = String c tail) as ->.
  { unfold trimStart.
    change (dropWhile isWhiteSpace (String " " (String c tail)))
      with (dropWhile isWhiteSpace (String c tail)).
    cbn [dropWhile]. by rewrite Hc. }
  done.
Qed.

(** X24. A line of Maven's output whose drawing has [groups] bars in front
    of the connector stands at depth [groups + 1] below the root. As only
    the spaces of the drawing are counted, the tree parser gives it the
    level (2 * groups + 1) / 3, which is below that depth: the direct
    dependencies get level 0, the level of a root. *)
Theorem drawn_line_level (groups : nat) (connector coordinates : string)
    (node : DependencyNode.t) :
  connector ∈ connectors ->
  leadingTreeChars coordinates = 0%nat ->
  isNoise (bars groups +:+ connector +:+ coordinates) = false ->
  parseDependencyNode (trim coordinates) = Normal (Some node) ->
  decodeTreeLine (drawnLine groups connector coordinates) =
    Normal (Some (((2 * groups + 1) / 3)%nat, node)) /\
  ((2 * groups + 1) / 3 < groups + 1)%nat.
Proof.
  intros Hconnector Hfront Hnoise Hnode. split.
  2:{ apply Nat.Div0.div_lt_upper_bound. lia. }
  destruct (no_tree_char_in_front _ Hfront) as [Hspaces Hdrop].
  destruct (drawing_head groups connector coordinates Hconnector)
    as (c & tail & Hhead & Hc).
  unfold drawnLine. rewrite (decodeTreeLine_marked _ c tail Hhead Hc).
  rewrite Hnoise. cbn zeta.
  rewrite calculateIndent_counts_spaces, leadingSpaces_bars, dropWhile_bars.
  assert (leadingSpaces (connector +:+ coordinates) = 1%nat /\
          dropWhile isTreeChar (connector +:+ coordinates) = coordinates)
    as [-> ->].
  { unfold connectors in Hconnector.
    apply elem_of_cons in Hconnector as [->|Hconnector];
      [|apply list_elem_of_singleton in Hconnector as ->];
      rewrite !append_cons, append_nil_l; cbn; by rewrite Hspaces, Hdrop. }
  destruct (trim coordinates) eqn:Htrim; [by vm_compute in Hnode|].
  cbn [isEmpty]. by rewrite Hnode.
Qed.

Lemma drawn_line_level_witness :
  "+- " ∈ connectors /\
  leadingTreeChars "com.foo:baz:jar:2.0" = 0%nat /\
  isNoise (bars 1 +:+ "+- " +:+ "com.foo:baz:jar:2.0") = false /\
  parseDependencyNode (trim "com.foo:baz:jar:2.0") =
    Normal (Some (jarNode "baz" "2.0" [])) /\
  decodeTreeLine (drawnLine 1 "+- " "com.foo:baz:jar:2.0") =
    Normal (Some (((2 * 1 + 1) / 3)%nat, jarNode "baz" "2.0" [])) /\
  ((2 * 1 + 1) / 3 < 1 + 1)%nat.
Proof.
  assert ("+- " ∈ connectors) as Hconnector by (by left).
  split; [exact Hconnector|]. split; [reflexivity|]. split; [reflexivity|].
  split; [reflexivity|].
  apply (drawn_line_level 1 "+- " "com.foo:baz:jar:2.0" (jarNode "baz" "2.0" []));
    [exact Hconnector|reflexivity|reflexivity|reflexivity].
Defined.

End DrawingFacts.

(** ** The handler of the provider and the cache *)

Module ProviderFacts.
Import Js CacheManager CacheSpec PomEditorProvider ProviderSpec.
Import CacheFacts CacheLifecycleFacts.

Section Handler.
Context {Data : Type}.
Variable jsonLength : Data -> option Z.
Variable md5 : string -> string.
Variable truthy : Data -> bool.
Variable failureText : string -> string.

Lemma get_returns (w : World) (h : Host Data) pomPath cacheKey forceRefresh :
  exists cachedData,
    get md5 w pomPath cacheKey forceRefresh h =
    (Normal cachedData, snd (get md5 w pomPath cacheKey forceRefresh h)).
Proof.
  destruct forceRefresh; [by exists None|].
  rewrite get_run.
  destruct (firstFresh _ _ _ _) as [[[|tier] hit]|]; eauto.
Qed.

Lemma set_returns (w : World) (h : Host Data) pomPath cacheKey (d : Data) :
  set jsonLength md5 w pomPath cacheKey d h =
  (Normal tt, afterSet jsonLength md5 w h pomPath cacheKey d).
Proof.
  unfold afterSet. destruct h as [memory small dir errors].
  unfold set, setToFileCache, ensureStorageDirectory, stat, memorySet,
    workspaceStateUpdate, writeFile, consoleError, tryCatch, bind, ret, throw.
  simpl.
  repeat match goal with
         | |- context [match ?x with _ => _ end] =>
             lazymatch x with
             | context [match _ with _ => _ end] => fail
             | _ => destruct x eqn:?; simpl
             end
         end; done.
Qed.

(** A run that finds nothing usable in the cache and whose executor
    succeeds. *)
Lemma fetching_run executor (wGet wSet : World) (h : Host Data)
    pomPath cacheKey forceRefresh progress result :
  usable truthy (get md5 wGet pomPath cacheKey forceRefresh h) = false ->
  executor pomPath = (progress, Normal result) ->
  executeWithProgress jsonLength md5 truthy failureText executor wGet wSet
    pomPath cacheKey forceRefresh h =
  mkRun (showLoadingState cacheKey true :: progress ++
           [fetchedResult cacheKey result])
        []
        (afterSet jsonLength md5 wSet
           (snd (get md5 wGet pomPath cacheKey forceRefresh h))
           pomPath cacheKey result).
Proof.
  intros Hunusable Hexecutor. unfold executeWithProgress, attempt, usable in *.
  destruct (get_returns wGet h pomPath cacheKey forceRefresh)
    as [cachedData Hget].
  rewrite Hget in *. cbn [fst snd] in *. rewrite Hexecutor, set_returns.
  destruct cachedData as [d|]; [|done]. by rewrite Hunusable.
Qed.

(** The lookup that follows a store under unchanged conditions. *)
Lemma get_after_store (wSet wGet : World) (h : Host Data) pomPath cacheKey
    (v : Data) (mSet mGet : Z) :
  mtime wSet pomPath = Some mSet ->
  mtime wGet pomPath = Some mGet ->
  (mGet <= mSet)%Z ->
  (now wGet - now wSet <= MAX_CACHE_AGE_MS)%Z ->
  get md5 wGet pomPath cacheKey false
    (afterSet jsonLength md5 wSet h pomPath cacheKey v) =
  (Normal (Some v), afterSet jsonLength md5 wSet h pomPath cacheKey v).
Proof.
  intros HmSet HmGet Hm Hage.
  pose proof (set_memory jsonLength md5 wSet h pomPath cacheKey v mSet HmSet)
    as Hmem.
  rewrite get_run. unfold tierEntries. rewrite Hmem, lookup_insert_eq.
  cbn [firstFresh].
  assert (isCacheValid wGet (entryOf wSet v mSet) pomPath = true) as ->.
  { unfold isCacheValid, entryOf. simpl. rewrite HmGet.
    destruct (Z.gtb_spec (now wGet - now wSet) MAX_CACHE_AGE_MS); [lia|].
    destruct (Z.gtb_spec mGet mSet); [lia|done]. }
  done.
Qed.

(** X25. A payload that a run of the handler has fetched and stored is
    served by the next run from the cache: when the payload is truthy, the
    source file has not been modified in between and the next run follows
    within the TTL, the next run posts the loading message and the cached
    result and nothing else, whatever its executor would do, and leaves the
    cache as it is. *)
Theorem rerun_served_from_cache executor1 executor2
    (wGet1 wSet1 wGet2 wSet2 : World) (h : Host Data)
    (pomPath cacheKey : string) (forceRefresh : bool)
    (progress : list (Message Data)) (result : Data) (mSet mGet : Z) :
  usable truthy (get md5 wGet1 pomPath cacheKey forceRefresh h) = false ->
  executor1 pomPath = (progress, Normal result) ->
  truthy result = true ->
  mtime wSet1 pomPath = Some mSet ->
  mtime wGet2 pomPath = Some mGet ->
  (mGet <= mSet)%Z ->
  (now wGet2 - now wSet1 <= MAX_CACHE_AGE_MS)%Z ->
  posted (executeWithProgress jsonLength md5 truthy failureText executor1
            wGet1 wSet1 pomPath cacheKey forceRefresh h) =
    showLoadingState cacheKey true :: progress ++
      [fetchedResult cacheKey result] /\
  executeWithProgress jsonLength md5 truthy failureText executor2
    wGet2 wSet2 pomPath cacheKey false
    (cache (executeWithProgress jsonLength md5 truthy failureText executor1
              wGet1 wSet1 pomPath cacheKey forceRefresh h)) =
  mkRun [showLoadingState cacheKey true; showCachedResult cacheKey result]
        []
        (cache (executeWithProgress jsonLength md5 truthy failureText
                  executor1 wGet1 wSet1 pomPath cacheKey forceRefresh h)).
Proof.
  intros Hunusable Hexecutor Htruthy HmSet HmGet Hm Hage.
  rewrite (fetching_run executor1 _ _ _ _ _ _ progress result) by done.
  split; [done|]. cbn [cache].
  unfold executeWithProgress, attempt.
  rewrite (get_after_store wSet1 wGet2 _ _ _ _ mSet mGet) by done.
  by rewrite Htruthy.
Qed.

(** X26. A payload that is not truthy is stored but never served: the run
    that follows one which has fetched such a payload finds the fresh entry
    in the cache, does not use it and runs its executor again. *)
Theorem falsy_payload_is_fetched_again executor1 executor2
    (wGet1 wSet1 wGet2 wSet2 : World) (h : Host Data)
    (pomPath cacheKey : string) (forceRefresh : bool)
    (progress1 progress2 : list (Message Data)) (result1 result2 : Data)
    (mSet mGet : Z) :
  usable truthy (get md5 wGet1 pomPath cacheKey forceRefresh h) = false ->
  executor1 pomPath = (progress1, Normal result1) ->
  truthy result1 = false ->
  mtime wSet1 pomPath = Some mSet ->
  mtime wGet2 pomPath = Some mGet ->
  (mGet <= mSet)%Z ->
  (now wGet2 - now wSet1 <= MAX_CACHE_AGE_MS)%Z ->
  executor2 pomPath = (progress2, Normal result2) ->
  fst (get md5 wGet2 pomPath cacheKey false
         (cache (executeWithProgress jsonLength md5 truthy failureText
                   executor1 wGet1 wSet1 pomPath cacheKey forceRefresh h))) =
    Normal (Some result1) /\
  posted (executeWithProgress jsonLength md5 truthy failureText executor2
            wGet2 wSet2 pomPath cacheKey false
            (cache (executeWithProgress jsonLength md5 truthy failureText
                      executor1 wGet1 wSet1 pomPath cacheKey forceRefresh
                      h))) =
    showLoadingState cacheKey true :: progress2 ++
      [fetchedResult cacheKey result2].
Proof.
  intros Hunusable Hexecutor1 Hfalsy HmSet HmGet Hm Hage Hexecutor2.
  rewrite (fetching_run executor1 _ _ _ _ _ _ progress1 result1) by done.
  cbn [cache].
  pose proof (get_after_store wSet1 wGet2
                (snd (get md5 wGet1 pomPath cacheKey forceRefresh h))
                pomPath cacheKey result1 mSet mGet HmSet HmGet Hm Hage)
    as Hget.
  split; [by rewrite Hget|].
  rewrite (fetching_run executor2 _ _ _ _ _ _ progress2 result2); try done.
  unfold usable. by rewrite Hget.
Qed.

End Handler.

Lemma rerun_served_from_cache_witness :
  usable nonZero (get pathDigest quietWorld "/p/pom.xml" "dependencyTree"
                    true fullHost) = false /\
  fetchNine "/p/pom.xml" =
    ([ProgressMessage "dependencyTreeProgress" 1 "checking" 25], Normal 9%Z) /\
  nonZero 9 = true /\
  mtime quietWorld "/p/pom.xml" = Some 500%Z /\
  mtime quietWorld "/p/pom.xml" = Some 500%Z /\
  (500 <= 500)%Z /\
  (now quietWorld - now quietWorld <= MAX_CACHE_AGE_MS)%Z /\
  posted (executeWithProgress sizeOf pathDigest nonZero plainFailure fetchNine
            quietWorld quietWorld "/p/pom.xml" "dependencyTree" true
            fullHost) =
    showLoadingState "dependencyTree" true ::
      [ProgressMessage "dependencyTreeProgress" 1 "checking" 25] ++
      [fetchedResult "dependencyTree" 9%Z] /\
  executeWithProgress sizeOf pathDigest nonZero plainFailure fetchZero
    quietWorld quietWorld "/p/pom.xml" "dependencyTree" false
    (cache (executeWithProgress sizeOf pathDigest nonZero plainFailure
              fetchNine quietWorld quietWorld "/p/pom.xml" "dependencyTree"
              true fullHost)) =
  mkRun [showLoadingState "dependencyTree" true;
         showCachedResult "dependencyTree" 9%Z]
        []
        (cache (executeWithProgress sizeOf pathDigest nonZero plainFailure
                  fetchNine quietWorld quietWorld "/p/pom.xml"
                  "dependencyTree" true fullHost)).
Proof.
  split; [reflexivity|]. split; [reflexivity|]. split; [reflexivity|].
  split; [reflexivity|]. split; [reflexivity|]. split; [lia|].
  split; [by vm_compute|].
  apply (rerun_served_from_cache sizeOf pathDigest nonZero plainFailure
           fetchNine fetchZero quietWorld quietWorld quietWorld quietWorld
           fullHost "/p/pom.xml" "dependencyTree" true
           [ProgressMessage "dependencyTreeProgress" 1 "checking" 25] 9%Z
           500 500);
    [reflexivity|reflexivity|reflexivity|reflexivity|reflexivity|lia
    |by vm_compute].
Defined.

Lemma falsy_payload_is_fetched_again_witness :
  usable nonZero (get pathDigest quietWorld "/p/pom.xml" "dependencyTree"
                    true fullHost) = false /\
  fetchZero "/p/pom.xml" = ([], Normal 0%Z) /\
  nonZero 0 = false /\
  mtime quietWorld "/p/pom.xml" = Some 500%Z /\
  mtime quietWorld "/p/pom.xml" = Some 500%Z /\
  (500 <= 500)%Z /\
  (now quietWorld - now quietWorld <= MAX_CACHE_AGE_MS)%Z /\
  fetchNine "/p/pom.xml" =
    ([ProgressMessage "dependencyTreeProgress" 1 "checking" 25], Normal 9%Z) /\
  fst (get pathDigest quietWorld "/p/pom.xml" "dependencyTree" false
         (cache (executeWithProgress sizeOf pathDigest nonZero plainFailure
                   fetchZero quietWorld quietWorld "/p/pom.xml"
                   "dependencyTree" true fullHost))) =
    Normal (Some 0%Z) /\
  posted (executeWithProgress sizeOf pathDigest nonZero plainFailure fetchNine
            quietWorld quietWorld "/p/pom.xml" "dependencyTree" false
            (cache (executeWithProgress sizeOf pathDigest nonZero
                      plainFailure fetchZero quietWorld quietWorld
                      "/p/pom.xml" "dependencyTree" true fullHost))) =
    showLoadingState "dependencyTree" true ::
      [ProgressMessage "dependencyTreeProgress" 1 "checking" 25] ++
      [fetchedResult "dependencyTree" 9%Z].
Proof.
  split; [reflexivity|]. split; [reflexivity|]. split; [reflexivity|].
  split; [reflexivity|]. split; [reflexivity|]. split; [lia|].
  split; [by vm_compute|]. split; [reflexivity|].
  apply (falsy_payload_is_fetched_again sizeOf pathDigest nonZero plainFailure
           fetchZero fetchNine quietWorld quietWorld quietWorld quietWorld
           fullHost "/p/pom.xml" "dependencyTree" true
           [] [ProgressMessage "dependencyTreeProgress" 1 "checking" 25]
           0%Z 9%Z 500 500);
    [reflexivity|reflexivity|reflexivity|reflexivity|reflexivity|lia
    |by vm_compute|reflexivity].
Defined.

End ProviderFacts.

(** ** The two managers of the extension *)

Module InstanceFacts.
Import Js CacheManager CacheSpec CacheFacts.

Section WithPayload.
Context {Data : Type}.
Variable jsonLength : Data -> option Z.
Variable md5 : string -> string.
Variable deleteRejects : string -> bool.

Lemma onCommandManager_providerMemory {A} (method : Op Data A)
    (m : Managers Data) :
  providerMemory (snd (onCommandManager method m)) = providerMemory m.
Proof. unfold onCommandManager. by destruct (method _). Qed.

(** X27. The command that clears all caches and the save listener run on
    the manager of [activate] and do not reach the memory cache of the
    provider's manager: a value that the provider has stored is still
    served to the provider after [clearAll] and after [invalidate], as long
    as the source file is unmodified and the TTL has not passed, whether
    or not the removals were rejected. *)
Theorem provider_memory_survives_clearAll (wSet wClear wSave wGet : World)
    (m : Managers Data) (pomPath cacheKey : string) (v : Data)
    (mSet mGet : Z) :
  mtime wSet pomPath = Some mSet ->
  mtime wGet pomPath = Some mGet ->
  (mGet <= mSet)%Z ->
  (now wGet - now wSet <= MAX_CACHE_AGE_MS)%Z ->
  let stored :=
    snd (onProviderManager (set jsonLength md5 wSet pomPath cacheKey v) m) in
  let cleared :=
    snd (onCommandManager (clearAll wClear deleteRejects) stored) in
  let saved :=
    snd (onCommandManager (invalidate md5 wSave deleteRejects pomPath)
           cleared) in
  fst (onProviderManager (get md5 wGet pomPath cacheKey false) cleared) =
    Normal (Some v) /\
  fst (onProviderManager (get md5 wGet pomPath cacheKey false) saved) =
    Normal (Some v).
Proof.
  intros HmSet HmGet Hm Hage stored cleared saved.
  assert (providerMemory stored !! generateCacheKey pomPath cacheKey =
          Some (entryOf wSet v mSet)) as Hstored.
  { unfold stored, onProviderManager.
    pose proof (set_memory jsonLength md5 wSet
                  (mkHost (providerMemory m) (contextState m)
                          (contextDirectory m) (contextConsole m))
                  pomPath cacheKey v mSet HmSet) as Hmem.
    unfold afterSet in Hmem.
    destruct (set _ _ _ _ _ _ _) as [completed h]. simpl in *.
    by rewrite Hmem, lookup_insert_eq. }
  assert (isCacheValid wGet (entryOf wSet v mSet) pomPath = true) as Hvalid.
  { unfold isCacheValid, entryOf. simpl. rewrite HmGet.
    destruct (Z.gtb_spec (now wGet - now wSet) MAX_CACHE_AGE_MS); [lia|].
    destruct (Z.gtb_spec mGet mSet); [lia|done]. }
  assert (forall m' : Managers Data,
            providerMemory m' = providerMemory stored ->
            fst (onProviderManager (get md5 wGet pomPath cacheKey false) m') =
            Normal (Some v)) as Hserved.
  { intros m' Hsame. unfold onProviderManager. rewrite get_run.
    unfold tierEntries. cbn [memoryCache]. rewrite Hsame, Hstored.
    cbn [firstFresh]. by rewrite Hvalid. }
  split; apply Hserved.
  - apply onCommandManager_providerMemory.
  - unfold saved. rewrite onCommandManager_providerMemory.
    apply onCommandManager_providerMemory.
Qed.

End WithPayload.

Lemma provider_memory_survives_clearAll_witness :
  mtime quietWorld "/p/pom.xml" = Some 500%Z /\
  mtime quietWorld "/p/pom.xml" = Some 500%Z /\
  (500 <= 500)%Z /\
  (now quietWorld - now quietWorld <= MAX_CACHE_AGE_MS)%Z /\
  fst (onProviderManager
         (get pathDigest quietWorld "/p/pom.xml" "dependencyTree" false)
         (snd (onCommandManager (clearAll quietWorld neverRejects)
                 (snd (onProviderManager
                         (set sizeOf pathDigest quietWorld "/p/pom.xml"
                              "dependencyTree" 9%Z)
                         freshManagers))))) =
    Normal (Some 9%Z) /\
  fst (onProviderManager
         (get pathDigest quietWorld "/p/pom.xml" "dependencyTree" false)
         (snd (onCommandManager
                 (invalidate pathDigest quietWorld neverRejects "/p/pom.xml")
                 (snd (onCommandManager (clearAll quietWorld neverRejects)
                         (snd (onProviderManager
                                 (set sizeOf pathDigest quietWorld
                                      "/p/pom.xml" "dependencyTree" 9%Z)
                                 freshManagers))))))) =
    Normal (Some 9%Z).
Proof.
  split; [reflexivity|]. split; [reflexivity|]. split; [lia|].
  split; [by vm_compute|].
  apply (provider_memory_survives_clearAll sizeOf pathDigest neverRejects
           quietWorld quietWorld quietWorld quietWorld freshManagers
           "/p/pom.xml" "dependencyTree" 9%Z 500 500);
    [reflexivity|reflexivity|lia|by vm_compute].
Defined.

End InstanceFacts.

(** ** The tree searches of the webview *)

Module WebviewFacts.
Import Js MavenUtils Webview TreeSpec.

Lemma Tree_ind (P : Tree -> Prop) :
  (forall node children, Forall P children -> P (TreeNode node children)) ->
  forall t, P t.
Proof.
  intros Hnode. fix IH 1. intros [node children]. apply Hnode.
  induction children as [|child children IHchildren]; constructor.
  - apply IH.
  - apply IHchildren.
Qed.

Lemma findInNode_preorder artifactId (t : Tree) :
  forall results,
    findInNode artifactId t results =
    results ++ (getNodeId <$> List.filter (hasArtifact artifactId) (preorder t)).
Proof.
  induction t as [node children IH] using Tree_ind. intros results.
  cbn [findInNode preorder List.filter]. fold (hasArtifact artifactId node).
  set (start := if hasArtifact artifactId node
                then results ++ [getNodeId node] else results).
  assert (start = results ++
            (getNodeId <$> (if hasArtifact artifactId node then [node] else [])))
    as ->.
  { unfold start. destruct (hasArtifact _ _); [done|by rewrite app_nil_r]. }
  assert (forall acc,
            fold_left (fun results child => findInNode artifactId child results)
                      children acc =
            acc ++ (getNodeId <$>
                      List.filter (hasArtifact artifactId)
                                  (flat_map preorder children))) as Hfold.
  { induction IH as [|child children Hchild _ IHchildren]; intros acc;
      cbn [fold_left flat_map]; [by rewrite app_nil_r|].
    rewrite Hchild, IHchildren, List.filter_app, fmap_app.
    by rewrite <- app_assoc. }
  rewrite Hfold, <- app_assoc. f_equal.
  destruct (hasArtifact artifactId node); by rewrite ?fmap_cons.
Qed.

Lemma findMatchingTreeNodes_run (nodes : list Tree) (artifactId : string) :
  forall results,
    findMatchingTreeNodes nodes artifactId results =
    results ++
    (getNodeId <$> List.filter (hasArtifact artifactId)
                               (flat_map preorder nodes)).
Proof.
  unfold findMatchingTreeNodes.
  induction nodes as [|node nodes IH]; intros results;
    cbn [fold_left flat_map]; [by rewrite app_nil_r|].
  rewrite findInNode_preorder, IH, List.filter_app, fmap_app.
  by rewrite <- app_assoc.
Qed.

(** X28. [findMatchingTreeNodes] appends to [results] the ids of the nodes
    of the forest that have the artifact id, each node once, a parent in
    front of its children and the trees in their order, so that it finds
    as many ids as the forest has nodes with the artifact id. *)
Theorem findMatchingTreeNodes_preorder (nodes : list Tree)
    (artifactId : string) (results : list string) :
  findMatchingTreeNodes nodes artifactId results =
    results ++
    (getNodeId <$> List.filter (hasArtifact artifactId)
                               (flat_map preorder nodes)) /\
  List.length (findMatchingTreeNodes nodes artifactId results) =
    (List.length results +
     List.length (List.filter (hasArtifact artifactId)
                              (flat_map preorder nodes)))%nat.
Proof.
  rewrite findMatchingTreeNodes_run. split; [done|].
  by rewrite length_app, length_fmap.
Qed.

Lemma childContainsArtifact_preorder artifactId (t : Tree) :
  isEmpty artifactId = false ->
  childContainsArtifact artifactId t =
  existsb (hasArtifact artifactId) (preorder t).
Proof.
  intros Hname. induction t as [node children IH] using Tree_ind.
  cbn [childContainsArtifact preorder existsb]. rewrite Hname.
  fold (hasArtifact artifactId node). f_equal.
  induction IH as [|child children Hchild _ IHchildren];
    cbn [existsb flat_map]; [done|].
  by rewrite Hchild, IHchildren, existsb_app.
Qed.

Lemma existsb_filter_nil {A} (p : A -> bool) (l : list A) :
  existsb p l = true <-> List.filter p l <> [].
Proof.
  induction l as [|x l IH]; cbn [existsb List.filter]; [done|].
  destruct (p x); [done|]. by rewrite orb_false_l.
Qed.

(** X29. [childrenContainArtifact] answers whether the artifact id is not
    empty and some node of the forest has it, at whatever depth; for an
    artifact id that is not empty this is the case exactly when
    [findMatchingTreeNodes] finds a node. *)
Theorem childrenContainArtifact_iff (children : list Tree)
    (artifactId : string) :
  childrenContainArtifact children artifactId =
    negb (isEmpty artifactId) &&
    existsb (hasArtifact artifactId) (flat_map preorder children) /\
  (childrenContainArtifact children artifactId = true <->
   isEmpty artifactId = false /\
   findMatchingTreeNodes children artifactId [] <> []).
Proof.
  assert (childrenContainArtifact children artifactId =
            negb (isEmpty artifactId) &&
            existsb (hasArtifact artifactId) (flat_map preorder children))
    as Heq.
  { unfold childrenContainArtifact.
    destruct (isEmpty artifactId) eqn:Hname; [done|]. cbn [negb andb].
    induction children as [|child children IH]; cbn [existsb flat_map]; [done|].
    by rewrite childContainsArtifact_preorder, IH, existsb_app. }
  split; [done|]. rewrite Heq, findMatchingTreeNodes_run, app_nil_l.
  rewrite andb_true_iff, negb_true_iff, existsb_filter_nil.
  split; intros [Hname Hfound]; (split; [done|]).
  - intros Hnil. apply Hfound. by apply fmap_nil_inv in Hnil.
  - intros Hnil. apply Hfound. by rewrite Hnil.
Qed.

Lemma reaches_cons t forest path node :
  reaches (t :: forest) path node <->
  reaches [t] path node \/ reaches forest path node.
Proof.
  split.
  - intros Hreach. inversion Hreach as [? ? children Hin|? parent children ? ? Hin Hbelow];
      subst; apply elem_of_cons in Hin as [<-|Hin].
    + left. apply (reaches_root _ _ children). by left.
    + right. by apply (reaches_root _ _ children).
    + left. apply (reaches_child _ _ children); [by left|done].
    + right. by apply (reaches_child _ _ children).
  - intros [Hreach|Hreach];
      inversion Hreach as [? ? children Hin|? parent children ? ? Hin Hbelow];
      subst.
    + apply (reaches_root _ _ children).
      apply list_elem_of_singleton in Hin as ->. by left.
    + apply (reaches_child _ _ children); [|done].
      apply list_elem_of_singleton in Hin as ->. by left.
    + apply (reaches_root _ _ children). by right.
    + apply (reaches_child _ _ children); [by right|done].
Qed.

Lemma reaches_nil path node : ~ reaches [] path node.
Proof.
  intros Hreach.
  inversion Hreach as [? ? children Hin|? parent children ? ? Hin Hbelow];
    subst; by apply not_elem_of_nil in Hin.
Qed.

Lemma reaches_singleton parent children path node :
  reaches [TreeNode parent children] path node <->
  (path = [] /\ node = parent) \/
  (exists below, path = getNodeId parent :: below /\
                 reaches children below node).
Proof.
  split.
  - intros Hreach.
    inversion Hreach as [? ? c Hin|? p c below ? Hin Hbelow]; subst;
      apply list_elem_of_singleton in Hin; injection Hin as -> ->.
    + by left.
    + right. by exists below.
  - intros [[-> ->]|(below & -> & Hbelow)].
    + apply (reaches_root _ _ children). by left.
    + apply (reaches_child _ _ children); [by left|done].
Qed.

Section Expand.
Variable targetArtifactId : string.
Variable maxDepth : Z.

Lemma firstFound_searched (forest : list Tree) (pre : list string) :
  Forall (fun t => forall expandedNodes,
            searched targetArtifactId maxDepth [t] pre expandedNodes
              (expandInNode targetArtifactId maxDepth t pre expandedNodes))
         forest ->
  forall expandedNodes,
    searched targetArtifactId maxDepth forest pre expandedNodes
      (firstFound
         (fun node => expandInNode targetArtifactId maxDepth node pre)
         forest expandedNodes).
Proof.
  induction 1 as [|t forest Ht _ IH]; intros expandedNodes;
    cbn [firstFound].
  { right. split; [done|]. intros path node Hreach. by apply reaches_nil in Hreach. }
  destruct (Ht expandedNodes)
    as [(path & node & -> & Hreach & Hnode & Hnear)|[-> Hnone]].
  - left. exists path, node. repeat split; try done.
    apply reaches_cons. by left.
  - destruct (IH expandedNodes)
      as [(path & node & -> & Hreach & Hnode & Hnear)|[-> Hrest]].
    + left. exists path, node. repeat split; try done.
      apply reaches_cons. by right.
    + right. split; [done|]. intros path node [Hreach|Hreach]%reaches_cons;
        eauto.
Qed.

Lemma expandInNode_searched (t : Tree) :
  forall pre expandedNodes,
    (Z.of_nat (List.length pre) < maxDepth)%Z ->
    searched targetArtifactId maxDepth [t] pre expandedNodes
      (expandInNode targetArtifactId maxDepth t pre expandedNodes).
Proof.
  induction t as [node children IH] using Tree_ind.
  intros pre expandedNodes Hpre. cbn [expandInNode].
  fold (hasArtifact targetArtifactId node).
  destruct (hasArtifact targetArtifactId node) eqn:Hnode.
  { left. exists [], node. rewrite app_nil_r. repeat split; try done.
    - apply reaches_singleton. by left.
    - simpl. lia. }
  assert (forall path found,
            reaches [TreeNode node children] path found ->
            hasArtifact targetArtifactId found = true ->
            exists below, path = getNodeId node :: below /\
                          reaches children below found) as Hbelow.
  { intros path found [[-> ->]|Hfound]%reaches_singleton Hmatch; [|done].
    congruence. }
  destruct children as [|child children].
  { right. split; [done|]. intros path found Hreach Hmatch.
    destruct (Hbelow _ _ Hreach Hmatch) as (below & _ & Hnil).
    by apply reaches_nil in Hnil. }
  cbn [List.length Nat.ltb Nat.leb]. rewrite length_app. cbn [List.length].
  destruct (Z.leb_spec maxDepth (Z.of_nat (List.length pre + 1))) as [Hdeep|Hdeep].
  { right. split; [done|]. intros path found Hreach Hmatch.
    destruct (Hbelow _ _ Hreach Hmatch) as (below & -> & _). simpl. lia. }
  assert (Forall (fun t => forall expandedNodes,
                    searched targetArtifactId maxDepth [t] (pre ++ [getNodeId node])
                      expandedNodes
                      (expandInNode targetArtifactId maxDepth t
                         (pre ++ [getNodeId node]) expandedNodes))
                 (child :: children)) as Hchildren.
  { eapply Forall_impl; [exact IH|]. intros t Ht expanded. apply Ht.
    rewrite length_app. simpl. lia. }
  destruct (firstFound_searched (child :: children) (pre ++ [getNodeId node])
              Hchildren expandedNodes)
    as [(path & found & -> & Hreach & Hmatch & Hnear)|[-> Hnone]].
  - left. exists (getNodeId node :: path), found. repeat split; try done.
    + f_equal. rewrite <- app_assoc. simpl.
      rewrite !list_to_set_app_L, list_to_set_cons.
      apply set_eq. intros x. set_unfold. tauto.
    + apply reaches_singleton. right. by exists path.
    + rewrite length_app in Hnear. simpl in *. lia.
  - right. split; [done|]. intros path found Hreach Hmatch.
    destruct (Hbelow _ _ Hreach Hmatch) as (below & -> & Hchild).
    specialize (Hnone _ _ Hchild Hmatch). rewrite length_app in Hnone.
    simpl in *. lia.
Qed.

(** X30. [expandPathToNode] looks for a node with the artifact id at a
    depth below [maxDepth]. When there is one it returns true and adds to
    the expanded nodes the ids of the ancestors of one such node, and of no
    other, whatever the number of nodes with the artifact id; when there
    is none it returns false and leaves the expanded nodes as they are. *)
Theorem expandPathToNode_expands_one_path (nodes : list Tree)
    (expandedNodes : gset string) :
  (exists path node,
     expandPathToNode nodes targetArtifactId [] maxDepth expandedNodes =
       (true, expandedNodes ∪ list_to_set path) /\
     reaches nodes path node /\
     hasArtifact targetArtifactId node = true /\
     (Z.of_nat (List.length path) < maxDepth)%Z) \/
  (expandPathToNode nodes targetArtifactId [] maxDepth expandedNodes =
     (false, expandedNodes) /\
   forall path node,
     reaches nodes path node ->
     hasArtifact targetArtifactId node = true ->
     (maxDepth <= Z.of_nat (List.length path))%Z).
Proof.
  unfold expandPathToNode. cbn [List.length].
  destruct (Z.leb_spec maxDepth (Z.of_nat 0)) as [Hnone|Hsome].
  { right. split; [done|]. intros. lia. }
  apply (firstFound_searched nodes []).
  apply Forall_forall. intros t _ expanded.
  apply expandInNode_searched. simpl. lia.
Qed.

End Expand.

End WebviewFacts.
